(** * useful_push: the news pipeline of [push_digest.py]

    A shallow embedding of the parts of [push_digest.py] that carry policy:
    [load_env_file], [fetch_feed_entries] (collection, recency sort,
    de-duplication, cap), [call_openrouter] (pacing, retries, back-off),
    [extract_json_from_text], [translate_and_summarize], [enrich_news],
    [should_use_openrouter] and [local_summary].

    Conventions of the embedding.
    - A Python [str] is the list of its code points ([list N]); the regular
      expressions of the source are single character classes and are written
      out as predicates on code points.
    - [os.environ] is a finite map, the [seen] set of the de-duplication
      loop a finite set.
    - Time is a rational number of seconds; [monotonic()] reads a clock held
      in the state and [sleep(t)] advances it by [t].
    - The network, [json.loads], BeautifulSoup and [html.unescape] are not
      part of the repository: they are parameters of the sections below or
      scripted replies held in the state.
    - An exception that the source does not catch is a [Raise] result. *)

From Stdlib Require Import List ZArith NArith QArith Lqa Lia Bool Ascii String
  Permutation Sorted.
From stdpp Require Import gmap.
Import ListNotations.

Set Warnings "-register-all".
Local Open Scope Z_scope.

(** ** Python strings *)

Module PyStr.

Abbreviation str := (list N).

(** [str.isspace] for one code point (CPython's [_PyUnicode_IsWhitespace]);
    the class [\s] of [re] on [str] patterns is the same set. *)
Definition isspace (c : N) : bool :=
  ((9 <=? c) && (c <=? 13) || (28 <=? c) && (c <=? 32) || (c =? 133)
   || (c =? 160) || (c =? 5760) || (8192 <=? c) && (c <=? 8202)
   || (c =? 8232) || (c =? 8233) || (c =? 8239) || (c =? 8287)
   || (c =? 12288))%N.

(** [s.lstrip(chars)], [s.rstrip(chars)], [s.strip(chars)] with the set of
    stripped code points given as a predicate. *)
Fixpoint lstrip_by (p : N -> bool) (s : str) : str :=
  match s with
  | c :: r => if p c then lstrip_by p r else s
  | [] => []
  end.

Definition rstrip_by (p : N -> bool) (s : str) : str :=
  rev (lstrip_by p (rev s)).

Definition strip_by (p : N -> bool) (s : str) : str :=
  rstrip_by p (lstrip_by p s).

Definition strip (s : str) : str := strip_by isspace s.
Definition rstrip (s : str) : str := rstrip_by isspace s.
Definition strip_char (c : N) (s : str) : str := strip_by (N.eqb c) s.

(** [s[:k]] for an integer [k], negative [k] counting from the end. *)
Definition slice_to (s : str) (k : Z) : str :=
  if 0 <=? k then firstn (Z.to_nat k) s
  else firstn (Z.to_nat (Z.of_nat (length s) + k)) s.

(** [s.find(c)] for a one-character needle: [None] stands for [-1]. *)
Fixpoint find (c : N) (s : str) : option nat :=
  match s with
  | [] => None
  | d :: r => if (d =? c)%N then Some 0%nat
              else option_map S (find c r)
  end.

(** [s.rfind(c)] for a one-character needle. *)
Fixpoint rfind (c : N) (s : str) : option nat :=
  match s with
  | [] => None
  | d :: r => match rfind c r with
              | Some i => Some (S i)
              | None => if (d =? c)%N then Some 0%nat else None
              end
  end.

(** [re.search("[...]", s)] for a character class [p]: the index just past
    the first match ([m.end()]), or [None]. *)
Fixpoint search_end (p : N -> bool) (s : str) : option nat :=
  match s with
  | [] => None
  | c :: r => if p c then Some 1%nat else option_map S (search_end p r)
  end.

(** [re.sub(r"\s+", " ", s)]: every maximal run of white space becomes one
    space. *)
Fixpoint collapse_ws (s : str) : str :=
  match s with
  | [] => []
  | c :: r =>
      if isspace c then
        match r with
        | d :: _ => if isspace d then collapse_ws r else 32%N :: collapse_ws r
        | [] => [32%N]
        end
      else c :: collapse_ws r
  end.

(** Truth value of a string. *)
Definition truthy (s : str) : bool :=
  match s with [] => false | _ => true end.

(** [a or b] on strings. *)
Definition or_else (a b : str) : str := if truthy a then a else b.

(** An ASCII literal as a list of code points. *)
Fixpoint lit (s : String.string) : str :=
  match s with
  | String.EmptyString => []
  | String.String a r => Ascii.N_of_ascii a :: lit r
  end.

End PyStr.
Import PyStr.

(** ** Results of code that may raise *)

Inductive exn : Type :=
| RequestException | KeyError | IndexError | TypeError | AttributeError
| ValueError.

Inductive result (A : Type) : Type :=
| Ok (a : A)
| Raise (e : exn).
Arguments Ok {A} a.
Arguments Raise {A} e.

Definition is_ok {A} (r : result A) : bool :=
  match r with Ok _ => true | Raise _ => false end.

(** ** Data classes *)

(** [published_at] is the number of microseconds since [datetime.min] in
    the display time zone; every timestamp of the program carries the one
    [TZ] object, so Python compares them on these local values. *)
Record NewsEntry : Type := mkNewsEntry {
  title : str;
  link : str;
  published_at : option N;
  source : option str;
  description : str;
  translation : option str;
  summary : option str;
  kept_original : bool
}.

Definition NEWS_LOOKBACK_HOURS : Z := 24.
Definition MAX_NEWS_ITEMS : Z := 20.

(** ** [fetch_feed_entries] *)

Module Feed.

(** One element of [parsed.entries] after the per-item extraction of the
    source ([parse_datetime], [trim_whitespace], [strip_html]), which depends
    on feedparser, dateutil and BeautifulSoup. *)
Record FeedItem : Type := mkFeedItem {
  fi_published : option N;
  fi_title : str;
  fi_link : str;
  fi_description : str;
  fi_source : str
}.

(** [datetime.min.replace(tzinfo=TZ)] on the scale of [published_at]. *)
Definition baseline : N := 0%N.

(** The sort key [item.published_at or baseline]; a [datetime] is always
    true, so only [None] takes the base line. *)
Definition sort_key (e : NewsEntry) : N :=
  match published_at e with
  | Some t => t
  | None => baseline
  end.

(** The de-duplication key [(entry.title, entry.link)]. *)
Definition dedup_key (e : NewsEntry) : str * str := (title e, link e).

(** [sorted(entries, key=..., reverse=True)]. Python's sort is stable, also
    with [reverse=True]: entries with equal keys keep their input order.
    The stable insertion sort below computes that list
    ([sort_by_recency_perm], [sort_by_recency_sorted],
    [sort_by_recency_stable]). *)
Fixpoint insert_by_recency (x : NewsEntry) (l : list NewsEntry)
  : list NewsEntry :=
  match l with
  | [] => [x]
  | y :: r => if (sort_key x <? sort_key y)%N
              then y :: insert_by_recency x r
              else x :: l
  end.

Fixpoint sort_by_recency (l : list NewsEntry) : list NewsEntry :=
  match l with
  | [] => []
  | x :: r => insert_by_recency x (sort_by_recency r)
  end.

(** The loop of lines 439 to 446 over the sorted list, with its [seen] set,
    its [deduped] list and the [break] once [len(deduped) >= max_items]. *)
Fixpoint dedup_loop (max_items : Z) (seen : gset (str * str))
    (deduped : list NewsEntry) (sorted : list NewsEntry) : list NewsEntry :=
  match sorted with
  | [] => deduped
  | entry :: rest =>
      let key := dedup_key entry in
      if decide (key ∈ seen) then dedup_loop max_items seen deduped rest
      else
        let seen' := seen ∪ {[ key ]} in
        let deduped' := deduped ++ [entry] in
        if Z.of_nat (length deduped') >=? max_items then deduped'
        else dedup_loop max_items seen' deduped' rest
  end.

(** Lines 435 to 447: sort, de-duplicate, cap. *)
Definition dedup_entries (entries : list NewsEntry) (max_items : Z)
  : list NewsEntry :=
  dedup_loop max_items ∅ [] (sort_by_recency entries).

Section Fetch.

(** The reply of one feed URL: [None] when the request, the status check
    or the parser raised (the feed is logged and skipped), otherwise the
    items of the feed. *)
Variable read_feed : str -> option (list FeedItem).

(** The current time, on the scale of [published_at]. *)
Variable now : Z.

Definition cutoff (lookback_hours : Z) : Z :=
  now - lookback_hours * 3600 * 1000000.

Definition entry_of_item (it : FeedItem) : NewsEntry :=
  {| title := fi_title it;
     link := fi_link it;
     published_at := fi_published it;
     source := Some (fi_source it);
     description := fi_description it;
     translation := None;
     summary := None;
     kept_original := true |}.

(** [if published and published < cutoff: continue] *)
Definition too_old (lookback_hours : Z) (it : FeedItem) : bool :=
  match fi_published it with
  | Some t => Z.of_N t <? cutoff lookback_hours
  | None => false
  end.

(** Lines 406 to 434: the entries collected from all feeds, in feed order
    and item order. *)
Fixpoint collect_entries (feeds : list str) (lookback_hours : Z)
  : list NewsEntry :=
  match feeds with
  | [] => []
  | feed_url :: more =>
      match read_feed feed_url with
      | None => collect_entries more lookback_hours
      | Some items =>
          map entry_of_item
              (List.filter (fun it => negb (too_old lookback_hours it)) items)
          ++ collect_entries more lookback_hours
      end
  end.

Definition fetch_feed_entries (feeds : list str) (lookback_hours : Z)
    (max_items : Z) : list NewsEntry :=
  dedup_entries (collect_entries feeds lookback_hours) max_items.

End Fetch.

End Feed.

(** ** JSON values, as [json.loads] and [resp.json()] return them *)

Module Json.

(** [JNull] is Python's [None]. Of a number only its truth value matters
    to the program, so numbers are integers here. An object lists the items
    of the [dict], each key once. *)
Inductive json : Type :=
| JNull
| JBool (b : bool)
| JNum (n : Z)
| JStr (s : str)
| JArr (items : list json)
| JObj (fields : list (str * json)).

(** Truth value of a Python value ([if v:], [v or d]). *)
Definition truthy (v : json) : bool :=
  match v with
  | JNull => false
  | JBool b => b
  | JNum n => negb (n =? 0)
  | JStr s => PyStr.truthy s
  | JArr items => match items with [] => false | _ => true end
  | JObj fields => match fields with [] => false | _ => true end
  end.

Fixpoint lookup_field (k : str) (fields : list (str * json)) : option json :=
  match fields with
  | [] => None
  | (k', v) :: r => if decide (k' = k) then Some v else lookup_field k r
  end.

(** [v[k]] for a string key [k]. *)
Definition getitem (v : json) (k : str) : result json :=
  match v with
  | JObj fields =>
      match lookup_field k fields with
      | Some x => Ok x
      | None => Raise KeyError
      end
  | _ => Raise TypeError
  end.

(** [v[0]]. The keys of a decoded object are strings, so [0] is never one
    of them; a string yields its first character. *)
Definition getitem0 (v : json) : result json :=
  match v with
  | JArr (x :: _) => Ok x
  | JArr [] => Raise IndexError
  | JStr (c :: _) => Ok (JStr [c])
  | JStr [] => Raise IndexError
  | JObj _ => Raise KeyError
  | _ => Raise TypeError
  end.

(** [v.get(k, "")]: only a [dict] has the method. *)
Definition get_or_empty (v : json) (k : str) : result json :=
  match v with
  | JObj fields =>
      match lookup_field k fields with
      | Some x => Ok x
      | None => Ok (JStr [])
      end
  | _ => Raise AttributeError
  end.

End Json.
Import Json.

(** A small error monad for the code between [try] blocks. *)
Definition bind {A B} (r : result A) (k : A -> result B) : result B :=
  match r with
  | Ok a => k a
  | Raise e => Raise e
  end.

Notation "x <- r ;; k" := (bind r (fun x => k))
  (at level 100, r at next level, right associativity).

(** ** String constants of the source *)

Module Text.

(** The label that starts every local summary. *)
Definition LABEL : str := [35201; 28857; 65306]%N.
(** The dash between title and candidate. *)
Definition DASH : str := [8212; 8212]%N.
(** The ellipsis of a truncated candidate. *)
Definition ELLIPSIS : str := [8230]%N.
(** The local summary of an empty text without a title. *)
Definition NO_SUMMARY : str := [26242; 26080; 25688; 35201; 12290]%N.
(** The summary placeholder of [translate_and_summarize]. *)
Definition SUMMARY_PLACEHOLDER : str :=
  [26080; 27861; 29983; 25104; 25688; 35201; 65292; 24050; 20445; 30041;
   21407; 25991; 12290]%N.
(** The body of the prompt for an entry without description. *)
Definition NO_DESCRIPTION : str := [65288; 26080; 25688; 35201; 65289]%N.
(** The mark appended to a truncated prompt body. *)
Definition PROMPT_ELLIPSIS : str := [8230; 8230]%N.
(** The two labels of [text_block]. *)
Definition TITLE_LABEL : str := [26631; 39064; 65306]%N.
Definition CONTENT_LABEL : str := [10; 20869; 23481; 65306]%N.

End Text.
Import Text.

(** ** [trim_whitespace], [contains_cjk], [should_use_openrouter],
       [local_summary] *)

(** [re.sub(r"\s+", " ", text or "").strip()] on a string. *)
Definition trim_whitespace (text : str) : str := strip (collapse_ws text).

(** The character class of [CJK_RE]: U+4E00 to U+9FFF. *)
Definition is_cjk (c : N) : bool := ((19968 <=? c) && (c <=? 40959))%N.

Definition contains_cjk (text : str) : bool := existsb is_cjk text.

(** The class of the six sentence terminators of [local_summary]. *)
Definition is_terminator (c : N) : bool :=
  ((c =? 12290) || (c =? 65281) || (c =? 65311) || (c =? 33) || (c =? 63)
   || (c =? 46))%N.

(** Truth value of an optional string ([None] and the empty string are
    false). *)
Definition opt_truthy (t : option str) : bool :=
  match t with
  | Some s => PyStr.truthy s
  | None => false
  end.

Definition opt_str (t : option str) : str :=
  match t with
  | Some s => s
  | None => []
  end.

Definition local_summary (text : str) (title : option str) (max_chars : Z)
  : str :=
  let clean := strip text in
  if negb (PyStr.truthy clean) then
    if opt_truthy title then LABEL ++ strip (opt_str title) else NO_SUMMARY
  else
    let candidate :=
      match search_end is_terminator clean with
      | Some e => firstn e clean
      | None => clean
      end in
    let candidate :=
      if max_chars <? Z.of_nat (length candidate)
      then rstrip (slice_to candidate (max_chars - 1)) ++ ELLIPSIS
      else candidate in
    if opt_truthy title && bool_decide (candidate = clean)
    then LABEL ++ strip (opt_str title) ++ DASH ++ candidate
    else LABEL ++ candidate.

(** The text that [should_use_openrouter] examines. *)
Definition combined_text (entry : NewsEntry) : str :=
  strip (title entry ++ [32%N] ++ description entry).

Definition should_use_openrouter (OPENROUTER_FORCE : bool)
    (entry : NewsEntry) : bool :=
  if OPENROUTER_FORCE then true
  else
    let text := combined_text entry in
    if negb (PyStr.truthy text) then true
    else negb (contains_cjk text).

(** ** The rate-limited client: [call_openrouter] *)

Module OpenRouter.

Definition OPENROUTER_MAX_CALLS_PER_MIN : Q := 12.
Definition OPENROUTER_MIN_INTERVAL : Q := 60 / OPENROUTER_MAX_CALLS_PER_MIN.
Definition OPENROUTER_MAX_RETRIES : nat := 5.
Definition OPENROUTER_BACKOFF_BASE : Q := 3.

(** What one call of [REQUEST_SESSION.post] does, as seen by its caller: it
    raises a [requests.RequestException] (time-out, connection error), or it
    returns a response with a status code and a body; [body] is the value of
    [resp.json()], [None] when the body is not JSON ([resp.json()] then
    raises [requests.JSONDecodeError], a [RequestException]). The session
    of lines 95 to 113 mounts an adapter with
    [Retry(total=3, status_forcelist=(429, 500, 502, 503, 504),
    allowed_methods=("GET", "POST"), raise_on_status=False)]: inside one
    call of [post] the library may send the HTTP request again, up to three
    more times, before the call returns or raises. That happens in the
    library and is not modelled: a call of [post] is taken as a whole, with
    the outcome its caller sees and the time it took. *)
Inductive post_outcome : Type :=
| PostRaises
| PostReturns (status_code : Z) (body : option json).

(** One scripted call of [post]: how long the call takes, the library's own
    re-sending included, and how it ends. *)
Record post_reply : Type := mkReply {
  duration : Q;
  outcome : post_outcome
}.

(** The record of one call of [post] in the trace kept for the proofs: the
    clock when [post] was entered and when it returned or raised. One record
    stands for one call, not for one HTTP request on the wire. *)
Record post_record : Type := mkPost {
  p_start : Q;
  p_end : Q;
  p_raised : bool
}.

(** The state the client runs in. [clock] is what [monotonic()] returns,
    [last_openrouter_call] is the global [_last_openrouter_call]. [posts]
    (most recent first), [draws] and [invocations] are ghost counters: the
    calls of [post] made, the random numbers drawn, the calls of
    [call_openrouter]. *)
Record World : Type := mkWorld {
  clock : Q;
  last_openrouter_call : Q;
  posts : list post_record;
  draws : nat;
  invocations : nat
}.

(** The state at process start: [_last_openrouter_call = 0.0]. *)
Definition initial_world (t0 : Q) : World :=
  {| clock := t0; last_openrouter_call := 0; posts := []; draws := 0%nat;
     invocations := 0%nat |}.

Definition Qltb (x y : Q) : bool := negb (Qle_bool y x).

Definition sleep (t : Q) (w : World) : World :=
  {| clock := clock w + t;
     last_openrouter_call := last_openrouter_call w;
     posts := posts w; draws := draws w; invocations := invocations w |}.

(** Lines 473 to 477: wait until the minimum interval since the recorded
    time stamp has passed. *)
Definition pace (w : World) : World :=
  let elapsed := (clock w - last_openrouter_call w)%Q in
  if Qltb elapsed OPENROUTER_MIN_INTERVAL
  then sleep (OPENROUTER_MIN_INTERVAL - elapsed) w
  else w.

(** [resp.raise_for_status()] raises for the codes 400 to 599. *)
Definition raises_for_status (status_code : Z) : bool :=
  (400 <=? status_code) && (status_code <? 600).

(** [data["choices"][0]["message"]["content"]] *)
Definition content_of (data : json) : result json :=
  choices <- getitem data (lit "choices") ;;
  first <- getitem0 choices ;;
  message <- getitem first (lit "message") ;;
  getitem message (lit "content").

Section Client.

(** The environment: the reply to the [n]-th call of [post] of the run and
    the [n]-th value of [random.uniform(0, 1)]. *)
Variable network : nat -> post_reply.
Variable uniform01 : nat -> Q.

(** [os.getenv("OPENROUTER_KEY")] *)
Variable OPENROUTER_KEY : option str.

(** [backoff = BASE * 2**attempt + random.uniform(0, 1); sleep(backoff)] *)
Definition backoff_sleep (attempt : nat) (w : World) : World :=
  let backoff :=
    (OPENROUTER_BACKOFF_BASE * inject_Z (2 ^ Z.of_nat attempt)
     + uniform01 (draws w))%Q in
  let w' := sleep backoff w in
  {| clock := clock w';
     last_openrouter_call := last_openrouter_call w';
     posts := posts w'; draws := S (draws w');
     invocations := invocations w' |}.

(** Line 481, one call of [REQUEST_SESSION.post]: the clock moves by the
    duration of the call and one record is added to the trace; the time
    stamp is assigned on the line after [post], so only when [post]
    returned. *)
Definition do_post (w : World) : post_outcome * World :=
  let r := network (length (posts w)) in
  let t1 := (clock w + duration r)%Q in
  match outcome r with
  | PostRaises =>
      (PostRaises,
       {| clock := t1;
          last_openrouter_call := last_openrouter_call w;
          posts := mkPost (clock w) t1 true :: posts w;
          draws := draws w; invocations := invocations w |})
  | PostReturns status_code body =>
      (PostReturns status_code body,
       {| clock := t1;
          last_openrouter_call := t1;
          posts := mkPost (clock w) t1 false :: posts w;
          draws := draws w; invocations := invocations w |})
  end.

(** The loop [for attempt in range(OPENROUTER_MAX_RETRIES)], with
    [remaining] iterations to go. [Ok JNull] is [return None]. *)
Fixpoint attempts (remaining attempt : nat) (w : World)
  : result json * World :=
  match remaining with
  | O => (Ok JNull, w)
  | S remaining' =>
      let (o, w1) := do_post (pace w) in
      match o with
      | PostRaises =>
          attempts remaining' (S attempt) (backoff_sleep attempt w1)
      | PostReturns status_code body =>
          if status_code =? 429 then
            attempts remaining' (S attempt) (backoff_sleep attempt w1)
          else if raises_for_status status_code then
            attempts remaining' (S attempt) (backoff_sleep attempt w1)
          else
            match body with
            | None =>
                attempts remaining' (S attempt) (backoff_sleep attempt w1)
            | Some data => (content_of data, w1)
            end
      end
  end.

Definition enter (w : World) : World :=
  {| clock := clock w;
     last_openrouter_call := last_openrouter_call w;
     posts := posts w; draws := draws w;
     invocations := S (invocations w) |}.

(** The request body carries [messages] and [temperature]; the scripted
    network does not look at them. *)
Definition call_openrouter (messages : list (str * str)) (temperature : Q)
    (w : World) : result json * World :=
  let w := enter w in
  if negb (opt_truthy OPENROUTER_KEY) then (Ok JNull, w)
  else attempts OPENROUTER_MAX_RETRIES 0 w.

End Client.

End OpenRouter.
Import OpenRouter.

(** ** The enrichment policy: [extract_json_from_text],
       [translate_and_summarize], [enrich_news] *)

Module Enrich.

(** [NewsEntry] objects are mutated in place and handed on by reference:
    an object is a location, the heap gives the fields of every object. *)
Definition loc : Type := nat.
Definition Heap : Type := loc -> NewsEntry.

Definition store (h : Heap) (l : loc) (e : NewsEntry) : Heap :=
  fun l' => if Nat.eqb l' l then e else h l'.

(** The three assignments of lines 552 to 554 (and 565 to 567). *)
Definition set_enrichment (e : NewsEntry) (translation' summary' : str)
    (kept : bool) : NewsEntry :=
  {| title := title e; link := link e; published_at := published_at e;
     source := source e; description := description e;
     translation := Some translation'; summary := Some summary';
     kept_original := kept |}.

Section Policy.

Variable network : nat -> post_reply.
Variable uniform01 : nat -> Q.
Variable OPENROUTER_KEY : option str.
Variable OPENROUTER_FORCE : bool.
Variable MAX_PROMPT_CHARS : Z.

(** [json.loads] on a string: [None] for [json.JSONDecodeError]. *)
Variable json_loads : str -> option json.

(** [BeautifulSoup(text, "html.parser").get_text(separator=" ",
    strip=True)] and [html.unescape]. *)
Variable bs_get_text : str -> str.
Variable unescape : str -> str.

(** The text of the prompt around [topic_label] and [text_block]
    ([textwrap.dedent] of the template). *)
Variable prompt_template : str -> str -> str.

Definition strip_html (text : str) : str :=
  if negb (PyStr.truthy text) then []
  else trim_whitespace (unescape (bs_get_text text)).

(** [text[start : end + 1]] *)
Definition snippet (text : str) (start end_ : nat) : str :=
  firstn (S end_ - start) (skipn start text).

(** [extract_json_from_text]. The argument is whatever [call_openrouter]
    returned; [json.loads] raises [TypeError] on a value that is not a
    string. The result is whatever [json.loads] returns, [JNull] for
    [None]. *)
Definition extract_json_from_text (text : json) : result json :=
  if negb (Json.truthy text) then Ok JNull
  else
    match text with
    | JStr s =>
        match json_loads s with
        | Some v => Ok v
        | None =>
            match find 123%N s, rfind 125%N s with
            | Some start, Some end_ =>
                if (start <? end_)%nat then
                  match json_loads (snippet s start end_) with
                  | Some v => Ok v
                  | None => Ok JNull
                  end
                else Ok JNull
            | _, _ => Ok JNull
            end
        end
    | _ => Raise TypeError
    end.

(** [trim_whitespace] on a field of the decoded reply: [text or ""], then
    [re.sub], which raises [TypeError] on a value that is not a string. *)
Definition trim_whitespace_value (v : json) : result str :=
  if negb (Json.truthy v) then Ok []
  else
    match v with
    | JStr s => Ok (trim_whitespace s)
    | _ => Raise TypeError
    end.

(** Lines 538 to 544: the translation and the summary read from the
    response, [None] where the source leaves the variable at [None]. *)
Definition read_response (response : json)
  : result (option str * option str) :=
  if Json.truthy response then
    data <- extract_json_from_text response ;;
    if Json.truthy data then
      t <- get_or_empty data (lit "translation") ;;
      translation <- trim_whitespace_value t ;;
      s <- get_or_empty data (lit "summary") ;;
      summary <- trim_whitespace_value s ;;
      Ok (Some translation, Some summary)
    else Ok (None, None)
  else Ok (None, None).

(** Lines 518 to 535: the prompt. *)
Definition prompt_of (entry : NewsEntry) (topic_label : str) : str :=
  let body := or_else (description entry) NO_DESCRIPTION in
  let body :=
    if (0 <? MAX_PROMPT_CHARS)
       && (MAX_PROMPT_CHARS <? Z.of_nat (length body))
    then slice_to body MAX_PROMPT_CHARS ++ PROMPT_ELLIPSIS
    else body in
  let text_block := TITLE_LABEL ++ title entry ++ CONTENT_LABEL ++ body in
  strip (prompt_template topic_label text_block).

(** [translate_and_summarize] on the object at [entry]. The object is
    written only by the last three assignments, so an exception leaves
    the heap as it was. *)
Definition translate_and_summarize (entry : loc) (topic_label : str)
    (h : Heap) (w : World) : result loc * Heap * World :=
  let e := h entry in
  let prompt := prompt_of e topic_label in
  let (r, w1) :=
    call_openrouter network uniform01 OPENROUTER_KEY
      [(lit "user", prompt)] (2 # 10) w in
  match (response <- r ;; read_response response) with
  | Raise x => (Raise x, h, w1)
  | Ok (translation0, summary0) =>
      let translation1 :=
        if opt_truthy translation0
        then Some (strip_html (opt_str translation0))
        else translation0 in
      let translation_used := opt_truthy translation1 in
      let translation2 :=
        if opt_truthy translation1 then opt_str translation1
        else or_else (description e) (title e) in
      let summary1 :=
        if opt_truthy summary0 then opt_str summary0
        else SUMMARY_PLACEHOLDER in
      (Ok entry,
       store h entry
         (set_enrichment e translation2 summary1 (negb translation_used)),
       w1)
  end.

(** The body of the loop of [enrich_news] on one entry. *)
Definition enrich_entry (entry : loc) (topic_label : str)
    (h : Heap) (w : World) : result loc * Heap * World :=
  if should_use_openrouter OPENROUTER_FORCE (h entry) then
    translate_and_summarize entry topic_label h w
  else
    let e := h entry in
    let fallback_text := or_else (description e) (title e) in
    (Ok entry,
     store h entry
       (set_enrichment e fallback_text
          (local_summary fallback_text (Some (title e)) 200) true),
     w).

(** The loop of [enrich_news], [enriched] being the list built so far. *)
Fixpoint enrich_loop (entries : list loc) (topic_label : str)
    (enriched : list loc) (h : Heap) (w : World)
  : result (list loc) * Heap * World :=
  match entries with
  | [] => (Ok enriched, h, w)
  | entry :: rest =>
      match enrich_entry entry topic_label h w with
      | (Ok l, h', w') =>
          enrich_loop rest topic_label (enriched ++ [l]) h' w'
      | (Raise x, h', w') => (Raise x, h', w')
      end
  end.

Definition enrich_news (entries : list loc) (topic_label : str)
    (h : Heap) (w : World) : result (list loc) * Heap * World :=
  enrich_loop entries topic_label [] h w.

End Policy.

End Enrich.
Import Enrich.

(** ** [load_env_file] *)

Module EnvFile.

Definition SENSITIVE_ENV_KEYS : gset str :=
  {[ lit "SERVERCHAN_KEY"; lit "OPENROUTER_KEY";
     lit "GOOGLE_SERVICE_ACCOUNT_JSON"; lit "GOOGLE_CALENDAR_ID" ]}.

(** [os.environ[key] = value]: [putenv] raises [ValueError] on an embedded
    NUL character. *)
Definition setenv (key value : str) (environ : gmap str str)
  : result (gmap str str) :=
  if existsb (N.eqb 0) key || existsb (N.eqb 0) value then Raise ValueError
  else Ok (<[ key := value ]> environ).

(** [line.split("=", 1)] for a line that contains ["="], [None] for a line
    that does not. *)
Definition split_eq (line : str) : option (str * str) :=
  match find 61%N line with
  | Some i => Some (firstn i line, skipn (S i) line)
  | None => None
  end.

(** [line.startswith("#")] *)
Definition is_comment (line : str) : bool :=
  match line with
  | c :: _ => (c =? 35)%N
  | [] => false
  end.

(** The body of the loop over the lines of the file. *)
Definition load_env_line (raw_line : str) (environ : gmap str str)
  : result (gmap str str) :=
  let line := strip raw_line in
  if negb (PyStr.truthy line) || is_comment line then Ok environ
  else
    match split_eq line with
    | None => Ok environ
    | Some (key, value) =>
        let key := strip key in
        if negb (PyStr.truthy key)
           || bool_decide (is_Some (environ !! key))
           || bool_decide (key ∈ SENSITIVE_ENV_KEYS)
        then Ok environ
        else
          let value := strip_char 39%N (strip_char 34%N (strip value)) in
          setenv key value environ
    end.

(** The loop; an exception ends it with the environment as it then is. *)
Fixpoint load_env_lines (lines : list str) (environ : gmap str str)
  : result unit * gmap str str :=
  match lines with
  | [] => (Ok tt, environ)
  | raw_line :: rest =>
      match load_env_line raw_line environ with
      | Ok environ' => load_env_lines rest environ'
      | Raise x => (Raise x, environ)
      end
  end.

Section Files.

(** [os.path.expanduser], and the lines of a file: [None] when the path
    does not exist or the file cannot be opened ([OSError], logged). *)
Variable expanduser : str -> str.
Variable read_lines : str -> option (list str).

Definition load_env_file (path : option str) (environ : gmap str str)
  : result unit * gmap str str :=
  if negb (opt_truthy path) then (Ok tt, environ)
  else
    match read_lines (expanduser (opt_str path)) with
    | None => (Ok tt, environ)
    | Some lines => load_env_lines lines environ
    end.

End Files.

End EnvFile.
Import EnvFile.


(** ** [load_news_sources] and the feeds of a category *)

Module Sources.

Record NewsSource : Type := mkNewsSource {
  category : str;
  label : str;
  url : str
}.

(** What reading [NEWS_SOURCES_FILE] gives: the file is missing, it is
    not JSON, or it holds a list of objects with string values (the
    declared type [List[Dict[str, str]]]). *)
Inductive sources_file : Type :=
| FileNotFound
| NotJson
| Loaded (raw_sources : list (gmap str str)).

(** The body of the loop over [raw_sources]:
    [grouped.setdefault(category, []).append(NewsSource(...))], for an item
    that has a category and a URL. *)
Definition add_source (grouped : gmap str (list NewsSource))
    (item : gmap str str) : gmap str (list NewsSource) :=
  match item !! lit "category", item !! lit "url" with
  | Some c, Some u =>
      if PyStr.truthy c && PyStr.truthy u then
        <[ c := default [] (grouped !! c)
                ++ [mkNewsSource c (default u (item !! lit "label")) u] ]>
          grouped
      else grouped
  | _, _ => grouped
  end.

Section Load.

(** The built-in list [DEFAULT_NEWS_SOURCES]. *)
Variable DEFAULT_NEWS_SOURCES : list (gmap str str).

Definition load_news_sources (file : sources_file)
  : gmap str (list NewsSource) :=
  let raw_sources :=
    match file with
    | Loaded raw => raw
    | FileNotFound | NotJson => DEFAULT_NEWS_SOURCES
    end in
  fold_left add_source raw_sources ∅.

End Load.

(** [[src.url for src in sources.get(category, [])]] of
    [build_push_payloads]. *)
Definition feeds_of (sources : gmap str (list NewsSource)) (c : str)
  : list str :=
  map url (default [] (sources !! c)).

End Sources.

(** ** [format_news_section] *)

Module Render.

Definition HEADING : str := [35; 35; 32]%N.
Definition NOTHING_NEW : str :=
  [26242; 26080; 26368; 26032; 20869; 23481; 65292; 31245; 21518; 20877;
   26469; 30475; 30475; 12290]%N.
Definition TIME_UNKNOWN : str := [26102; 38388; 26410; 30693]%N.
Definition SOURCE_UNKNOWN : str := [26469; 28304; 26410; 30693]%N.
Definition SEP : str := [32; 183; 32]%N.
Definition SUMMARY_LINE : str := [32; 32; 32; 45; 32; 25688; 35201; 65306]%N.
Definition NO_SUMMARY_YET : str := [26242; 26080]%N.
Definition TRANSLATION_LINE : str :=
  [32; 32; 32; 45; 32; 35793; 25991; 65306]%N.
Definition ORIGINAL_LINE : str :=
  [32; 32; 32; 45; 32; 21407; 25991; 65306]%N.
Definition ORIGINAL_MISSING : str := [21407; 25991; 32570; 22833]%N.

(** [str(n)] for a natural number: its decimal digits. *)
Fixpoint digits (fuel n : nat) (acc : str) : str :=
  match fuel with
  | O => acc
  | S fuel' =>
      let acc' := (48 + N.of_nat (n mod 10))%N :: acc in
      if (n / 10 =? 0)%nat then acc' else digits fuel' (n / 10) acc'
  end.

Definition decimal (n : nat) : str := digits (S n) n [].

(** ["\n".join(lines)] *)
Fixpoint join_lines (lines : list str) : str :=
  match lines with
  | [] => []
  | [l] => l
  | l :: rest => l ++ 10%N :: join_lines rest
  end.

Section Format.

(** [dt.strftime("%m/%d %H:%M")] *)
Variable strftime : N -> str.

(** Whether the section shows a translation line: the translation is not
    blank and differs, stripped, from the stripped description. *)
Definition shows_translation (entry : NewsEntry) : bool :=
  opt_truthy (translation entry)
  && PyStr.truthy (strip (opt_str (translation entry)))
  && negb (bool_decide (strip (opt_str (translation entry))
                        = strip (description entry))).

(** The lines of one entry (the body of the loop, [idx] from 1). *)
Definition entry_lines (idx : nat) (entry : NewsEntry) : list str :=
  let time_str :=
    match published_at entry with
    | Some t => strftime t
    | None => TIME_UNKNOWN
    end in
  let source_text :=
    if opt_truthy (source entry) then opt_str (source entry)
    else SOURCE_UNKNOWN in
  [decimal idx ++ lit ". [" ++ title entry ++ lit "](" ++ link entry
   ++ lit ")" ++ SEP ++ source_text ++ SEP ++ time_str;
   SUMMARY_LINE
   ++ (if opt_truthy (summary entry) then opt_str (summary entry)
       else NO_SUMMARY_YET)]
  ++ (if shows_translation entry then
        [TRANSLATION_LINE ++ opt_str (translation entry);
         ORIGINAL_LINE ++ or_else (description entry) ORIGINAL_MISSING]
      else
        [ORIGINAL_LINE
         ++ or_else (description entry)
              (if opt_truthy (translation entry)
               then opt_str (translation entry) else ORIGINAL_MISSING)]).

(** [enumerate(entries, start=idx)] through the loop. *)
Fixpoint entries_lines (idx : nat) (entries : list NewsEntry) : list str :=
  match entries with
  | [] => []
  | entry :: rest => entry_lines idx entry ++ entries_lines (S idx) rest
  end.

Definition format_news_section (section_title : str)
    (entries : list NewsEntry) : str :=
  let lines := [HEADING ++ section_title] in
  match entries with
  | [] => join_lines (lines ++ [NOTHING_NEW]) ++ [10%N]
  | _ => join_lines (lines ++ entries_lines 1 entries ++ [[]])
  end.

End Format.

End Render.

(** ** [send_serverchan] and the delivery loop of [main] *)

Module Delivery.

(** Why a delivery failed: no key ([RuntimeError], raised before anything
    is sent), or an exception of the request, of the status check or of
    reading the reply. *)
Inductive send_error : Type :=
| NoKey
| RequestFailed.

Section Send.

(** [os.getenv("SERVERCHAN_KEY")], and whether the [n]-th call of
    [REQUEST_SESSION.post] of the run goes through. *)
Variable SERVERCHAN_KEY : option str.
Variable accepts : nat -> bool.

(** [send_serverchan]; [posted] lists the calls of [post] made so far,
    oldest first. *)
Definition send_serverchan (push_title body : str)
    (posted : list (str * str)) : option send_error * list (str * str) :=
  if negb (opt_truthy SERVERCHAN_KEY) then (Some NoKey, posted)
  else
    let posted' := posted ++ [(push_title, body)] in
    if accepts (length posted) then (None, posted')
    else (Some RequestFailed, posted').

(** The loop of [main] over the payloads: a blank body is skipped, an
    exception of [send_serverchan] is logged and the loop goes on. *)
Fixpoint deliver (payloads : list (str * str)) (posted : list (str * str))
  : list (str * str) :=
  match payloads with
  | [] => posted
  | (push_title, body) :: rest =>
      if negb (PyStr.truthy (strip body)) then deliver rest posted
      else deliver rest (snd (send_serverchan push_title body posted))
  end.

End Send.

End Delivery.

(** ** The news of one category in [build_push_payloads] *)

Module Pipeline.



Section Category.

Variable read_feed : str -> option (list Feed.FeedItem).
Variable now : Z.
Variable network : nat -> post_reply.
Variable uniform01 : nat -> Q.
Variable OPENROUTER_KEY : option str.
Variable OPENROUTER_FORCE : bool.
Variable MAX_PROMPT_CHARS : Z.
Variable json_loads : str -> option json.
Variable bs_get_text unescape : str -> str.
Variable prompt_template : str -> str -> str.


End Category.

End Pipeline.
(** ** Definitions used to state the properties *)

Module FeedSpec.
Import Feed.

(** Whether some entry before position [i] of [l] has the [(title, link)]
    pair of the entry at position [i]. *)
Definition occurs_earlier (l : list NewsEntry) (i : nat) : bool :=
  match nth_error l i with
  | Some e =>
      existsb (fun e' => bool_decide (dedup_key e' = dedup_key e))
              (firstn i l)
  | None => false
  end.

(** The entries of [l] that no entry with the same pair precedes, in the
    order of [l]. *)
Definition first_occurrences (l : list NewsEntry) : list NewsEntry :=
  map snd
      (List.filter (fun p => negb (occurs_earlier l (fst p)))
              (combine (seq 0 (length l)) l)).

(** De-duplication in input order: an entry is dropped exactly when an entry
    with the same pair occurs earlier in the input, so the entries kept are
    the first occurrences of the input. *)
Definition keeps_first_of_input (entries : list NewsEntry) (max_items : Z)
  : Prop :=
  Permutation (dedup_entries entries max_items) (first_occurrences entries).

(** The number of entries the loop can return: the test against
    [max_items] comes after the [append]. *)
Definition cap (max_items : Z) : nat := Z.to_nat (Z.max 1 max_items).

(** Most recent first. *)
Definition recency_sorted (l : list NewsEntry) : Prop :=
  StronglySorted (fun a b => (sort_key b <= sort_key a)%N) l.

(** The entries the loop keeps from [l] when it never breaks, given the
    pairs seen before. *)
Fixpoint keep_new (seen : gset (str * str)) (l : list NewsEntry)
  : list NewsEntry :=
  match l with
  | [] => []
  | e :: r =>
      if decide (dedup_key e ∈ seen) then keep_new seen r
      else e :: keep_new (seen ∪ {[ dedup_key e ]}) r
  end.

Definition keys_of (l : list NewsEntry) : gset (str * str) :=
  list_to_set (map dedup_key l).

End FeedSpec.

(** Concrete inputs used in the examples below. *)
Module Samples.
Import Feed.

Definition item (t l : String.string) (p : option N) : FeedItem :=
  {| fi_published := p; fi_title := lit t; fi_link := lit l;
     fi_description := []; fi_source := [] |}.

(** The same story, seen first with an older and then with a newer time
    stamp. *)
Definition older : FeedItem := item "X" "https://a" (Some 1%N).
Definition newer : FeedItem := item "X" "https://a" (Some 2%N).
(** The same title under another link. *)
Definition mirror : FeedItem := item "X" "https://b" None.

(** One feed that serves the given items. *)
Definition serve (items : list FeedItem) : str -> option (list FeedItem) :=
  fun _ => Some items.

Definition one_url : list str := [lit "https://feed"].

End Samples.

Module ClientSpec.

(** The requests of a trace (most recent first) are paced when each one
    starts at least the minimum interval after the one before it ended. *)
Fixpoint paced (trace : list post_record) : Prop :=
  match trace with
  | later :: rest =>
      match rest with
      | earlier :: _ =>
          (OPENROUTER_MIN_INTERVAL <= p_start later - p_end earlier)%Q
      | [] => True
      end /\ paced rest
  | [] => True
  end.

(** The time stamp is the end of the most recent request. *)
Definition stamped (w : World) : Prop :=
  match posts w with
  | p :: _ => last_openrouter_call w = p_end p
  | [] => True
  end.

(** Every request of the run gets a response (of whatever status). *)
Definition always_responds (network : nat -> post_reply) : Prop :=
  forall n, outcome (network n) <> PostRaises.

(** A request that does not come back with a usable body is retried. *)
Definition fails (o : post_outcome) : bool :=
  match o with
  | PostRaises => true
  | PostReturns status_code body =>
      (status_code =? 429) || raises_for_status status_code
      || match body with None => true | Some _ => false end
  end.

(** The client is unavailable: no key is configured, or every request of
    the run fails. *)
Definition client_unavailable (network : nat -> post_reply)
    (key : option str) : Prop :=
  opt_truthy key = false \/ forall n, fails (outcome (network n)) = true.

(** A reply of status 200 whose message content is [content]. *)
Definition completion (content : json) : json :=
  JObj [(lit "choices",
         JArr [JObj [(lit "message", JObj [(lit "content", content)])]])].

Definition answers (t : Q) (content : json) : post_reply :=
  {| duration := t; outcome := PostReturns 200 (Some (completion content)) |}.

(** The first request raises a [RequestException] a tenth of a second
    after it was sent, the later ones are answered. *)
Definition broken_once (n : nat) : post_reply :=
  match n with
  | O => {| duration := 1 # 10; outcome := PostRaises |}
  | _ => answers (1 # 2) (JStr (lit "{}"))
  end.

(** A reply of status 200 that carries an error report and no [choices]. *)
Definition error_report (n : nat) : post_reply :=
  {| duration := 1 # 2;
     outcome := PostReturns 200
                  (Some (JObj [(lit "error", JStr (lit "overloaded"))])) |}.

(** Every request times out after sixty seconds. *)
Definition always_times_out (n : nat) : post_reply :=
  {| duration := 60; outcome := PostRaises |}.

(** The service throttles every request. *)
Definition always_429 (n : nat) : post_reply :=
  {| duration := 1 # 5; outcome := PostReturns 429 None |}.

Definition half (n : nat) : Q := 1 # 2.

Definition some_key : option str := Some (lit "sk-test").

End ClientSpec.

Module SummarySpec.

(** The first sentence of a cleaned body: up to and including the first
    terminator, the whole body when there is none. *)
Definition first_sentence (clean : str) : str :=
  match search_end is_terminator clean with
  | Some e => firstn e clean
  | None => clean
  end.

(** A candidate longer than [max_chars] is cut and gets an ellipsis. *)
Definition truncate (max_chars : Z) (candidate : str) : str :=
  if max_chars <? Z.of_nat (length candidate)
  then rstrip (slice_to candidate (max_chars - 1)) ++ ELLIPSIS
  else candidate.

(** The title rule in the words of the specification: the title goes before
    the candidate exactly when no terminator is found in the body; with a
    terminator the result is the label and the first sentence, without the
    title. *)
Definition title_rule_as_stated (text title : str) (max_chars : Z) : Prop :=
  let clean := strip text in
  match search_end is_terminator clean with
  | None =>
      local_summary text (Some title) max_chars
      = LABEL ++ strip title ++ DASH ++ truncate max_chars clean
  | Some _ =>
      local_summary text (Some title) max_chars
      = LABEL ++ truncate max_chars (first_sentence clean)
  end.

(** The candidate is the whole cleaned body: the body fits into
    [max_chars], and it has no terminator or its first terminator is its
    last character. *)
Definition whole_body_is_candidate (clean : str) (max_chars : Z) : bool :=
  (Z.of_nat (length clean) <=? max_chars)
  && match search_end is_terminator clean with
     | None => true
     | Some e => (e =? length clean)%nat
     end.

End SummarySpec.

Module EnrichSpec.

(** The decision rule of the enrichment policy. *)
Definition policy_calls_client (OPENROUTER_FORCE : bool) (e : NewsEntry)
  : Prop :=
  OPENROUTER_FORCE = true
  \/ combined_text e = []
  \/ (forall c, In c (combined_text e) -> is_cjk c = false).

(** The fields that enrichment does not touch. *)
Definition same_source_fields (a b : NewsEntry) : Prop :=
  title a = title b /\ link a = link b /\ published_at a = published_at b
  /\ source a = source b /\ description a = description b.

(** What the local path writes into an entry. *)
Definition local_enrichment (e : NewsEntry) : NewsEntry :=
  let fallback_text := or_else (description e) (title e) in
  set_enrichment e fallback_text
    (local_summary fallback_text (Some (title e)) 200) true.

(** What [translate_and_summarize] writes when nothing usable came back. *)
Definition kept_original_enrichment (e : NewsEntry) : NewsEntry :=
  set_enrichment e (or_else (description e) (title e)) SUMMARY_PLACEHOLDER
    true.

(** The object at [l] carries a translation and a summary. *)
Definition enriched_at (h : Heap) (l : loc) : Prop :=
  translation (h l) <> None /\ summary (h l) <> None.

End EnrichSpec.

Module EnrichSamples.
Import ClientSpec.

(** A [json.loads] that knows the texts of the examples. *)
Definition loads_table (s : str) : option json :=
  if decide (s = lit "[1]") then Some (JArr [JNum 1]) else None.

Definition an_entry : NewsEntry :=
  {| title := lit "Robot update"; link := lit "https://a";
     published_at := Some 5%N; source := None;
     description := lit "A new arm. It lifts."; translation := None;
     summary := None; kept_original := true |}.

Definition a_heap : Heap := fun _ => an_entry.

(** The model replies with a JSON array instead of the object asked for. *)
Definition replies_array (n : nat) : post_reply :=
  answers (1 # 2) (JStr (lit "[1]")).

Definition identity (s : str) : str := s.
Definition no_template (topic_label text_block : str) : str := text_block.

End EnrichSamples.

Module EnvSamples.

Definition env_lines : list str :=
  [lit "# settings"; lit "OPENROUTER_KEY=from-file"; lit "CITY = 'Xiamen' ";
   lit "HOME=/tmp"].

Definition an_environ : gmap str str := <[ lit "HOME" := lit "/root" ]> ∅.

Definition same_path (p : str) : str := p.
Definition one_file (p : str) : option (list str) := Some env_lines.

End EnvSamples.

Module ClientBounds.

(** The back-off base of attempt [attempt]: [BASE * 2**attempt]. *)
Definition backoff_base (attempt : nat) : Q :=
  (OPENROUTER_BACKOFF_BASE * inject_Z (2 ^ Z.of_nat attempt))%Q.

(** The sum of the back-off bases of [remaining] attempts from [attempt]
    on. *)
Fixpoint backoff_total (remaining attempt : nat) : Q :=
  match remaining with
  | O => 0
  | S n => (backoff_base attempt + backoff_total n (S attempt))%Q
  end.

(** The longest [remaining] attempts from [attempt] on can take when a
    request lasts at most [limit] seconds: per attempt the pacing wait, the
    request, the back-off and its jitter. *)
Fixpoint worst_time (limit : Q) (remaining attempt : nat) : Q :=
  match remaining with
  | O => 0
  | S n =>
      (OPENROUTER_MIN_INTERVAL + limit + (backoff_base attempt + 1)
       + worst_time limit n (S attempt))%Q
  end.

(** A short time-out reply. *)
Definition quick_timeout (n : nat) : post_reply :=
  {| duration := 2; outcome := PostRaises |}.

End ClientBounds.

Module EnrichBounds.

(** What every enriched entry looks like: it has a summary that is not
    empty; its translation is empty only when description and title are;
    it is the entry's own text when [kept_original] is set and a text from
    the service, not empty, when it is not. *)
Definition well_enriched (e : NewsEntry) : Prop :=
  exists t s,
    translation e = Some t /\ summary e = Some s /\ s <> []
    /\ (t = [] -> description e = [] /\ title e = [])
    /\ (kept_original e = true -> t = or_else (description e) (title e))
    /\ (kept_original e = false -> t <> []).

(** The number of entries of a list that the decision rule sends to the
    client. *)
Definition policy_count (force : bool) (h : Heap) (entries : list loc)
  : nat :=
  length (List.filter (fun l => should_use_openrouter force (h l)) entries).

(** A reply with a translation and a summary. *)
Definition good_reply (n : nat) : post_reply :=
  ClientSpec.answers (1 # 2) (JStr (lit "{ok}")).

Definition loads_good (s : str) : option json :=
  if decide (s = lit "{ok}")
  then Some (JObj [(lit "translation", JStr (lit " Ein  Arm "));
                   (lit "summary", JStr (lit "Kurz."))])
  else None.

End EnrichBounds.

Module FeedSamples.
Import Feed Samples.

(** A feed that cannot be read beside one that can. *)
Definition one_down (url : str) : option (list FeedItem) :=
  if decide (url = lit "https://down") then None
  else Some [older; mirror; newer].

(** An item from before the look-back window of [a_now]. *)
Definition stale : FeedItem := item "Old" "https://c" (Some 5%N).
Definition a_now : Z := 24 * 3600 * 1000000 + 100.
Definition recent : FeedItem := item "New" "https://d" (Some 200%N).
Definition undated : FeedItem := item "Undated" "https://e" None.

End FeedSamples.

Module TrimSpec.

(** Every white-space character of [s] is a space, and none is followed by
    another white-space character. *)
Fixpoint collapsed (s : str) : bool :=
  match s with
  | [] => true
  | c :: r =>
      (if isspace c
       then (c =? 32)%N
            && match r with d :: _ => negb (isspace d) | [] => true end
       else true)
      && collapsed r
  end.

(** Every white-space character of [s] is a space that is followed by a
    character that is not white space. *)
Fixpoint single_spaced (s : str) : bool :=
  match s with
  | [] => true
  | c :: r =>
      (if isspace c
       then (c =? 32)%N
            && match r with d :: _ => negb (isspace d) | [] => false end
       else true)
      && single_spaced r
  end.

(** The normal form of [trim_whitespace]: no white space at either end,
    and inside only single spaces. *)
Definition normalized (s : str) : bool :=
  match s with c :: _ => negb (isspace c) | [] => true end
  && single_spaced s.

End TrimSpec.

Module MoreSpec.
Import Sources Render Delivery Pipeline.

(** The source that an item of the file contributes to category [c], if
    any: the item must have a category and a URL that are not empty. *)
Definition source_of (c : str) (item : gmap str str) : option NewsSource :=
  match item !! lit "category", item !! lit "url" with
  | Some c', Some u =>
      if PyStr.truthy c' && PyStr.truthy u && bool_decide (c' = c)
      then Some (mkNewsSource c' (default u (item !! lit "label")) u)
      else None
  | _, _ => None
  end.

(** A payload whose body is not blank. *)
Definition nonblank (payload : str * str) : bool :=
  PyStr.truthy (strip (snd payload)).




Definition kept_entry : NewsEntry :=
  EnrichSpec.kept_original_enrichment EnrichSamples.an_entry.

Definition clock_text (t : N) : str := lit "01/01 08:00".

End MoreSpec.

(** * Properties *)

(** ** The recency sort is the stable sort of Python *)

Module FeedFacts.
Import Feed FeedSpec.

Lemma insert_by_recency_perm x l :
  Permutation (insert_by_recency x l) (x :: l).
Proof.
  induction l as [|y r IH]; simpl; [reflexivity|].
  destruct (sort_key x <? sort_key y)%N; [|reflexivity].
  rewrite IH. apply perm_swap.
Qed.

Lemma sort_by_recency_perm l : Permutation (sort_by_recency l) l.
Proof.
  induction l as [|x r IH]; simpl; [reflexivity|].
  rewrite insert_by_recency_perm. now constructor.
Qed.

Lemma insert_by_recency_sorted x l :
  recency_sorted l -> recency_sorted (insert_by_recency x l).
Proof.
  unfold recency_sorted.
  induction l as [|y r IH]; simpl; intros Hs.
  - repeat constructor.
  - destruct (sort_key x <? sort_key y)%N eqn:E.
    + inversion Hs as [|? ? Hr Hall]; subst.
      constructor; [now apply IH|].
      apply N.ltb_lt in E.
      rewrite List.Forall_forall in *. intros z Hz.
      apply (Permutation_in _ (insert_by_recency_perm x r)) in Hz.
      destruct Hz as [<-|Hz]; [lia | now apply Hall].
    + apply N.ltb_ge in E.
      constructor; [exact Hs|].
      inversion Hs as [|? ? Hr Hall]; subst.
      constructor; [exact E|].
      rewrite List.Forall_forall in *. intros z Hz.
      specialize (Hall z Hz). lia.
Qed.

Lemma sort_by_recency_sorted l : recency_sorted (sort_by_recency l).
Proof.
  induction l as [|x r IH]; simpl.
  - constructor.
  - now apply insert_by_recency_sorted.
Qed.

(** Entries with the same sort key keep their input order. *)
Lemma insert_by_recency_stable k x l :
  recency_sorted l ->
  List.filter (fun e => (sort_key e =? k)%N) (insert_by_recency x l)
  = List.filter (fun e => (sort_key e =? k)%N) (x :: l).
Proof.
  unfold recency_sorted.
  induction l as [|y r IH]; intros Hs; [reflexivity|].
  cbn [insert_by_recency].
  destruct (sort_key x <? sort_key y)%N eqn:E; [|reflexivity].
  apply N.ltb_lt in E.
  inversion Hs as [|? ? Hr Hall]; subst.
  cbn [List.filter]. rewrite (IH Hr). cbn [List.filter].
  destruct (sort_key y =? k)%N eqn:Ey, (sort_key x =? k)%N eqn:Ex;
    try reflexivity.
  apply N.eqb_eq in Ey, Ex. lia.
Qed.

Lemma sort_by_recency_stable k l :
  List.filter (fun e => (sort_key e =? k)%N) (sort_by_recency l)
  = List.filter (fun e => (sort_key e =? k)%N) l.
Proof.
  induction l as [|x r IH]; [reflexivity|].
  cbn [sort_by_recency].
  rewrite insert_by_recency_stable by apply sort_by_recency_sorted.
  cbn [List.filter]. now rewrite IH.
Qed.

(** ** The loop against its closed form *)

Lemma dedup_loop_keep_new max_items l : forall seen deduped,
  (length deduped < cap max_items)%nat ->
  dedup_loop max_items seen deduped l
  = deduped ++ firstn (cap max_items - length deduped) (keep_new seen l).
Proof.
  unfold cap.
  induction l as [|e r IH]; intros seen deduped Hlen; cbn [dedup_loop keep_new].
  - now rewrite firstn_nil, app_nil_r.
  - destruct (decide (dedup_key e ∈ seen)) as [Hin|Hnin].
    + now apply IH.
    + rewrite length_app. cbn [length].
      destruct (Z.of_nat (length deduped + 1) >=? max_items) eqn:E.
      * apply Z.geb_le in E.
        replace (Z.to_nat (Z.max 1 max_items) - length deduped)%nat
          with 1%nat by lia.
        reflexivity.
      * rewrite Z.geb_leb in E. apply Z.leb_gt in E.
        rewrite IH by (rewrite length_app; cbn [length]; lia).
        rewrite length_app. cbn [length].
        replace (Z.to_nat (Z.max 1 max_items) - length deduped)%nat
          with (S (Z.to_nat (Z.max 1 max_items) - (length deduped + 1)))
          by lia.
        cbn [firstn]. now rewrite <- app_assoc.
Qed.

Lemma dedup_entries_keep_new entries max_items :
  dedup_entries entries max_items
  = firstn (cap max_items) (keep_new ∅ (sort_by_recency entries)).
Proof.
  unfold dedup_entries.
  rewrite dedup_loop_keep_new by (unfold cap; cbn [length]; lia).
  cbn [length app]. now rewrite Nat.sub_0_r.
Qed.

Lemma keep_new_incl seen l e : In e (keep_new seen l) -> In e l.
Proof.
  revert seen. induction l as [|x r IH]; intros seen; cbn [keep_new];
    [tauto|].
  destruct (decide (dedup_key x ∈ seen)); cbn [In]; intros H.
  - right. eapply IH, H.
  - destruct H as [H|H]; [now left | right; eapply IH, H].
Qed.

Lemma keep_new_fresh seen l e :
  In e (keep_new seen l) -> dedup_key e ∉ seen.
Proof.
  revert seen. induction l as [|x r IH]; intros seen; cbn [keep_new];
    [intros []|].
  destruct (decide (dedup_key x ∈ seen)) as [Hin|Hnin]; cbn [In]; intros H.
  - eapply IH, H.
  - destruct H as [<-|H]; [exact Hnin|].
    apply IH in H. intros Hs. apply H. now apply elem_of_union_l.
Qed.

Lemma keep_new_nodup seen l : NoDup (map dedup_key (keep_new seen l)).
Proof.
  revert seen. induction l as [|x r IH]; intros seen; cbn [keep_new].
  - constructor.
  - destruct (decide (dedup_key x ∈ seen)); [apply IH|].
    cbn [map]. apply NoDup_cons_2; [|apply IH].
    intros Hin. apply list_elem_of_In, in_map_iff in Hin.
    destruct Hin as (e & Hk & He).
    apply keep_new_fresh in He. apply He. rewrite Hk.
    apply elem_of_union_r, elem_of_singleton. reflexivity.
Qed.

Lemma keep_new_sorted seen l :
  recency_sorted l -> recency_sorted (keep_new seen l).
Proof.
  unfold recency_sorted. revert seen.
  induction l as [|x r IH]; intros seen Hs; cbn [keep_new]; [constructor|].
  inversion Hs as [|? ? Hr Hall]; subst.
  destruct (decide (dedup_key x ∈ seen)); [now apply IH|].
  constructor; [now apply IH|].
  rewrite List.Forall_forall in *. intros z Hz.
  apply Hall. eapply keep_new_incl, Hz.
Qed.

(** The entry kept for a pair is the first of the sorted list with that
    pair, so none with that pair is more recent. *)
Lemma keep_new_most_recent seen l e e' :
  recency_sorted l ->
  In e (keep_new seen l) -> In e' l -> dedup_key e' = dedup_key e ->
  (sort_key e' <= sort_key e)%N.
Proof.
  unfold recency_sorted. revert seen.
  induction l as [|x r IH]; intros seen Hs; cbn [keep_new]; [intros []|].
  inversion Hs as [|? ? Hr Hall]; subst.
  rewrite List.Forall_forall in Hall.
  destruct (decide (dedup_key x ∈ seen)) as [Hin|Hnin]; cbn [In];
    intros He He' Hk.
  - destruct He' as [<-|He'].
    + apply keep_new_fresh in He. congruence.
    + now apply (IH seen).
  - destruct He as [<-|He].
    + destruct He' as [<-|He']; [lia | now apply Hall].
    + destruct He' as [<-|He'].
      * apply keep_new_fresh in He. exfalso. apply He. rewrite Hk.
        apply elem_of_union_r, elem_of_singleton. reflexivity.
      * now apply (IH (seen ∪ {[dedup_key x]})).
Qed.

Lemma firstn_incl {A} n (l : list A) x : In x (firstn n l) -> In x l.
Proof.
  revert n. induction l as [|y r IH]; intros [|n]; cbn [firstn In]; try tauto.
  intros [H|H]; [now left | right; eapply IH, H].
Qed.

Lemma firstn_sorted n l : recency_sorted l -> recency_sorted (firstn n l).
Proof.
  unfold recency_sorted. revert n.
  induction l as [|x r IH]; intros [|n] Hs; cbn [firstn]; try constructor.
  - inversion Hs; subst. now apply IH.
  - inversion Hs as [|? ? Hr Hall]; subst.
    rewrite List.Forall_forall in *. intros z Hz.
    apply Hall. eapply firstn_incl, Hz.
Qed.

Lemma firstn_nodup_keys n (l : list NewsEntry) :
  NoDup (map dedup_key l) -> NoDup (map dedup_key (firstn n l)).
Proof.
  rewrite <- firstn_map. generalize (map dedup_key l). clear l.
  intros l. revert n. induction l as [|x r IH]; intros [|n] H;
    cbn [firstn]; try constructor.
  - apply NoDup_cons_1_1 in H as Hx.
    intros Hin. apply Hx. rewrite list_elem_of_In in Hin |- *.
    eapply firstn_incl, Hin.
  - apply IH. eapply NoDup_cons_1_2, H.
Qed.

(** [keep_new] against the positional reading: an entry is kept exactly
    when no entry with its pair stands before it. *)
Lemma existsb_key_keys_of k pre :
  existsb (fun e' => bool_decide (dedup_key e' = k)) pre = true
  <-> k ∈ keys_of pre.
Proof.
  unfold keys_of. rewrite existsb_exists, elem_of_list_to_set,
    list_elem_of_In, in_map_iff.
  split; intros (e & H1 & H2).
  - exists e. split; [|exact H1]. now apply bool_decide_eq_true in H2.
  - exists e. split; [exact H2|]. now apply bool_decide_eq_true.
Qed.

Lemma occurs_earlier_middle pre e suf :
  occurs_earlier (pre ++ e :: suf) (length pre) = true
  <-> dedup_key e ∈ keys_of pre.
Proof.
  unfold occurs_earlier.
  rewrite nth_error_app2 by lia. rewrite Nat.sub_diag. cbn [nth_error].
  rewrite firstn_app, Nat.sub_diag, firstn_all. cbn [firstn].
  rewrite app_nil_r. apply existsb_key_keys_of.
Qed.

Lemma keys_of_snoc pre e :
  keys_of (pre ++ [e]) = keys_of pre ∪ {[ dedup_key e ]}.
Proof.
  unfold keys_of. rewrite map_app, list_to_set_app_L.
  cbn [map list_to_set]. now rewrite union_empty_r_L.
Qed.

Lemma keep_new_positional suf : forall pre,
  keep_new (keys_of pre) suf
  = map snd
      (List.filter (fun p => negb (occurs_earlier (pre ++ suf) (fst p)))
                   (combine (seq (length pre) (length suf)) suf)).
Proof.
  induction suf as [|e r IH]; intros pre; [reflexivity|].
  cbn [keep_new length seq combine List.filter fst].
  destruct (decide (dedup_key e ∈ keys_of pre)) as [Hin|Hnin].
  - pose proof Hin as Hocc.
    apply occurs_earlier_middle with (suf := r) in Hocc as ->.
    cbn [negb]. specialize (IH (pre ++ [e])).
    rewrite keys_of_snoc in IH.
    rewrite length_app, <- app_assoc in IH. cbn [length app] in IH.
    rewrite Nat.add_1_r in IH. rewrite <- IH.
    clear IH. revert Hin. generalize (keys_of pre) (dedup_key e).
    intros seen k Hin.
    replace (seen ∪ {[k]}) with seen; [reflexivity|].
    apply set_eq. intros y. rewrite elem_of_union, elem_of_singleton.
    split; [tauto | intros [H| ->]; assumption].
  - destruct (occurs_earlier (pre ++ e :: r) (length pre)) eqn:E.
    + apply occurs_earlier_middle in E. contradiction.
    + cbn [negb map snd]. f_equal.
      specialize (IH (pre ++ [e])).
      rewrite keys_of_snoc in IH.
      rewrite length_app, <- app_assoc in IH. cbn [length app] in IH.
      now rewrite Nat.add_1_r in IH.
Qed.

Lemma keep_new_first_occurrences l : keep_new ∅ l = first_occurrences l.
Proof.
  unfold first_occurrences.
  change l with ([] ++ l) at 2. change 0%nat with (length (@nil NewsEntry)).
  rewrite <- keep_new_positional. reflexivity.
Qed.

Lemma keep_new_covers seen l e :
  In e l ->
  dedup_key e ∈ seen
  \/ exists e', In e' (keep_new seen l) /\ dedup_key e' = dedup_key e.
Proof.
  revert seen. induction l as [|x r IH]; intros seen; cbn [In keep_new];
    [intros []|].
  destruct (decide (dedup_key x ∈ seen)) as [Hin|Hnin].
  - intros [<-|He]; [now left | now apply IH].
  - intros [<-|He].
    + right. exists x. split; [now left | reflexivity].
    + destruct (IH (seen ∪ {[dedup_key x]}) He) as [Hs|(e' & He' & Hk)].
      * apply elem_of_union in Hs as [Hs|Hs]; [now left|].
        apply elem_of_singleton in Hs.
        right. exists x. split; [now left | now symmetry].
      * right. exists e'. split; [now right | exact Hk].
Qed.

Lemma keep_new_length seen l : (length (keep_new seen l) <= length l)%nat.
Proof.
  revert seen. induction l as [|x r IH]; intros seen; cbn [keep_new length];
    [lia|].
  destruct (decide (dedup_key x ∈ seen)); cbn [length].
  - specialize (IH seen). lia.
  - specialize (IH (seen ∪ {[dedup_key x]})). lia.
Qed.

Lemma nodup_keys_inj (l : list NewsEntry) a b :
  NoDup (map dedup_key l) -> In a l -> In b l ->
  dedup_key a = dedup_key b -> a = b.
Proof.
  induction l as [|x r IH]; cbn [map In]; [tauto|].
  intros Hnd Ha Hb Hk.
  apply NoDup_cons_1_1 in Hnd as Hx. apply NoDup_cons_1_2 in Hnd as Hr.
  assert (Hmem : forall y, In y r -> dedup_key y ∈ map dedup_key r).
  { intros y Hy. apply list_elem_of_In, in_map_iff. now exists y. }
  destruct Ha as [<-|Ha], Hb as [<-|Hb]; try reflexivity.
  - exfalso. apply Hx. rewrite Hk. now apply Hmem.
  - exfalso. apply Hx. rewrite <- Hk. now apply Hmem.
  - now apply IH.
Qed.

(** What [fetch_feed_entries] returns for any input: most recent first, no
    pair twice, at most [cap max_items] entries, hence at most [max_items]
    of them for a positive [max_items]. *)
Lemma dedup_entries_invariants entries max_items :
  let out := dedup_entries entries max_items in
  recency_sorted out
  /\ NoDup (map dedup_key out)
  /\ (length out <= cap max_items)%nat
  /\ (1 <= max_items -> Z.of_nat (length out) <= max_items).
Proof.
  cbv zeta. rewrite dedup_entries_keep_new.
  assert (Hlen : (length (firstn (cap max_items)
                     (keep_new ∅ (sort_by_recency entries)))
                  <= cap max_items)%nat) by apply firstn_le_length.
  split; [|split; [|split]].
  - apply firstn_sorted, keep_new_sorted, sort_by_recency_sorted.
  - apply firstn_nodup_keys, keep_new_nodup.
  - exact Hlen.
  - intros Hpos. unfold cap in *. lia.
Qed.

(** With a cap of zero or less the loop still returns the first entry. *)
Lemma nonpositive_cap_returns_one entries max_items :
  max_items <= 0 -> entries <> [] ->
  length (dedup_entries entries max_items) = 1%nat.
Proof.
  intros Hcap Hne. rewrite dedup_entries_keep_new.
  replace (cap max_items) with 1%nat by (unfold cap; lia).
  destruct (sort_by_recency entries) as [|x r] eqn:E.
  - apply (f_equal (@length NewsEntry)) in E.
    rewrite (Permutation_length (sort_by_recency_perm entries)) in E.
    destruct entries; [contradiction | discriminate].
  - cbn [keep_new].
    destruct (decide (dedup_key x ∈ ∅)) as [Hin|_]; [|reflexivity].
    now apply not_elem_of_empty in Hin.
Qed.

(** In a list sorted by recency, nothing that follows an entry without
    time stamp is later than the base line. *)
Lemma untimestamped_last l i j a b :
  recency_sorted l -> (i < j)%nat ->
  nth_error l i = Some a -> nth_error l j = Some b ->
  published_at a = None -> sort_key b = baseline.
Proof.
  unfold recency_sorted. intros Hs. revert i j.
  induction Hs as [|x r Hr IH Hall]; intros i j Hij Hi Hj Hnone.
  - destruct i; discriminate.
  - destruct j as [|j]; [lia|]. cbn [nth_error] in Hj.
    destruct i as [|i]; cbn [nth_error] in Hi.
    + injection Hi as ->. apply nth_error_In in Hj.
      rewrite List.Forall_forall in Hall. specialize (Hall b Hj).
      unfold sort_key in Hall at 2. rewrite Hnone in Hall.
      unfold baseline in *. lia.
    + apply (IH i j); [lia | assumption..].
Qed.

End FeedFacts.

(** ** Claims on [fetch_feed_entries] *)

Module FeedClaims.
Import Feed FeedSpec FeedFacts Samples.

(** C3, as stated, fails: with the same [(title, link)] first under an older
    and then under a newer time stamp, the entry kept is the newer one, which
    stands second in the input, and the first of the input is dropped. *)
Lemma input_order_dedup_fails :
  ~ keeps_first_of_input (map entry_of_item [older; newer]) MAX_NEWS_ITEMS.
Proof.
  unfold keeps_first_of_input. vm_compute. intros H.
  apply Permutation_length_1_inv in H. discriminate H.
Qed.

(** C3, amended: for a cap of at least one, the result is the first
    [max_items] entries of the first occurrences of the list sorted by
    recency: an entry is dropped exactly when an entry with the same
    [(title, link)] stands before it in the sorted list (for equal time
    stamps, before it in the input). Every pair of the input stays
    represented when the cap does not cut, so two entries with equal title
    and different links are both kept. *)
Theorem dedup_keeps_first_in_recency_order entries max_items :
  1 <= max_items ->
  dedup_entries entries max_items
  = firstn (Z.to_nat max_items)
           (first_occurrences (sort_by_recency entries))
  /\ (Z.of_nat (length entries) <= max_items ->
      forall e1 e2, In e1 entries -> In e2 entries ->
        title e1 = title e2 -> link e1 <> link e2 ->
        exists k1 k2,
          In k1 (dedup_entries entries max_items)
          /\ In k2 (dedup_entries entries max_items)
          /\ dedup_key k1 = dedup_key e1 /\ dedup_key k2 = dedup_key e2
          /\ k1 <> k2).
Proof.
  intros Hpos. rewrite dedup_entries_keep_new.
  replace (cap max_items) with (Z.to_nat max_items) by (unfold cap; lia).
  split; [now rewrite keep_new_first_occurrences|].
  intros Hfit e1 e2 H1 H2 Ht Hl.
  rewrite firstn_all2.
  2:{ etransitivity; [apply keep_new_length|].
      rewrite (Permutation_length (sort_by_recency_perm entries)). lia. }
  assert (Hrep : forall e, In e entries ->
            exists k, In k (keep_new ∅ (sort_by_recency entries))
                      /\ dedup_key k = dedup_key e).
  { intros e He.
    apply (Permutation_in _ (Permutation_sym (sort_by_recency_perm _))) in He.
    destruct (keep_new_covers ∅ _ _ He) as [Hs|Hk]; [|exact Hk].
    now apply not_elem_of_empty in Hs. }
  destruct (Hrep e1 H1) as (k1 & Hk1 & Hkey1).
  destruct (Hrep e2 H2) as (k2 & Hk2 & Hkey2).
  exists k1, k2. repeat split; try assumption.
  intros ->. rewrite Hkey1 in Hkey2. unfold dedup_key in Hkey2.
  injection Hkey2 as _ Hlink. contradiction.
Qed.

Lemma dedup_keeps_first_in_recency_order_witness :
  dedup_entries (map entry_of_item [older; mirror; newer]) 20
  = firstn 20
      (first_occurrences
         (sort_by_recency (map entry_of_item [older; mirror; newer])))
  /\ exists k1 k2,
       In k1 (dedup_entries (map entry_of_item [older; mirror; newer]) 20)
       /\ In k2 (dedup_entries (map entry_of_item [older; mirror; newer]) 20)
       /\ dedup_key k1 = dedup_key (entry_of_item older)
       /\ dedup_key k2 = dedup_key (entry_of_item mirror)
       /\ k1 <> k2.
Proof.
  destruct (dedup_keeps_first_in_recency_order
              (map entry_of_item [older; mirror; newer]) 20 ltac:(lia))
    as [Heq Hboth].
  split; [exact Heq|].
  apply Hboth.
  - vm_compute. discriminate.
  - left. reflexivity.
  - right. left. reflexivity.
  - reflexivity.
  - vm_compute. discriminate.
Defined.

(** C4, at the failing input: with [max_items = 0] and one entry collected,
    the loop appends the entry before it tests the cap, and one entry is
    returned. *)
Theorem cap_zero_returns_one_entry :
  fetch_feed_entries (serve [older]) 0 one_url NEWS_LOOKBACK_HOURS 0
  = [entry_of_item older]
  /\ ~ (Z.of_nat (length (fetch_feed_entries (serve [older]) 0 one_url
                            NEWS_LOOKBACK_HOURS 0)) <= 0).
Proof. split; [vm_compute; reflexivity | vm_compute; intros H; apply H; reflexivity]. Qed.

(** C8: the entry kept for a [(title, link)] pair has the greatest sort key
    (time stamp, or the base line without one) among the collected entries
    with that pair, and it is the only entry of the result with that
    pair. *)
Theorem kept_entry_is_most_recent read_feed now feeds lookback_hours
    max_items e e' :
  In e (fetch_feed_entries read_feed now feeds lookback_hours max_items) ->
  In e' (collect_entries read_feed now feeds lookback_hours) ->
  dedup_key e' = dedup_key e ->
  (sort_key e' <= sort_key e)%N
  /\ (In e' (fetch_feed_entries read_feed now feeds lookback_hours max_items)
      -> e' = e).
Proof.
  unfold fetch_feed_entries.
  set (entries := collect_entries read_feed now feeds lookback_hours).
  intros He He' Hk. split.
  - rewrite dedup_entries_keep_new in He. apply firstn_incl in He.
    apply (keep_new_most_recent ∅ (sort_by_recency entries));
      [apply sort_by_recency_sorted | exact He | | exact Hk].
    apply (Permutation_in _ (Permutation_sym (sort_by_recency_perm _))).
    exact He'.
  - intros Hout.
    destruct (dedup_entries_invariants entries max_items) as (_ & Hnd & _).
    now apply (nodup_keys_inj _ _ _ Hnd).
Qed.

Lemma kept_entry_is_most_recent_witness :
  (Feed.sort_key (entry_of_item older) <= Feed.sort_key (entry_of_item newer))%N
  /\ (In (entry_of_item older)
         (fetch_feed_entries (serve [older; mirror; newer]) 0 one_url
            NEWS_LOOKBACK_HOURS MAX_NEWS_ITEMS)
      -> entry_of_item older = entry_of_item newer).
Proof.
  apply (kept_entry_is_most_recent (serve [older; mirror; newer]) 0 one_url
           NEWS_LOOKBACK_HOURS MAX_NEWS_ITEMS).
  - vm_compute. left. reflexivity.
  - vm_compute. left. reflexivity.
  - reflexivity.
Defined.

End FeedClaims.

(** ** The rate-limited client *)

Module ClientFacts.
Import ClientSpec.

Section Facts.

Variable network : nat -> post_reply.
Variable uniform01 : nat -> Q.

(** After the pacing step the minimum interval has passed since the
    recorded time stamp. *)
Lemma pace_waits w :
  (OPENROUTER_MIN_INTERVAL <= clock (pace w) - last_openrouter_call (pace w))%Q.
Proof.
  unfold pace, Qltb. destruct (Qle_bool _ _) eqn:E; cbn [negb].
  - apply Qle_bool_iff in E. exact E.
  - cbn [sleep clock last_openrouter_call]. lra.
Qed.

Lemma pace_posts w : posts (pace w) = posts w.
Proof. unfold pace. now destruct (Qltb _ _). Qed.

Lemma pace_last w : last_openrouter_call (pace w) = last_openrouter_call w.
Proof. unfold pace. now destruct (Qltb _ _). Qed.

Lemma pace_invocations w : invocations (pace w) = invocations w.
Proof. unfold pace. now destruct (Qltb _ _). Qed.

(** The time stamp is written exactly when [post] returns. *)
Lemma do_post_stamp w :
  match fst (do_post network w) with
  | PostRaises =>
      last_openrouter_call (snd (do_post network w))
      = last_openrouter_call w
  | PostReturns _ _ =>
      last_openrouter_call (snd (do_post network w))
      = clock (snd (do_post network w))
  end.
Proof. unfold do_post. now destruct (outcome _). Qed.

Lemma do_post_invocations w :
  invocations (snd (do_post network w)) = invocations w.
Proof. unfold do_post. now destruct (outcome _). Qed.

Lemma do_post_outcome w :
  fst (do_post network w) = outcome (network (length (posts w))).
Proof. unfold do_post. now destruct (outcome _). Qed.

(** One request keeps the trace paced, provided it gets a response. *)
Lemma do_post_paced w :
  always_responds network ->
  paced (posts w) -> stamped w ->
  paced (posts (snd (do_post network (pace w))))
  /\ stamped (snd (do_post network (pace w))).
Proof.
  intros Hresp Hp Hs. pose proof (pace_waits w) as Hw.
  unfold do_post. rewrite pace_posts.
  destruct (outcome (network (length (posts w)))) eqn:E;
    [now apply Hresp in E|].
  cbn [snd posts]. split; [|reflexivity].
  cbn [paced]. split; [|exact Hp].
  unfold stamped in Hs. destruct (posts w) as [|p rest]; [exact I|].
  cbn [p_start]. rewrite <- Hs, <- pace_last. exact Hw.
Qed.

Lemma backoff_sleep_posts attempt w :
  posts (backoff_sleep uniform01 attempt w) = posts w.
Proof. reflexivity. Qed.

Lemma backoff_sleep_stamped attempt w :
  stamped w -> stamped (backoff_sleep uniform01 attempt w).
Proof. unfold stamped. cbn. auto. Qed.

(** The retry loop keeps the trace paced when every request gets a
    response. *)
Lemma attempts_paced remaining : forall attempt w,
  always_responds network ->
  paced (posts w) -> stamped w ->
  paced (posts (snd (attempts network uniform01 remaining attempt w)))
  /\ stamped (snd (attempts network uniform01 remaining attempt w)).
Proof.
  induction remaining as [|n IH]; intros attempt w Hresp Hp Hs;
    cbn [attempts]; [now split|].
  destruct (do_post_paced w Hresp Hp Hs) as [Hp1 Hs1].
  destruct (do_post network (pace w)) as [o w1]. cbn [snd] in Hp1, Hs1.
  assert (Hretry :
    paced (posts (snd (attempts network uniform01 n (S attempt)
                         (backoff_sleep uniform01 attempt w1))))
    /\ stamped (snd (attempts network uniform01 n (S attempt)
                       (backoff_sleep uniform01 attempt w1)))).
  { apply IH; [exact Hresp | exact Hp1 | now apply backoff_sleep_stamped]. }
  destruct o as [|status_code body]; [exact Hretry|].
  destruct (status_code =? 429); [exact Hretry|].
  destruct (raises_for_status status_code); [exact Hretry|].
  destruct body; [now split | exact Hretry].
Qed.

(** Pacing across the whole run, whatever happens between two calls of
    the client, as long as no request raises: the pacing property of the
    source in the case it covers. *)
Lemma call_openrouter_paced key messages temperature w :
  always_responds network ->
  paced (posts w) -> stamped w ->
  paced (posts (snd (call_openrouter network uniform01 key messages
                       temperature w)))
  /\ stamped (snd (call_openrouter network uniform01 key messages
                     temperature w)).
Proof.
  intros Hresp Hp Hs. unfold call_openrouter.
  destruct (negb (opt_truthy key)); [now split|].
  now apply attempts_paced.
Qed.

Lemma attempts_invocations remaining : forall attempt w,
  invocations (snd (attempts network uniform01 remaining attempt w))
  = invocations w.
Proof.
  induction remaining as [|n IH]; intros attempt w; cbn [attempts];
    [reflexivity|].
  pose proof (do_post_invocations (pace w)) as Hi.
  rewrite pace_invocations in Hi.
  destruct (do_post network (pace w)) as [o w1]. cbn [snd] in Hi.
  assert (Hretry :
    invocations (snd (attempts network uniform01 n (S attempt)
                        (backoff_sleep uniform01 attempt w1)))
    = invocations w) by (rewrite IH; exact Hi).
  destruct o as [|status_code body]; [exact Hretry|].
  destruct (status_code =? 429); [exact Hretry|].
  destruct (raises_for_status status_code); [exact Hretry|].
  destruct body; [exact Hi | exact Hretry].
Qed.

Lemma call_openrouter_invocations key messages temperature w :
  invocations (snd (call_openrouter network uniform01 key messages
                      temperature w))
  = S (invocations w).
Proof.
  unfold call_openrouter.
  destruct (negb (opt_truthy key)); [reflexivity|].
  now rewrite attempts_invocations.
Qed.

(** When every attempt fails, the client returns [None]. *)
Lemma attempts_exhausted remaining : forall attempt w,
  (forall n, fails (outcome (network n)) = true) ->
  fst (attempts network uniform01 remaining attempt w) = Ok JNull.
Proof.
  induction remaining as [|n IH]; intros attempt w Hfail; cbn [attempts];
    [reflexivity|].
  pose proof (do_post_outcome (pace w)) as Ho.
  destruct (do_post network (pace w)) as [o w1]. cbn [fst] in Ho.
  specialize (Hfail (length (posts (pace w)))) as Hf. rewrite <- Ho in Hf.
  destruct o as [|status_code body]; [now apply IH|].
  cbn [fails] in Hf.
  destruct (status_code =? 429); [now apply IH|].
  destruct (raises_for_status status_code); [now apply IH|].
  destruct body; [discriminate Hf | now apply IH].
Qed.

End Facts.

End ClientFacts.

Module ClientClaims.
Import ClientSpec ClientFacts.

(** C1, at the failing input: the first request of the run raises a
    [RequestException] after 0.1 s. The time stamp is not written, the
    back-off sleeps 3.5 s, the pacing step at the second attempt sees the
    stale time stamp and does not wait: the second request starts 3.5 s after
    the first one ended (3.6 s after it started), less than the minimum
    interval of 5 s. *)
Theorem retry_after_raised_request_is_early :
  let w := snd (call_openrouter broken_once half some_key [] (2 # 10)
                  (initial_world 1000)) in
  exists first second,
    posts w = [second; first]
    /\ p_raised first = true
    /\ (p_start second - p_end first == 35 # 10)%Q
    /\ (p_start second - p_start first == 36 # 10)%Q
    /\ (OPENROUTER_MIN_INTERVAL == 5)%Q
    /\ ~ paced (posts w).
Proof.
  eexists. eexists. split; [vm_compute; reflexivity|].
  split; [reflexivity|].
  repeat (split; [vm_compute; reflexivity|]).
  vm_compute. intros [H _]. apply H. reflexivity.
Qed.

(** C2, at the failing input: every request of the call times out. Five
    requests are made, and after them the time stamp still has its initial
    value: it is not updated after an attempt that raised. *)
Theorem raised_requests_leave_timestamp :
  let w := snd (call_openrouter always_times_out half some_key [] (2 # 10)
                  (initial_world 1000)) in
  length (posts w) = 5%nat
  /\ Forall (fun p => p_raised p = true) (posts w)
  /\ last_openrouter_call w = last_openrouter_call (initial_world 1000)
  /\ (clock (initial_world 1000) < clock w)%Q.
Proof.
  split; [vm_compute; reflexivity|].
  split; [vm_compute; repeat constructor|].
  split; vm_compute; reflexivity.
Qed.

End ClientClaims.

(** ** The local summarizer *)

Module SummaryFacts.
Import SummarySpec.

Lemma search_end_bounds p s e :
  search_end p s = Some e -> (1 <= e <= length s)%nat.
Proof.
  revert e. induction s as [|c r IH]; intros e; cbn [search_end length];
    [discriminate|].
  destruct (p c).
  - intros [= <-]. lia.
  - destruct (search_end p r) as [e'|]; cbn [option_map]; [|discriminate].
    intros [= <-]. specialize (IH e' eq_refl). lia.
Qed.

Lemma firstn_whole {A} (s : list A) e :
  (e <= length s)%nat -> firstn e s = s -> e = length s.
Proof.
  intros Hle Heq. apply (f_equal (@length A)) in Heq.
  rewrite length_firstn in Heq. lia.
Qed.

Lemma lstrip_by_length p s : (length (lstrip_by p s) <= length s)%nat.
Proof.
  induction s as [|c r IH]; cbn [lstrip_by length]; [lia|].
  destruct (p c); cbn [length]; lia.
Qed.

Lemma rstrip_by_length p s : (length (rstrip_by p s) <= length s)%nat.
Proof.
  unfold rstrip_by. rewrite length_rev.
  etransitivity; [apply lstrip_by_length|]. now rewrite length_rev.
Qed.

Lemma slice_to_length s k :
  0 <= k -> (length (slice_to s k) <= Z.to_nat k)%nat.
Proof.
  intros Hk. unfold slice_to.
  destruct (0 <=? k) eqn:E; [|apply Z.leb_gt in E; lia].
  rewrite length_firstn. lia.
Qed.

(** A truncated candidate is shorter than what it was cut from. *)
Lemma truncate_shorter max_chars candidate :
  1 <= max_chars -> max_chars < Z.of_nat (length candidate) ->
  (length (truncate max_chars candidate) < length candidate)%nat.
Proof.
  intros Hpos Hlong. unfold truncate.
  replace (max_chars <? Z.of_nat (length candidate)) with true
    by (symmetry; apply Z.ltb_lt; exact Hlong).
  rewrite length_app. cbn [ELLIPSIS length].
  pose proof (rstrip_by_length isspace
                (slice_to candidate (max_chars - 1))) as H1.
  pose proof (slice_to_length candidate (max_chars - 1) ltac:(lia)) as H2.
  unfold rstrip. lia.
Qed.

Lemma first_sentence_length clean :
  (length (first_sentence clean) <= length clean)%nat.
Proof.
  unfold first_sentence. destruct (search_end _ _); [|lia].
  rewrite length_firstn. lia.
Qed.

End SummaryFacts.

Module SummaryClaims.
Import SummarySpec SummaryFacts.

(** C7, as stated, fails: the body "Done." ends in a terminator, and the
    title is still put before it. *)
Lemma title_rule_as_stated_fails :
  ~ title_rule_as_stated (lit "Done.") (lit "T") 200.
Proof. vm_compute. discriminate. Qed.

(** C7, amended: for a body that is not blank, a title that is not empty
    and [max_chars >= 1], the title goes before the candidate exactly when
    the candidate is the whole cleaned body, that is when the body fits
    into [max_chars] and has no terminator or has its first terminator as
    its last character; the result is then label, stripped title, dash and
    body. In every other case the result is the label and the first
    sentence (cut to [max_chars] with an ellipsis when longer), without the
    title. *)
Theorem title_goes_with_whole_body text title max_chars :
  strip text <> [] -> title <> [] -> 1 <= max_chars ->
  local_summary text (Some title) max_chars
  = if whole_body_is_candidate (strip text) max_chars
    then LABEL ++ strip title ++ DASH ++ strip text
    else LABEL ++ truncate max_chars (first_sentence (strip text)).
Proof.
  intros Hclean Htitle Hpos. unfold local_summary.
  set (clean := strip text) in *.
  assert (Ht : PyStr.truthy clean = true) by (now destruct clean).
  assert (Ho : opt_truthy (Some title) = true) by (now destruct title).
  rewrite Ht, Ho. cbn [negb andb opt_str].
  fold (first_sentence clean).
  pose proof (first_sentence_length clean) as Hfs.
  destruct (max_chars <? Z.of_nat (length (first_sentence clean))) eqn:Elong.
  - (* the candidate is cut: it cannot be the whole body *)
    apply Z.ltb_lt in Elong.
    pose proof (truncate_shorter _ _ Hpos Elong) as Hshort.
    unfold truncate in Hshort |- *.
    replace (max_chars <? Z.of_nat (length (first_sentence clean)))
      with true in Hshort |- * by (symmetry; apply Z.ltb_lt; exact Elong).
    rewrite bool_decide_eq_false_2.
    2:{ intros Heq. rewrite Heq in Hshort. lia. }
    unfold whole_body_is_candidate.
    replace (Z.of_nat (length clean) <=? max_chars) with false
      by (symmetry; apply Z.leb_gt; lia).
    reflexivity.
  - apply Z.ltb_ge in Elong. unfold truncate.
    replace (max_chars <? Z.of_nat (length (first_sentence clean)))
      with false by (symmetry; apply Z.ltb_ge; exact Elong).
    unfold whole_body_is_candidate, first_sentence in *.
    destruct (search_end is_terminator clean) as [e|] eqn:Es.
    + apply search_end_bounds in Es.
      destruct (Nat.eqb_spec e (length clean)) as [->|Hne].
      * rewrite firstn_all in Elong |- *.
        rewrite bool_decide_eq_true_2 by reflexivity.
        replace (Z.of_nat (length clean) <=? max_chars) with true
          by (symmetry; apply Z.leb_le; exact Elong).
        reflexivity.
      * rewrite bool_decide_eq_false_2.
        2:{ intros Heq. apply firstn_whole in Heq; lia. }
        now rewrite andb_false_r.
    + rewrite bool_decide_eq_true_2 by reflexivity.
      replace (Z.of_nat (length clean) <=? max_chars) with true
        by (symmetry; apply Z.leb_le; exact Elong).
      reflexivity.
Qed.

Lemma title_goes_with_whole_body_witness :
  local_summary (lit "AI is advancing fast. More details follow.")
                (Some (lit "AI news")) 200
  = if whole_body_is_candidate
         (strip (lit "AI is advancing fast. More details follow.")) 200
    then LABEL ++ strip (lit "AI news") ++ DASH
         ++ strip (lit "AI is advancing fast. More details follow.")
    else LABEL
         ++ truncate 200
              (first_sentence
                 (strip (lit "AI is advancing fast. More details follow."))).
Proof.
  apply (title_goes_with_whole_body
           (lit "AI is advancing fast. More details follow.")
           (lit "AI news") 200).
  - vm_compute. discriminate.
  - discriminate.
  - lia.
Defined.

(** The scenario of the specification: the first sentence only. *)
Example local_summary_scenario :
  local_summary (lit "AI is advancing fast. More details follow.")
                (Some (lit "AI news")) 200
  = LABEL ++ lit "AI is advancing fast.".
Proof. vm_compute. reflexivity. Qed.

End SummaryClaims.

(** ** The env file *)

Module EnvFacts.

(** One line leaves the environment alone or adds one binding, for a key
    that was unset and is not sensitive. *)
Lemma load_env_line_effect (raw_line : str)
    (environ environ' : gmap str str) :
  load_env_line raw_line environ = Ok environ' ->
  environ' = environ
  \/ exists key value,
       environ !! key = None /\ (key ∉ SENSITIVE_ENV_KEYS)
       /\ environ' = <[ key := value ]> environ.
Proof.
  unfold load_env_line.
  destruct (negb (PyStr.truthy (strip raw_line))
            || is_comment (strip raw_line)).
  { intros [= <-]. now left. }
  destruct (split_eq (strip raw_line)) as [[key value]|].
  2:{ intros [= <-]. now left. }
  destruct (negb (PyStr.truthy (strip key))) eqn:Ek; cbn [orb].
  { intros [= <-]. now left. }
  destruct (bool_decide (is_Some (environ !! strip key))) eqn:Eset;
    cbn [orb].
  { intros [= <-]. now left. }
  destruct (bool_decide (strip key ∈ SENSITIVE_ENV_KEYS)) eqn:Esens.
  { intros [= <-]. now left. }
  unfold setenv. destruct (_ || _); [discriminate|].
  intros [= <-]. right. exists (strip key). eexists.
  apply bool_decide_eq_false in Eset, Esens.
  split; [|split; [exact Esens | reflexivity]].
  destruct (environ !! strip key) eqn:E; [|reflexivity].
  exfalso. apply Eset. now eexists.
Qed.

Lemma load_env_lines_effect (lines : list str) :
  forall (environ : gmap str str),
  (forall k v, environ !! k = Some v ->
               (snd (load_env_lines lines environ)) !! k = Some v)
  /\ (forall k, k ∈ SENSITIVE_ENV_KEYS ->
                (snd (load_env_lines lines environ)) !! k = environ !! k).
Proof.
  induction lines as [|raw_line rest IH]; intros environ;
    cbn [load_env_lines].
  - split; auto.
  - destruct (load_env_line raw_line environ) as [environ'|x] eqn:E;
      [|split; auto].
    destruct (IH environ') as [IHkeep IHsens].
    apply load_env_line_effect in E as [->|(key & value & Hnone & Hns & ->)].
    + now split.
    + split.
      * intros k v Hk. apply IHkeep.
        rewrite lookup_insert_ne; [exact Hk|].
        intros ->. congruence.
      * intros k Hk. rewrite IHsens by exact Hk.
        apply lookup_insert_ne. intros ->. contradiction.
Qed.

End EnvFacts.

Module EnvClaims.
Import EnvFacts EnvSamples.

(** C10: whatever the file holds, a variable that is set keeps its value,
    and the four sensitive keys are left as they are (set or unset). *)
Theorem load_env_file_keeps_environment (expanduser : str -> str)
    (read_lines : str -> option (list str)) (path : option str)
    (environ : gmap str str) :
  (forall k v, environ !! k = Some v ->
     (snd (load_env_file expanduser read_lines path environ)) !! k = Some v)
  /\ (forall k, k ∈ SENSITIVE_ENV_KEYS ->
        (snd (load_env_file expanduser read_lines path environ)) !! k
        = environ !! k).
Proof.
  unfold load_env_file.
  destruct (negb (opt_truthy path)); [split; auto|].
  destruct (read_lines (expanduser (opt_str path))) as [lines|];
    [|split; auto].
  apply load_env_lines_effect.
Qed.

Lemma load_env_file_keeps_environment_witness :
  (snd (load_env_file same_path one_file (Some (lit ".env")) an_environ))
    !! lit "HOME" = Some (lit "/root")
  /\ (snd (load_env_file same_path one_file (Some (lit ".env")) an_environ))
       !! lit "OPENROUTER_KEY" = an_environ !! lit "OPENROUTER_KEY".
Proof.
  destruct (load_env_file_keeps_environment same_path one_file
              (Some (lit ".env")) an_environ) as [Hkeep Hsens].
  split.
  - apply Hkeep. vm_compute. reflexivity.
  - apply Hsens. unfold SENSITIVE_ENV_KEYS.
    apply elem_of_union_l, elem_of_union_l, elem_of_union_r,
      elem_of_singleton.
    reflexivity.
Defined.

(** The file of the example sets the one key that is free and not
    sensitive. *)
Example load_env_file_sample :
  map_to_list
    (snd (load_env_file same_path one_file (Some (lit ".env")) an_environ))
  = [(lit "CITY", lit "Xiamen"); (lit "HOME", lit "/root")].
Proof. vm_compute. reflexivity. Qed.

End EnvClaims.

(** ** The enrichment policy *)

Module EnrichFacts.
Import ClientSpec ClientFacts EnrichSpec EnrichBounds.

Lemma existsb_lstrip_by (p q : N -> bool) (s : str) :
  (forall c, q c = true -> p c = false) ->
  existsb p (lstrip_by q s) = existsb p s.
Proof.
  intros Hq. induction s as [|c r IH]; [reflexivity|].
  cbn [lstrip_by]. destruct (q c) eqn:E; [|reflexivity].
  cbn [existsb]. now rewrite (Hq c E), IH.
Qed.

Lemma existsb_reverse (p : N -> bool) (s : str) :
  existsb p (rev s) = existsb p s.
Proof.
  induction s as [|c r IH]; [reflexivity|].
  cbn [rev existsb]. rewrite existsb_app, IH. cbn [existsb].
  now rewrite orb_false_r, orb_comm.
Qed.

Lemma existsb_strip_by (p q : N -> bool) (s : str) :
  (forall c, q c = true -> p c = false) ->
  existsb p (strip_by q s) = existsb p s.
Proof.
  intros Hq. unfold strip_by, rstrip_by.
  rewrite existsb_reverse, existsb_lstrip_by, existsb_reverse by exact Hq.
  now apply existsb_lstrip_by.
Qed.

Lemma isspace_not_cjk c : isspace c = true -> is_cjk c = false.
Proof.
  unfold isspace, is_cjk. intros H.
  apply andb_false_iff.
  destruct (N.leb_spec 19968 c) as [Hge|Hlt]; [|now left].
  exfalso. revert H.
  repeat match goal with
         | |- context [(?a <=? ?b)%N] => destruct (N.leb_spec a b); try lia
         | |- context [(?a =? ?b)%N] => destruct (N.eqb_spec a b); try lia
         end; cbn; discriminate.
Qed.

(** Stripping does not remove ideographs: the combined text has one exactly
    when the title or the description has one. *)
Lemma contains_cjk_combined e :
  contains_cjk (combined_text e)
  = contains_cjk (title e) || contains_cjk (description e).
Proof.
  unfold contains_cjk, combined_text, strip.
  rewrite existsb_strip_by by apply isspace_not_cjk.
  rewrite !existsb_app. cbn [existsb is_cjk]. cbn. reflexivity.
Qed.

(** The source's test against the decision rule. *)
Lemma should_use_openrouter_policy force e :
  should_use_openrouter force e = true <-> policy_calls_client force e.
Proof.
  unfold should_use_openrouter, policy_calls_client.
  destruct force; [split; auto|].
  destruct (combined_text e) as [|c r] eqn:E; cbn [PyStr.truthy negb].
  - split; auto.
  - unfold contains_cjk. rewrite negb_true_iff.
    rewrite <- not_true_iff_false, existsb_exists. split.
    + intros Hno. right. right. intros d Hd.
      destruct (is_cjk d) eqn:Ed; [|reflexivity].
      exfalso. apply Hno. now exists d.
    + intros [H|[H|H]]; [discriminate H | discriminate H|].
      intros (d & Hd & Ed). rewrite (H d Hd) in Ed. discriminate.
Qed.

Section Facts.

Variable network : nat -> post_reply.
Variable uniform01 : nat -> Q.
Variable key : option str.
Variable force : bool.
Variable max_prompt : Z.
Variable json_loads : str -> option json.
Variable bs_get_text unescape : str -> str.
Variable prompt_template : str -> str -> str.

Local Abbreviation translate :=
  (translate_and_summarize network uniform01 key max_prompt json_loads
     bs_get_text unescape prompt_template).
Local Abbreviation entry_step :=
  (enrich_entry network uniform01 key force max_prompt json_loads
     bs_get_text unescape prompt_template).
Local Abbreviation loop :=
  (enrich_loop network uniform01 key force max_prompt json_loads
     bs_get_text unescape prompt_template).

(** [translate_and_summarize] calls the client once; it raises and leaves
    the heap, or returns its argument and writes the three fields. *)
Lemma translate_and_summarize_shape entry topic h w :
  invocations (snd (translate entry topic h w)) = S (invocations w)
  /\ ((exists x, fst (translate entry topic h w) = (Raise x, h))
      \/ exists t s k,
           fst (translate entry topic h w)
           = (Ok entry, store h entry (set_enrichment (h entry) t s k))).
Proof.
  unfold translate_and_summarize.
  pose proof (call_openrouter_invocations network uniform01 key
                [(lit "user", prompt_of max_prompt prompt_template
                                (h entry) topic)] (2 # 10) w) as Hinv.
  destruct (call_openrouter _ _ _ _ _ w) as [r w1]. cbn [snd] in Hinv.
  destruct (bind r _) as [[t0 s0]|x]; cbn [fst snd].
  - split; [exact Hinv|]. right. eauto.
  - split; [exact Hinv|]. left. eauto.
Qed.

(** When the client is unavailable, the entry keeps its own text and the
    summary is the place holder. *)
Lemma translate_and_summarize_unavailable entry topic h w :
  client_unavailable network key ->
  fst (translate entry topic h w)
  = (Ok entry, store h entry (kept_original_enrichment (h entry))).
Proof.
  intros Hun. unfold translate_and_summarize.
  assert (Hnone : forall m t,
            fst (call_openrouter network uniform01 key m t w) = Ok JNull).
  { intros m t. unfold call_openrouter. destruct Hun as [Hk|Hf].
    - now rewrite Hk.
    - destruct (negb (opt_truthy key)); [reflexivity|].
      now apply attempts_exhausted. }
  specialize (Hnone [(lit "user", prompt_of max_prompt prompt_template
                                    (h entry) topic)] (2 # 10)).
  destruct (call_openrouter _ _ _ _ _ w) as [r w1]. cbn [fst] in Hnone.
  subst r. reflexivity.
Qed.

(** A reply that is empty, or a text that [json.loads] rejects as a whole
    and between its braces, gives neither translation nor summary. *)
Lemma read_response_unusable response :
  match response with
  | JStr s =>
      json_loads s = None
      /\ (forall start end_, find 123%N s = Some start ->
            rfind 125%N s = Some end_ -> (start < end_)%nat ->
            json_loads (snippet s start end_) = None)
  | v => Json.truthy v = false
  end ->
  read_response json_loads response = Ok (None, None).
Proof.
  unfold read_response.
  destruct (Json.truthy response) eqn:Et; [|reflexivity].
  destruct response; try congruence.
  intros [Hwhole Hsnip].
  unfold extract_json_from_text. rewrite Et. cbn [negb bind].
  rewrite Hwhole.
  destruct (find 123%N s) as [start|] eqn:Ef; [|reflexivity].
  destruct (rfind 125%N s) as [end_|] eqn:Er; [|reflexivity].
  destruct (start <? end_)%nat eqn:El; [|reflexivity].
  apply Nat.ltb_lt in El. now rewrite (Hsnip start end_ eq_refl eq_refl El).
Qed.

(** One step of the loop of [enrich_news]. *)
Lemma enrich_entry_shape entry topic h w :
  (should_use_openrouter force (h entry) = true ->
   invocations (snd (entry_step entry topic h w)) = S (invocations w))
  /\ (should_use_openrouter force (h entry) = false ->
      entry_step entry topic h w
      = (Ok entry, store h entry (local_enrichment (h entry)), w))
  /\ ((exists x, fst (entry_step entry topic h w) = (Raise x, h))
      \/ exists t s k,
           fst (entry_step entry topic h w)
           = (Ok entry, store h entry (set_enrichment (h entry) t s k))).
Proof.
  unfold enrich_entry.
  destruct (translate_and_summarize_shape entry topic h w) as [Hinv Hsh].
  destruct (should_use_openrouter force (h entry)).
  - split; [auto|]. split; [discriminate|exact Hsh].
  - split; [discriminate|]. split; [reflexivity|].
    right. cbn [fst]. unfold local_enrichment. eauto.
Qed.

Lemma store_same_source_fields h entry t s k l :
  same_source_fields (h l) (store h entry (set_enrichment (h entry) t s k) l).
Proof.
  unfold store, same_source_fields.
  destruct (Nat.eqb_spec l entry) as [->|Hne]; cbn; auto.
Qed.

Lemma same_source_fields_trans a b c :
  same_source_fields a b -> same_source_fields b c ->
  same_source_fields a c.
Proof.
  unfold same_source_fields.
  intros (?&?&?&?&?) (?&?&?&?&?). repeat split; congruence.
Qed.

Lemma same_source_fields_refl a : same_source_fields a a.
Proof. unfold same_source_fields. auto. Qed.

Lemma store_enriched h entry t s k l :
  enriched_at h l \/ l = entry ->
  enriched_at (store h entry (set_enrichment (h entry) t s k)) l.
Proof.
  unfold enriched_at, store.
  destruct (Nat.eqb_spec l entry) as [->|Hne]; cbn.
  - intros _. split; discriminate.
  - intros [H|H]; [exact H | contradiction].
Qed.

(** The loop: what it returns, what it leaves alone, what it writes. *)
Lemma enrich_loop_frame entries : forall topic enriched h w,
  let res := loop entries topic enriched h w in
  (fst (fst res) = Ok (enriched ++ entries)
   \/ exists x, fst (fst res) = Raise x)
  /\ (forall l, same_source_fields (h l) (snd (fst res) l))
  /\ (forall l, ~ In l entries -> snd (fst res) l = h l)
  /\ (forall l, enriched_at h l -> enriched_at (snd (fst res)) l)
  /\ (fst (fst res) = Ok (enriched ++ entries) ->
      forall l, In l entries -> enriched_at (snd (fst res)) l).
Proof.
  induction entries as [|entry rest IH]; intros topic enriched h w;
    cbv zeta; cbn [enrich_loop].
  - cbn [fst snd]. rewrite app_nil_r.
    split; [now left|].
    split; [intros; apply same_source_fields_refl|].
    split; [reflexivity|]. split; [auto|].
    intros _ l [].
  -     destruct (enrich_entry_shape entry topic h w)
      as (_ & _ & [(x & Hx)|(t & s & k & Hok)]).
    + destruct (entry_step entry topic h w) as [[r h1] w1].
      cbn [fst] in Hx. injection Hx as -> ->. cbn [fst snd].
      split; [right; eauto|].
      split; [intros; apply same_source_fields_refl|].
      split; [reflexivity|]. split; [auto|discriminate].
    + destruct (entry_step entry topic h w) as [[r h1] w1].
      cbn [fst] in Hok. injection Hok as -> ->.
      specialize (IH topic (enriched ++ [entry])
                    (store h entry (set_enrichment (h entry) t s k)) w1).
      cbv zeta in IH. rewrite <- app_assoc in IH. cbn [app] in IH.
      destruct IH as (Hr & Hsame & Hout & Hkeep & Hnew).
      split; [exact Hr|].
      split.
      { intros l. eapply same_source_fields_trans;
          [apply store_same_source_fields | apply Hsame]. }
      split.
      { intros l Hl. rewrite Hout by (intros H; apply Hl; now right).
        unfold store. destruct (Nat.eqb_spec l entry) as [->|Hne];
          [|reflexivity].
        exfalso. apply Hl. now left. }
      split.
      { intros l Hl. apply Hkeep, store_enriched. now left. }
      intros Hok l [<-|Hl].
      * apply Hkeep, store_enriched. now right.
      * now apply Hnew.
Qed.

(** When no entry of the list calls for the client, the loop takes the
    local path for every entry and leaves the client's state alone. *)
Lemma enrich_loop_local entries : forall topic enriched h w,
  (forall l, In l entries -> should_use_openrouter force (h l) = false) ->
  fst (fst (loop entries topic enriched h w)) = Ok (enriched ++ entries)
  /\ snd (loop entries topic enriched h w) = w.
Proof.
  induction entries as [|entry rest IH]; intros topic enriched h w Hloc;
    cbn [enrich_loop].
  - cbn [fst snd]. now rewrite app_nil_r.
  -     destruct (enrich_entry_shape entry topic h w) as (_ & Hlocal & _).
    rewrite (Hlocal (Hloc entry (or_introl eq_refl))).
    specialize (IH topic (enriched ++ [entry])
                  (store h entry (local_enrichment (h entry))) w).
    rewrite <- app_assoc in IH. cbn [app] in IH. apply IH.
    intros l Hl. specialize (Hloc l (or_intror Hl)).
    unfold should_use_openrouter, combined_text in *.
    unfold store. destruct (Nat.eqb_spec l entry) as [->|Hne];
      [|exact Hloc].
    exact Hloc.
Qed.

(** When the client is unavailable, the loop runs to its end. *)
Lemma enrich_loop_unavailable entries : forall topic enriched h w,
  client_unavailable network key ->
  fst (fst (loop entries topic enriched h w)) = Ok (enriched ++ entries).
Proof.
  induction entries as [|entry rest IH]; intros topic enriched h w Hun;
    cbn [enrich_loop].
  - cbn [fst]. now rewrite app_nil_r.
  -     assert (Hstep : exists h1, fst (entry_step entry topic h w)
                               = (Ok entry, h1)).
    { unfold enrich_entry.
      destruct (should_use_openrouter force (h entry)).
      - rewrite (translate_and_summarize_unavailable entry topic h w Hun).
        eauto.
      - cbn [fst]. eauto. }
    destruct Hstep as (h1 & Hstep).
    destruct (entry_step entry topic h w) as [[r h'] w1].
    cbn [fst] in Hstep. injection Hstep as -> ->.
    specialize (IH topic (enriched ++ [entry]) h1 w1 Hun).
    now rewrite <- app_assoc in IH.
Qed.

Lemma should_use_openrouter_frame a b :
  same_source_fields a b ->
  should_use_openrouter force a = should_use_openrouter force b.
Proof.
  intros (Ht & _ & _ & _ & Hd).
  unfold should_use_openrouter, combined_text. now rewrite Ht, Hd.
Qed.

Lemma local_enrichment_frame a b :
  same_source_fields a b -> local_enrichment a = local_enrichment b.
Proof.
  intros (Ht & Hl & Hp & Hs & Hd).
  unfold local_enrichment, set_enrichment. now rewrite Ht, Hl, Hp, Hs, Hd.
Qed.

Lemma policy_count_store h entry t s k rest :
  policy_count force (store h entry (set_enrichment (h entry) t s k)) rest
  = policy_count force h rest.
Proof.
  unfold policy_count. f_equal. apply filter_ext. intros l. symmetry.
  apply should_use_openrouter_frame, store_same_source_fields.
Qed.

Lemma policy_count_local h entry rest :
  policy_count force (store h entry (local_enrichment (h entry))) rest
  = policy_count force h rest.
Proof. apply policy_count_store. Qed.

(** The loop calls the client once for each entry that the rule sends to
    it, and writes the local enrichment into every other entry. *)
Lemma enrich_loop_calls entries : forall topic enriched h w,
  let res := loop entries topic enriched h w in
  (invocations (snd res)
   <= invocations w + policy_count force h entries)%nat
  /\ (fst (fst res) = Ok (enriched ++ entries) ->
      invocations (snd res)
      = (invocations w + policy_count force h entries)%nat
      /\ forall l, In l entries ->
           should_use_openrouter force (h l) = false ->
           snd (fst res) l = local_enrichment (h l)).
Proof.
  induction entries as [|entry rest IH]; intros topic enriched h w;
    cbv zeta; cbn [enrich_loop].
  - cbn [fst snd]. unfold policy_count. cbn [List.filter length].
    split; [lia|]. intros _. split; [lia | intros l []].
  - destruct (enrich_entry_shape entry topic h w)
      as (Hcall & Hlocal & Hshape).
    assert (Hcount : policy_count force h (entry :: rest)
                     = ((if should_use_openrouter force (h entry)
                         then 1 else 0)
                        + policy_count force h rest)%nat).
    { unfold policy_count. cbn [List.filter].
      now destruct (should_use_openrouter force (h entry)). }
    rewrite Hcount. clear Hcount.
    destruct (should_use_openrouter force (h entry)) eqn:Euse.
    + specialize (Hcall eq_refl).
      destruct (entry_step entry topic h w) as [[r h1] w1].
      cbn [fst snd] in *.
      destruct Hshape as [(x & Hx)|(t & s & k & Hok)].
      * injection Hx as -> ->. cbn [fst snd].
        split; [lia | discriminate].
      * injection Hok as -> ->.
        specialize (IH topic (enriched ++ [entry])
                      (store h entry (set_enrichment (h entry) t s k)) w1).
        cbv zeta in IH. rewrite <- app_assoc in IH. cbn [app] in IH.
        rewrite policy_count_store in IH.
        destruct IH as (Hle & Heq).
        split; [lia|]. intros Hok. destruct (Heq Hok) as (Hinv & Hloc).
        split; [lia|]. intros l [<-|Hl] Hno; [congruence|].
        rewrite Hloc; [| exact Hl |].
        -- symmetry. apply local_enrichment_frame,
             store_same_source_fields.
        -- rewrite <- Hno. symmetry.
           apply should_use_openrouter_frame, store_same_source_fields.
    + rewrite (Hlocal eq_refl). cbn [fst snd].
      pose proof (enrich_loop_frame rest topic (enriched ++ [entry])
                    (store h entry (local_enrichment (h entry))) w)
        as (_ & _ & Hout & _).
      specialize (IH topic (enriched ++ [entry])
                    (store h entry (local_enrichment (h entry))) w).
      cbv zeta in IH, Hout. rewrite <- app_assoc in IH. cbn [app] in IH.
      rewrite policy_count_local in IH.
      destruct IH as (Hle & Heq).
      split; [lia|]. intros Hok. destruct (Heq Hok) as (Hinv & Hloc).
      split; [lia|]. intros l Hin Hno.
      assert (Hsame : same_source_fields (h l)
                        (store h entry (local_enrichment (h entry)) l))
        by apply store_same_source_fields.
      destruct (in_dec Nat.eq_dec l rest) as [Hl|Hnl].
      * rewrite Hloc; [| exact Hl |].
        -- symmetry. now apply local_enrichment_frame.
        -- rewrite <- Hno. symmetry.
           now apply should_use_openrouter_frame.
      * destruct Hin as [<-|Hin]; [|contradiction].
        rewrite (Hout entry Hnl). unfold store.
        now rewrite Nat.eqb_refl.
Qed.

End Facts.

End EnrichFacts.

Module EnrichClaims.
Import ClientSpec ClientFacts EnrichSpec EnrichFacts EnrichSamples
  EnrichBounds.

(** C5, at the failing input: the service answers with status 200 and the
    message content ["[1]"], a JSON array where the object was asked for.
    [json.loads] accepts the text, the array is true, and
    [data.get("translation", "")] raises [AttributeError], which nothing
    catches: [translate_and_summarize] raises and the entry is not
    written. *)
Theorem array_reply_raises (uniform01 : nat -> Q) (max_prompt : Z)
    (json_loads : str -> option json) (bs_get_text unescape : str -> str)
    (prompt_template : str -> str -> str) (entry : loc) (topic : str)
    (h : Heap) :
  json_loads (lit "[1]") = Some (JArr [JNum 1]) ->
  fst (translate_and_summarize replies_array uniform01 some_key max_prompt
         json_loads bs_get_text unescape prompt_template entry topic h
         (initial_world 1000))
  = (Raise AttributeError, h).
Proof.
  intros Hloads. unfold translate_and_summarize.
  assert (Hcall : forall m,
            fst (call_openrouter replies_array uniform01 some_key m (2 # 10)
                   (initial_world 1000))
            = Ok (JStr (lit "[1]"))) by (intros m; vm_compute; reflexivity).
  specialize (Hcall [(lit "user", prompt_of max_prompt prompt_template
                                    (h entry) topic)]).
  destruct (call_openrouter _ _ _ _ _ _) as [r w1]. cbn [fst] in Hcall.
  subst r. cbn [bind].
  unfold read_response, extract_json_from_text.
  cbn [Json.truthy PyStr.truthy lit negb bind] in *.
  rewrite Hloads. reflexivity.
Qed.

Lemma array_reply_raises_witness :
  fst (translate_and_summarize replies_array half some_key 6000 loads_table
         identity identity no_template 0%nat (lit "AI") a_heap
         (initial_world 1000))
  = (Raise AttributeError, a_heap).
Proof.
  apply (array_reply_raises half 6000 loads_table identity identity
           no_template 0%nat (lit "AI") a_heap).
  vm_compute. reflexivity.
Defined.

(** The same for a reply of status 200 without [choices]: the [KeyError]
    of [data["choices"]] leaves [call_openrouter] and
    [translate_and_summarize]. *)
Example reply_without_choices_raises :
  fst (translate_and_summarize error_report half some_key 6000 loads_table
         identity identity no_template 0%nat (lit "AI") a_heap
         (initial_world 1000))
  = (Raise KeyError, a_heap).
Proof. vm_compute. reflexivity. Qed.

(** The case the source does cover: when every attempt is throttled (or no
    key is configured), the entry comes back with its own description as
    translation, the place holder as summary and [kept_original] set. *)
Example persistent_429_keeps_original :
  fst (translate_and_summarize always_429 half some_key 6000 loads_table
         identity identity no_template 0%nat (lit "AI") a_heap
         (initial_world 1000))
  = (Ok 0%nat, store a_heap 0%nat (kept_original_enrichment an_entry)).
Proof.
  apply (translate_and_summarize_unavailable always_429 half some_key 6000
           loads_table identity identity no_template 0%nat (lit "AI") a_heap
           (initial_world 1000)).
  right. intros n. reflexivity.
Qed.

(** C6: [enrich_news] calls the client for an entry exactly when the
    override is set, or the combined text is empty, or the combined text
    has no character from U+4E00 to U+9FFF (which is to say that neither
    title nor description has one). For a list of one entry the client is
    called exactly under that rule. For any list, the client is never
    called more often than there are entries that meet the rule; when
    [enrich_news] returns it was called exactly once for each of them, and
    every other entry of the list carries the local enrichment. For a list
    none of whose entries meets the rule, the state of the client is left
    as it was. *)
Theorem client_called_iff_policy (network : nat -> post_reply)
    (uniform01 : nat -> Q) (key : option str) (force : bool)
    (max_prompt : Z) (json_loads : str -> option json)
    (bs_get_text unescape : str -> str)
    (prompt_template : str -> str -> str) (topic : str) (h : Heap)
    (w : World) :
  (forall entry,
     invocations
       (snd (enrich_news network uniform01 key force max_prompt json_loads
               bs_get_text unescape prompt_template [entry] topic h w))
     = S (invocations w)
     <-> policy_calls_client force (h entry))
  /\ (forall entry,
        ~ policy_calls_client force (h entry) ->
        enrich_news network uniform01 key force max_prompt json_loads
          bs_get_text unescape prompt_template [entry] topic h w
        = (Ok [entry], store h entry (local_enrichment (h entry)), w))
  /\ (forall entries,
        (forall l, In l entries -> ~ policy_calls_client force (h l)) ->
        fst (fst (enrich_news network uniform01 key force max_prompt
                    json_loads bs_get_text unescape prompt_template entries
                    topic h w)) = Ok entries
        /\ snd (enrich_news network uniform01 key force max_prompt
                  json_loads bs_get_text unescape prompt_template entries
                  topic h w) = w)
  /\ (forall entry,
        policy_calls_client force (h entry)
        <-> force = true
            \/ contains_cjk (title (h entry))
               || contains_cjk (description (h entry)) = false)
  /\ (forall entries,
        (invocations
           (snd (enrich_news network uniform01 key force max_prompt
                   json_loads bs_get_text unescape prompt_template entries
                   topic h w))
         <= invocations w + policy_count force h entries)%nat)
  /\ (forall entries,
        fst (fst (enrich_news network uniform01 key force max_prompt
                    json_loads bs_get_text unescape prompt_template entries
                    topic h w)) = Ok entries ->
        invocations
          (snd (enrich_news network uniform01 key force max_prompt
                  json_loads bs_get_text unescape prompt_template entries
                  topic h w))
        = (invocations w + policy_count force h entries)%nat
        /\ forall l, In l entries -> ~ policy_calls_client force (h l) ->
             snd (fst (enrich_news network uniform01 key force max_prompt
                         json_loads bs_get_text unescape prompt_template
                         entries topic h w)) l
             = local_enrichment (h l))
  /\ (forall e,
        should_use_openrouter force e = true
        <-> policy_calls_client force e).
Proof.
  assert (Hone : forall entry,
    enrich_news network uniform01 key force max_prompt json_loads
      bs_get_text unescape prompt_template [entry] topic h w
    = match enrich_entry network uniform01 key force max_prompt json_loads
              bs_get_text unescape prompt_template entry topic h w with
      | (Ok l, h', w') => (Ok [l], h', w')
      | (Raise x, h', w') => (Raise x, h', w')
      end).
  { intros entry. unfold enrich_news. cbn [enrich_loop].
    now destruct (enrich_entry _ _ _ _ _ _ _ _ _ _ _ _ _) as [[[l|x] h'] w']. }
  assert (Hworld : forall entry,
    snd (enrich_news network uniform01 key force max_prompt json_loads
           bs_get_text unescape prompt_template [entry] topic h w)
    = snd (enrich_entry network uniform01 key force max_prompt json_loads
             bs_get_text unescape prompt_template entry topic h w)).
  { intros entry. rewrite Hone.
    now destruct (enrich_entry _ _ _ _ _ _ _ _ _ _ _ _ _) as [[[l|x] h'] w']. }
  split; [|split; [|split; [|split; [|split; [|split]]]]].
  7:{ intros e. apply should_use_openrouter_policy. }
  5:{ intros entries. unfold enrich_news.
      apply (enrich_loop_calls network uniform01 key force max_prompt
               json_loads bs_get_text unescape prompt_template entries
               topic [] h w). }
  5:{ intros entries Hok. unfold enrich_news in *.
      destruct (enrich_loop_calls network uniform01 key force max_prompt
                  json_loads bs_get_text unescape prompt_template entries
                  topic [] h w) as (_ & Heq).
      cbn [app] in Heq. destruct (Heq Hok) as (Hinv & Hloc).
      split; [exact Hinv|]. intros l Hl Hno. apply Hloc; [exact Hl|].
      rewrite <- should_use_openrouter_policy in Hno.
      now destruct (should_use_openrouter force (h l)). }
  - intros entry. rewrite Hworld, <- should_use_openrouter_policy.
    destruct (enrich_entry_shape network uniform01 key force max_prompt
                json_loads bs_get_text unescape prompt_template entry topic
                h w) as (Hcall & Hlocal & _).
    destruct (should_use_openrouter force (h entry)).
    + split; [reflexivity | intros _; now apply Hcall].
    + rewrite (Hlocal eq_refl). cbn [snd]. split; [lia | discriminate].
  - intros entry Hno. rewrite Hone.
    destruct (enrich_entry_shape network uniform01 key force max_prompt
                json_loads bs_get_text unescape prompt_template entry topic
                h w) as (_ & Hlocal & _).
    rewrite Hlocal; [reflexivity|].
    rewrite <- should_use_openrouter_policy in Hno.
    now destruct (should_use_openrouter force (h entry)).
  - intros entries Hno. unfold enrich_news.
    apply (enrich_loop_local network uniform01 key force max_prompt
             json_loads bs_get_text unescape prompt_template entries topic
             [] h w).
    intros l Hl. specialize (Hno l Hl).
    rewrite <- should_use_openrouter_policy in Hno.
    now destruct (should_use_openrouter force (h l)).
  - intros entry. rewrite <- should_use_openrouter_policy.
    unfold should_use_openrouter. rewrite <- contains_cjk_combined.
    destruct force; [split; auto|].
    destruct (combined_text (h entry)) eqn:E; cbn [PyStr.truthy negb].
    + cbn. split; auto.
    + rewrite negb_true_iff. split; [auto | intros [H|H]; [discriminate|auto]].
Qed.

Lemma client_called_iff_policy_witness :
  (invocations
     (snd (enrich_news always_429 half some_key false 6000 loads_table
             identity identity no_template [0%nat] (lit "AI") a_heap
             (initial_world 1000)))
   = S (invocations (initial_world 1000))
   <-> policy_calls_client false (a_heap 0%nat))
  /\ (policy_calls_client false (a_heap 0%nat)
      <-> false = true
          \/ contains_cjk (title (a_heap 0%nat))
             || contains_cjk (description (a_heap 0%nat)) = false)
  /\ invocations
       (snd (enrich_news always_429 half some_key false 6000 loads_table
               identity identity no_template [0%nat; 1%nat] (lit "AI")
               a_heap (initial_world 1000)))
     = (invocations (initial_world 1000)
        + policy_count false a_heap [0%nat; 1%nat])%nat.
Proof.
  destruct (client_called_iff_policy always_429 half some_key false 6000
              loads_table identity identity no_template (lit "AI") a_heap
              (initial_world 1000))
    as (Hiff & _ & _ & Hchar & _ & Hcount & _).
  split; [apply Hiff|]. split; [apply Hchar|].
  apply Hcount. vm_compute. reflexivity.
Defined.

(** An entry in Latin script goes to the client, one with an ideograph in
    its title does not. *)
Example latin_entry_calls_client :
  should_use_openrouter false an_entry = true
  /\ should_use_openrouter false
       (set_enrichment
          {| title := [20013%N]; link := []; published_at := None;
             source := None; description := lit "text"; translation := None;
             summary := None; kept_original := true |} [] [] true)
     = false.
Proof. split; reflexivity. Qed.

(** C9: [enrich_news] returns the very list of objects it was given (same
    objects, same order, same length) unless an exception of the client
    path ends it; in either case the objects keep their title, link, time
    stamp, source and description, objects outside the list are not
    touched, and after a return every object of the list carries a
    translation and a summary, written in place. With the client
    unavailable the call always returns. *)
Theorem enrich_news_frame (network : nat -> post_reply)
    (uniform01 : nat -> Q) (key : option str) (force : bool)
    (max_prompt : Z) (json_loads : str -> option json)
    (bs_get_text unescape : str -> str)
    (prompt_template : str -> str -> str) (entries : list loc)
    (topic : str) (h : Heap) (w : World) :
  let res := enrich_news network uniform01 key force max_prompt json_loads
               bs_get_text unescape prompt_template entries topic h w in
  (fst (fst res) = Ok entries \/ exists x, fst (fst res) = Raise x)
  /\ (forall l, same_source_fields (h l) (snd (fst res) l))
  /\ (forall l, ~ In l entries -> snd (fst res) l = h l)
  /\ (fst (fst res) = Ok entries ->
      forall l, In l entries -> enriched_at (snd (fst res)) l)
  /\ (client_unavailable network key -> fst (fst res) = Ok entries).
Proof.
  cbv zeta. unfold enrich_news.
  destruct (enrich_loop_frame network uniform01 key force max_prompt
              json_loads bs_get_text unescape prompt_template entries topic
              [] h w) as (Hr & Hsame & Hout & _ & Hnew).
  cbn [app] in Hr, Hnew.
  split; [exact Hr|]. split; [exact Hsame|]. split; [exact Hout|].
  split; [exact Hnew|].
  intros Hun.
  apply (enrich_loop_unavailable network uniform01 key force max_prompt
           json_loads bs_get_text unescape prompt_template entries topic []
           h w Hun).
Qed.

Lemma enrich_news_frame_witness :
  fst (fst (enrich_news always_429 half some_key false 6000 loads_table
              identity identity no_template [0%nat; 1%nat] (lit "AI") a_heap
              (initial_world 1000)))
  = Ok [0%nat; 1%nat]
  /\ same_source_fields (a_heap 0%nat)
       (snd (fst (enrich_news always_429 half some_key false 6000
                    loads_table identity identity no_template
                    [0%nat; 1%nat] (lit "AI") a_heap (initial_world 1000)))
          0%nat)
  /\ snd (fst (enrich_news always_429 half some_key false 6000 loads_table
                 identity identity no_template [0%nat; 1%nat] (lit "AI")
                 a_heap (initial_world 1000))) 2%nat
     = a_heap 2%nat
  /\ enriched_at
       (snd (fst (enrich_news always_429 half some_key false 6000
                    loads_table identity identity no_template
                    [0%nat; 1%nat] (lit "AI") a_heap (initial_world 1000))))
       1%nat.
Proof.
  destruct (enrich_news_frame always_429 half some_key false 6000
              loads_table identity identity no_template [0%nat; 1%nat]
              (lit "AI") a_heap (initial_world 1000))
    as (_ & Hsame & Hout & Hnew & Hret).
  assert (Hok : fst (fst (enrich_news always_429 half some_key false 6000
                            loads_table identity identity no_template
                            [0%nat; 1%nat] (lit "AI") a_heap
                            (initial_world 1000)))
                = Ok [0%nat; 1%nat]).
  { apply Hret. right. intros n. reflexivity. }
  split; [exact Hok|]. split; [apply Hsame|].
  split.
  - apply Hout. cbn [In]. lia.
  - apply (Hnew Hok). right. left. reflexivity.
Defined.

End EnrichClaims.

(** * Further properties *)

(** ** The retry loop of the client *)

Module ClientExtras.
Import ClientSpec ClientFacts.

Section Retry.

Variable network : nat -> post_reply.
Variable uniform01 : nat -> Q.

Lemma do_post_length w :
  length (posts (snd (do_post network w))) = S (length (posts w)).
Proof. unfold do_post. now destruct (outcome _). Qed.

Lemma do_post_draws w : draws (snd (do_post network w)) = draws w.
Proof. unfold do_post. now destruct (outcome _). Qed.

Lemma pace_draws w : draws (pace w) = draws w.
Proof. unfold pace. now destruct (Qltb _ _). Qed.

(** One iteration whose request fails goes on with the next attempt, after
    the back-off. *)
Lemma attempts_step_fails remaining attempt w :
  fails (outcome (network (length (posts w)))) = true ->
  attempts network uniform01 (S remaining) attempt w
  = attempts network uniform01 remaining (S attempt)
      (backoff_sleep uniform01 attempt (snd (do_post network (pace w)))).
Proof.
  intros Hf. cbn [attempts].
  pose proof (do_post_outcome network (pace w)) as Ho.
  rewrite pace_posts in Ho.
  destruct (do_post network (pace w)) as [o w1]. cbn [fst snd] in *.
  rewrite <- Ho in Hf. destruct o as [|status_code body]; [reflexivity|].
  cbn [fails] in Hf.
  destruct (status_code =? 429); [reflexivity|].
  destruct (raises_for_status status_code); [reflexivity|].
  destruct body; [discriminate Hf | reflexivity].
Qed.

(** One iteration whose request is answered ends the loop. *)
Lemma attempts_step_answered remaining attempt w status_code data :
  outcome (network (length (posts w))) = PostReturns status_code (Some data) ->
  fails (PostReturns status_code (Some data)) = false ->
  attempts network uniform01 (S remaining) attempt w
  = (content_of data, snd (do_post network (pace w))).
Proof.
  intros Hout Hf. cbn [attempts].
  pose proof (do_post_outcome network (pace w)) as Ho.
  rewrite pace_posts, Hout in Ho.
  destruct (do_post network (pace w)) as [o w1]. cbn [fst snd] in *.
  subst o. cbn [fails] in Hf.
  destruct (status_code =? 429); [discriminate Hf|].
  destruct (raises_for_status status_code); [discriminate Hf|].
  reflexivity.
Qed.

Lemma attempts_requests_bound remaining : forall attempt w,
  (length (posts (snd (attempts network uniform01 remaining attempt w)))
   <= length (posts w) + remaining)%nat.
Proof.
  induction remaining as [|n IH]; intros attempt w; cbn [attempts];
    [cbn; lia|].
  pose proof (do_post_length (pace w)) as Hl. rewrite pace_posts in Hl.
  destruct (do_post network (pace w)) as [o w1]. cbn [snd] in Hl.
  assert (Hretry :
    (length (posts (snd (attempts network uniform01 n (S attempt)
                           (backoff_sleep uniform01 attempt w1))))
     <= length (posts w) + S n)%nat).
  { etransitivity; [apply IH|]. rewrite backoff_sleep_posts. lia. }
  destruct o as [|status_code body]; [exact Hretry|].
  destruct (status_code =? 429); [exact Hretry|].
  destruct (raises_for_status status_code); [exact Hretry|].
  destruct body; [cbn [snd]; lia | exact Hretry].
Qed.

Lemma attempts_exhausted_counts remaining : forall attempt w,
  (forall n, fails (outcome (network n)) = true) ->
  length (posts (snd (attempts network uniform01 remaining attempt w)))
  = (length (posts w) + remaining)%nat
  /\ draws (snd (attempts network uniform01 remaining attempt w))
     = (draws w + remaining)%nat.
Proof.
  induction remaining as [|n IH]; intros attempt w Hf.
  - cbn. lia.
  - rewrite attempts_step_fails by apply Hf.
    destruct (IH (S attempt)
                (backoff_sleep uniform01 attempt
                   (snd (do_post network (pace w)))) Hf) as [Hp Hd].
    rewrite Hp, Hd. rewrite backoff_sleep_posts, do_post_length, pace_posts.
    cbn [backoff_sleep draws sleep].
    rewrite do_post_draws, pace_draws. lia.
Qed.

(** The loop returns the content of the first reply that does not fail. *)
Lemma attempts_first_usable k : forall remaining attempt w status_code data,
  (k < remaining)%nat ->
  (forall i, (i < k)%nat ->
     fails (outcome (network (length (posts w) + i))) = true) ->
  outcome (network (length (posts w) + k))
  = PostReturns status_code (Some data) ->
  fails (PostReturns status_code (Some data)) = false ->
  fst (attempts network uniform01 remaining attempt w) = content_of data
  /\ length (posts (snd (attempts network uniform01 remaining attempt w)))
     = (length (posts w) + k + 1)%nat
  /\ draws (snd (attempts network uniform01 remaining attempt w))
     = (draws w + k)%nat.
Proof.
  induction k as [|k IH]; intros remaining attempt w status_code data
    Hlt Hfail Hout Husable;
    (destruct remaining as [|remaining]; [lia|]).
  - rewrite Nat.add_0_r in Hout.
    rewrite (attempts_step_answered _ _ _ _ _ Hout Husable).
    cbn [fst snd].
    rewrite do_post_length, do_post_draws, pace_posts, pace_draws.
    repeat split; lia.
  - rewrite attempts_step_fails.
    2:{ specialize (Hfail 0%nat ltac:(lia)).
        now rewrite Nat.add_0_r in Hfail. }
    set (w' := backoff_sleep uniform01 attempt
                 (snd (do_post network (pace w)))).
    assert (Hlen : length (posts w') = S (length (posts w))).
    { unfold w'. now rewrite backoff_sleep_posts, do_post_length,
        pace_posts. }
    assert (Hdr : draws w' = S (draws w)).
    { unfold w'. cbn [backoff_sleep draws sleep].
      now rewrite do_post_draws, pace_draws. }
    destruct (IH remaining (S attempt) w' status_code data) as (Hr & Hp & Hd).
    + lia.
    + intros i Hi. rewrite Hlen.
      replace (S (length (posts w)) + i)%nat
        with (length (posts w) + S i)%nat by lia.
      apply Hfail. lia.
    + rewrite Hlen.
      now replace (S (length (posts w)) + k)%nat
        with (length (posts w) + S k)%nat by lia.
    + exact Husable.
    + rewrite Hr, Hp, Hd, Hlen, Hdr. repeat split; lia.
Qed.

End Retry.

Lemma call_requests_bound (network : nat -> post_reply)
    (uniform01 : nat -> Q) (key : option str) (messages : list (str * str))
    (temperature : Q) (w : World) :
  (length (posts (snd (call_openrouter network uniform01 key messages
                         temperature w)))
   <= length (posts w) + 5)%nat.
Proof.
  unfold call_openrouter.
  destruct (negb (opt_truthy key)); [cbn; lia|].
  apply (attempts_requests_bound network uniform01
           OPENROUTER_MAX_RETRIES 0 (enter w)).
Qed.

(** X1: one call of the client calls [REQUEST_SESSION.post] at most
    [OPENROUTER_MAX_RETRIES] times; when every call of [post] fails
    (exception, 429, error status, body that is not JSON) it calls [post]
    exactly that many times, draws one random number per failure and
    returns [None]. The count is of calls of [post] by the loop of lines
    472 to 496: the HTTP requests that the session's adapter sends again
    inside one call of [post] are not counted. *)
Theorem call_posts_at_most_five_times (network : nat -> post_reply)
    (uniform01 : nat -> Q) (key : option str) (messages : list (str * str))
    (temperature : Q) (w : World) :
  (length (posts (snd (call_openrouter network uniform01 key messages
                         temperature w)))
   <= length (posts w) + 5)%nat
  /\ (opt_truthy key = true ->
      (forall n, fails (outcome (network n)) = true) ->
      fst (call_openrouter network uniform01 key messages temperature w)
      = Ok JNull
      /\ length (posts (snd (call_openrouter network uniform01 key messages
                               temperature w)))
         = (length (posts w) + 5)%nat
      /\ draws (snd (call_openrouter network uniform01 key messages
                       temperature w))
         = (draws w + 5)%nat).
Proof.
  split; [apply call_requests_bound|]. unfold call_openrouter.
  intros Hkey Hfail. rewrite Hkey. cbn [negb].
  split; [now apply attempts_exhausted|].
  apply (attempts_exhausted_counts network uniform01
           OPENROUTER_MAX_RETRIES 0 (enter w) Hfail).
Qed.

Lemma call_posts_at_most_five_times_witness :
  fst (call_openrouter always_429 half some_key [] (2 # 10)
         (initial_world 1000)) = Ok JNull
  /\ length (posts (snd (call_openrouter always_429 half some_key []
                           (2 # 10) (initial_world 1000))))
     = (length (posts (initial_world 1000)) + 5)%nat
  /\ draws (snd (call_openrouter always_429 half some_key [] (2 # 10)
                   (initial_world 1000)))
     = (draws (initial_world 1000) + 5)%nat.
Proof.
  apply (call_posts_at_most_five_times always_429 half some_key []
           (2 # 10) (initial_world 1000)).
  - reflexivity.
  - intros n. reflexivity.
Defined.

(** X2: with a key configured, when the first [k] calls of
    [REQUEST_SESSION.post] made by a call of the client fail and the next
    one ([k < 5]) returns a response with a status that is neither 429 nor
    an error and a JSON body, the call of the client returns
    [data["choices"][0]["message"]["content"]] of that body after [k + 1]
    calls of [post] and [k] back-off sleeps; [post] is not called again. *)
Theorem first_usable_reply_wins (network : nat -> post_reply)
    (uniform01 : nat -> Q) (key : option str) (messages : list (str * str))
    (temperature : Q) (w : World) (k : nat) (status_code : Z)
    (data : json) :
  opt_truthy key = true ->
  (k < 5)%nat ->
  (forall i, (i < k)%nat ->
     fails (outcome (network (length (posts w) + i)%nat)) = true) ->
  outcome (network (length (posts w) + k)%nat)
  = PostReturns status_code (Some data) ->
  fails (PostReturns status_code (Some data)) = false ->
  fst (call_openrouter network uniform01 key messages temperature w)
  = content_of data
  /\ length (posts (snd (call_openrouter network uniform01 key messages
                           temperature w)))
     = (length (posts w) + k + 1)%nat
  /\ draws (snd (call_openrouter network uniform01 key messages
                   temperature w))
     = (draws w + k)%nat.
Proof.
  intros Hkey Hk Hfail Hout Husable. unfold call_openrouter.
  rewrite Hkey. cbn [negb].
  apply (attempts_first_usable network uniform01 k OPENROUTER_MAX_RETRIES 0
           (enter w) status_code data); assumption.
Qed.

Lemma first_usable_reply_wins_witness :
  fst (call_openrouter broken_once half some_key [] (2 # 10)
         (initial_world 1000))
  = content_of (completion (JStr (lit "{}")))
  /\ length (posts (snd (call_openrouter broken_once half some_key []
                           (2 # 10) (initial_world 1000))))
     = (length (posts (initial_world 1000)) + 1 + 1)%nat
  /\ draws (snd (call_openrouter broken_once half some_key [] (2 # 10)
                   (initial_world 1000)))
     = (draws (initial_world 1000) + 1)%nat.
Proof.
  apply (first_usable_reply_wins broken_once half some_key [] (2 # 10)
           (initial_world 1000) 1 200 (completion (JStr (lit "{}")))).
  - reflexivity.
  - lia.
  - intros i Hi. assert (i = 0%nat) as -> by lia. reflexivity.
  - reflexivity.
  - reflexivity.
Defined.

Section Timing.
Import ClientBounds.

Variable network : nat -> post_reply.
Variable uniform01 : nat -> Q.

Lemma pace_clock w :
  (last_openrouter_call w <= clock w ->
   clock w <= clock (pace w) <= clock w + OPENROUTER_MIN_INTERVAL)%Q.
Proof.
  intros Hle. unfold pace, Qltb.
  assert (Hmin : (OPENROUTER_MIN_INTERVAL == 5)%Q) by reflexivity.
  destruct (Qle_bool OPENROUTER_MIN_INTERVAL
              (clock w - last_openrouter_call w)) eqn:E; cbn [negb].
  - lra.
  - cbn [sleep clock].
    assert (Hlt : ~ (OPENROUTER_MIN_INTERVAL
                     <= clock w - last_openrouter_call w)%Q).
    { intros H. apply Qle_bool_iff in H. congruence. }
    lra.
Qed.

Lemma do_post_clock w :
  clock (snd (do_post network w))
  = (clock w + duration (network (length (posts w))))%Q.
Proof. unfold do_post. now destruct (outcome _). Qed.

Lemma do_post_last w :
  (last_openrouter_call w <= clock w ->
   0 <= duration (network (length (posts w))) ->
   last_openrouter_call (snd (do_post network w))
   <= clock (snd (do_post network w)))%Q.
Proof.
  intros Hle Hd. unfold do_post.
  destruct (outcome _); cbn [snd clock last_openrouter_call]; lra.
Qed.

Lemma backoff_sleep_clock attempt w :
  clock (backoff_sleep uniform01 attempt w)
  = (clock w + (backoff_base attempt + uniform01 (draws w)))%Q.
Proof. reflexivity. Qed.

Lemma backoff_base_nonneg attempt : (0 <= backoff_base attempt)%Q.
Proof.
  unfold backoff_base, OPENROUTER_BACKOFF_BASE.
  apply Qmult_le_0_compat; [lra|].
  change 0%Q with (inject_Z 0). rewrite <- Zle_Qle. lia.
Qed.

Lemma worst_time_nonneg limit remaining : forall attempt,
  (0 <= limit -> 0 <= worst_time limit remaining attempt)%Q.
Proof.
  induction remaining as [|n IH]; intros attempt Hl; cbn [worst_time];
    [lra|].
  pose proof (IH (S attempt) Hl). pose proof (backoff_base_nonneg attempt).
  assert (Hmin : (OPENROUTER_MIN_INTERVAL == 5)%Q) by reflexivity.
  lra.
Qed.

(** How long the loop takes at most, whatever the replies. *)
Lemma attempts_time_upper limit remaining : forall attempt w,
  (forall n, 0 <= duration (network n) <= limit)%Q ->
  (forall n, 0 <= uniform01 n <= 1)%Q ->
  (last_openrouter_call w <= clock w)%Q ->
  (clock (snd (attempts network uniform01 remaining attempt w))
   <= clock w + worst_time limit remaining attempt)%Q.
Proof.
  induction remaining as [|n IH]; intros attempt w Hd Hj Hle;
    cbn [attempts worst_time]; [cbn [snd]; lra|].
  pose proof (pace_clock w Hle) as Hp.
  assert (Hle0 : (last_openrouter_call (pace w) <= clock (pace w))%Q)
    by (rewrite pace_last; lra).
  pose proof (do_post_clock (pace w)) as Hc.
  pose proof (do_post_last (pace w) Hle0
                (proj1 (Hd (length (posts (pace w)))))) as Hle1.
  pose proof (Hd (length (posts (pace w)))) as Hdur.
  destruct (do_post network (pace w)) as [o w1]. cbn [snd] in Hc, Hle1.
  assert (Hlimit : (0 <= limit)%Q) by lra.
  pose proof (worst_time_nonneg limit n (S attempt) Hlimit) as Hw.
  pose proof (backoff_base_nonneg attempt) as Hb.
  assert (Hretry :
    (clock (snd (attempts network uniform01 n (S attempt)
                   (backoff_sleep uniform01 attempt w1)))
     <= clock w
        + (OPENROUTER_MIN_INTERVAL + limit + (backoff_base attempt + 1)
           + worst_time limit n (S attempt)))%Q).
  { pose proof (Hj (draws w1)) as Hjit.
    pose proof (IH (S attempt) (backoff_sleep uniform01 attempt w1) Hd Hj)
      as Hrec.
    rewrite backoff_sleep_clock in Hrec.
    cbn [backoff_sleep last_openrouter_call sleep] in Hrec.
    rewrite Hc in Hrec.
    assert (Hpre : (last_openrouter_call w1
                    <= clock (pace w)
                       + duration (network (length (posts (pace w))))
                       + (backoff_base attempt + uniform01 (draws w1)))%Q).
    { rewrite Hc in Hle1. lra. }
    specialize (Hrec Hpre). lra. }
  destruct o as [|status_code body]; [exact Hretry|].
  destruct (status_code =? 429); [exact Hretry|].
  destruct (raises_for_status status_code); [exact Hretry|].
  destruct body; [|exact Hretry].
  cbn [snd]. rewrite Hc. lra.
Qed.

(** How long the loop takes at least when every request fails. *)
Lemma attempts_time_lower remaining : forall attempt w,
  (forall n, fails (outcome (network n)) = true) ->
  (forall n, 0 <= duration (network n))%Q ->
  (forall n, 0 <= uniform01 n)%Q ->
  (last_openrouter_call w <= clock w)%Q ->
  (clock w + backoff_total remaining attempt
   <= clock (snd (attempts network uniform01 remaining attempt w)))%Q.
Proof.
  induction remaining as [|n IH]; intros attempt w Hf Hd Hj Hle;
    [cbn; lra|].
  rewrite attempts_step_fails by apply Hf.
  cbn [backoff_total].
  pose proof (pace_clock w Hle) as Hp.
  assert (Hle0 : (last_openrouter_call (pace w) <= clock (pace w))%Q)
    by (rewrite pace_last; lra).
  pose proof (do_post_clock (pace w)) as Hc.
  pose proof (do_post_last (pace w) Hle0 (Hd _)) as Hle1.
  pose proof (Hd (length (posts (pace w)))) as Hdur.
  set (w1 := snd (do_post network (pace w))) in *.
  assert (Hceq : (clock w1 == clock (pace w)
                    + duration (network (length (posts (pace w)))))%Q)
    by (rewrite Hc; reflexivity).
  pose proof (Hj (draws w1)) as Hjit.
  pose proof (backoff_base_nonneg attempt) as Hb.
  pose proof (IH (S attempt) (backoff_sleep uniform01 attempt w1) Hf Hd Hj)
    as Hrec.
  rewrite backoff_sleep_clock in Hrec.
  cbn [backoff_sleep last_openrouter_call sleep] in Hrec.
  assert (Hpre : (last_openrouter_call w1
                  <= clock w1
                     + (backoff_base attempt + uniform01 (draws w1)))%Q)
    by lra.
  specialize (Hrec Hpre). lra.
Qed.

End Timing.

(** X3: on a clock that is not behind the recorded time stamp, with
    calls of [REQUEST_SESSION.post] that take between 0 and [limit] seconds
    each (the library's own re-sending included) and jitter between 0
    and 1, a call of the client takes at most [123 + 5 * limit] seconds;
    when every call of [post] fails it takes at least 93 seconds
    ([3 + 6 + 12 + 24 + 48]), the last back-off being slept before the
    call gives up. *)
Theorem call_duration_bounds (network : nat -> post_reply)
    (uniform01 : nat -> Q) (key : option str) (messages : list (str * str))
    (temperature : Q) (w : World) (limit : Q) :
  (forall n, 0 <= duration (network n) <= limit)%Q ->
  (forall n, 0 <= uniform01 n <= 1)%Q ->
  (last_openrouter_call w <= clock w)%Q ->
  (clock (snd (call_openrouter network uniform01 key messages
                 temperature w))
   <= clock w + (123 + 5 * limit))%Q
  /\ (opt_truthy key = true ->
      (forall n, fails (outcome (network n)) = true) ->
      (clock w + 93
       <= clock (snd (call_openrouter network uniform01 key messages
                        temperature w)))%Q).
Proof.
  intros Hd Hj Hle. unfold call_openrouter. split.
  - assert (Hlimit : (0 <= limit)%Q) by (specialize (Hd 0%nat); lra).
    destruct (negb (opt_truthy key)); [cbn [snd enter clock]; lra|].
    pose proof (attempts_time_upper network uniform01 limit
                  OPENROUTER_MAX_RETRIES 0 (enter w) Hd Hj Hle) as Hup.
    cbn [enter clock] in Hup.
    assert (Hworst : (ClientBounds.worst_time limit OPENROUTER_MAX_RETRIES 0
                      == 123 + 5 * limit)%Q).
    { unfold OPENROUTER_MAX_RETRIES. cbn [ClientBounds.worst_time].
      assert (H0 : (ClientBounds.backoff_base 0 == 3)%Q) by reflexivity.
      assert (H1 : (ClientBounds.backoff_base 1 == 6)%Q) by reflexivity.
      assert (H2 : (ClientBounds.backoff_base 2 == 12)%Q) by reflexivity.
      assert (H3 : (ClientBounds.backoff_base 3 == 24)%Q) by reflexivity.
      assert (H4 : (ClientBounds.backoff_base 4 == 48)%Q) by reflexivity.
      assert (Hmin : (OPENROUTER_MIN_INTERVAL == 5)%Q) by reflexivity.
      rewrite H0, H1, H2, H3, H4, Hmin. lra. }
    rewrite Hworst in Hup. exact Hup.
  - intros Hkey Hf. rewrite Hkey. cbn [negb].
    pose proof (attempts_time_lower network uniform01
                  OPENROUTER_MAX_RETRIES 0 (enter w) Hf
                  (fun n => proj1 (Hd n)) (fun n => proj1 (Hj n)) Hle)
      as Hlow.
    cbn [enter clock] in Hlow.
    assert (Htotal : (ClientBounds.backoff_total OPENROUTER_MAX_RETRIES 0
                      == 93)%Q) by reflexivity.
    rewrite Htotal in Hlow. exact Hlow.
Qed.

Lemma call_duration_bounds_witness :
  (clock (snd (call_openrouter ClientBounds.quick_timeout half some_key []
                 (2 # 10) (initial_world 1000)))
   <= clock (initial_world 1000) + (123 + 5 * 2))%Q
  /\ (clock (initial_world 1000) + 93
      <= clock (snd (call_openrouter ClientBounds.quick_timeout half
                       some_key [] (2 # 10) (initial_world 1000))))%Q.
Proof.
  destruct (call_duration_bounds ClientBounds.quick_timeout half some_key []
              (2 # 10) (initial_world 1000) 2) as [Hup Hlow].
  - intros n. cbn. lra.
  - intros n. unfold half. lra.
  - cbn. lra.
  - split; [exact Hup|]. apply Hlow; [reflexivity|]. intros n. reflexivity.
Defined.

End ClientExtras.

(** ** The enrichment loop as a whole *)

Module EnrichExtras.
Import ClientSpec ClientFacts ClientExtras EnrichSpec EnrichFacts
  EnrichBounds EnrichSamples.

Lemma local_summary_not_empty text title max_chars :
  local_summary text title max_chars <> [].
Proof.
  unfold local_summary.
  destruct (negb (PyStr.truthy (strip text))).
  - destruct (opt_truthy title); discriminate.
  - destruct (_ && _); discriminate.
Qed.

Lemma or_else_empty a b : or_else a b = [] -> a = [] /\ b = [].
Proof. unfold or_else. destruct a; cbn; [auto | discriminate]. Qed.

Lemma should_use_same_source force a b :
  same_source_fields a b ->
  should_use_openrouter force a = should_use_openrouter force b.
Proof.
  intros (Ht & _ & _ & _ & Hd).
  unfold should_use_openrouter, combined_text. now rewrite Ht, Hd.
Qed.

Section Loop.

Variable network : nat -> post_reply.
Variable uniform01 : nat -> Q.
Variable key : option str.
Variable force : bool.
Variable max_prompt : Z.
Variable json_loads : str -> option json.
Variable bs_get_text unescape : str -> str.
Variable prompt_template : str -> str -> str.

Local Abbreviation translate :=
  (translate_and_summarize network uniform01 key max_prompt json_loads
     bs_get_text unescape prompt_template).
Local Abbreviation entry_step :=
  (enrich_entry network uniform01 key force max_prompt json_loads
     bs_get_text unescape prompt_template).
Local Abbreviation loop :=
  (enrich_loop network uniform01 key force max_prompt json_loads
     bs_get_text unescape prompt_template).

(** The state of the client after [translate_and_summarize] is the state
    after its one call of the client. *)
Lemma translate_world entry topic h w :
  snd (translate entry topic h w)
  = snd (call_openrouter network uniform01 key
           [(lit "user", prompt_of max_prompt prompt_template (h entry)
                           topic)] (2 # 10) w).
Proof.
  unfold translate_and_summarize.
  destruct (call_openrouter _ _ _ _ _ w) as [r w1].
  now destruct (bind r _) as [[t0 s0]|x].
Qed.

(** The state of the client after one step of the loop. *)
Lemma entry_step_world entry topic h w :
  snd (entry_step entry topic h w)
  = if should_use_openrouter force (h entry)
    then snd (call_openrouter network uniform01 key
                [(lit "user", prompt_of max_prompt prompt_template
                                (h entry) topic)] (2 # 10) w)
    else w.
Proof.
  unfold enrich_entry.
  destruct (should_use_openrouter force (h entry)); [|reflexivity].
  apply translate_world.
Qed.

(** What one step writes when it returns. *)
Lemma entry_step_writes entry topic h w h' :
  fst (entry_step entry topic h w) = (Ok entry, h') ->
  exists e', h' = store h entry e'
             /\ same_source_fields (h entry) e' /\ well_enriched e'.
Proof.
  unfold enrich_entry.
  destruct (should_use_openrouter force (h entry)).
  - unfold translate_and_summarize.
    destruct (call_openrouter _ _ _ _ _ w) as [r w1].
    destruct (bind r _) as [[t0 s0]|x]; cbn [fst]; [|discriminate].
    intros [= <-]. eexists. split; [reflexivity|].
    split; [unfold same_source_fields; cbn; auto|].
    set (t1 := if opt_truthy t0
               then Some (strip_html bs_get_text unescape (opt_str t0))
               else t0).
    unfold well_enriched. cbn [set_enrichment translation summary
      description title kept_original].
    eexists. eexists. split; [reflexivity|]. split; [reflexivity|].
    split.
    { destruct (opt_truthy s0) eqn:Es; [|discriminate].
      destruct s0 as [[|c r0]|]; cbn in Es |- *; congruence. }
    destruct (opt_truthy t1) eqn:Et; cbn [negb].
    + assert (Hne : opt_str t1 <> [])
        by (destruct t1 as [[|c r0]|]; cbn in Et |- *; congruence).
      split; [intros H; contradiction|]. split; [discriminate|auto].
    + split; [apply or_else_empty|]. split; [auto|discriminate].
  - cbn [fst]. intros [= <-]. eexists. split; [reflexivity|].
    split; [unfold same_source_fields; cbn; auto|].
    unfold well_enriched. cbn [set_enrichment translation summary
      description title kept_original].
    eexists. eexists. split; [reflexivity|]. split; [reflexivity|].
    split; [apply local_summary_not_empty|].
    split; [apply or_else_empty|]. split; [auto|discriminate].
Qed.

Lemma well_enriched_store h entry e' l :
  well_enriched e' -> well_enriched (h l) \/ l = entry ->
  well_enriched (store h entry e' l).
Proof.
  intros He Hl. unfold store.
  destruct (Nat.eqb_spec l entry) as [->|Hne]; [exact He|].
  destruct Hl as [Hl|Hl]; [exact Hl | contradiction].
Qed.

(** The loop over a list: requests, pacing, and what the entries carry. *)
Lemma enrich_loop_run entries : forall topic enriched h w,
  let res := loop entries topic enriched h w in
  (length (posts (snd res))
   <= length (posts w) + 5 * policy_count force h entries)%nat
  /\ (always_responds network -> paced (posts w) -> stamped w ->
      paced (posts (snd res)) /\ stamped (snd res))
  /\ (forall l, well_enriched (h l) -> well_enriched (snd (fst res) l))
  /\ (fst (fst res) = Ok (enriched ++ entries) ->
      forall l, In l entries -> well_enriched (snd (fst res) l)).
Proof.
  induction entries as [|entry rest IH]; intros topic enriched h w;
    cbv zeta; cbn [enrich_loop].
  - cbn [fst snd]. split; [lia|]. split; [auto|]. split; [auto|].
    intros _ l [].
  - pose proof (entry_step_world entry topic h w) as Hw.
    pose proof (entry_step_writes entry topic h w) as Hwr.
    destruct (enrich_entry_shape network uniform01 key force max_prompt
                json_loads bs_get_text unescape prompt_template entry
                topic h w) as (_ & _ & Hshape).
    assert (Hreq : (length (posts (snd (entry_step entry topic h w)))
                    <= length (posts w)
                       + 5 * policy_count force h [entry])%nat).
    { rewrite Hw. unfold policy_count. cbn [List.filter].
      destruct (should_use_openrouter force (h entry)); cbn [length];
        [|lia].
      pose proof (call_requests_bound network uniform01 key
                    [(lit "user", prompt_of max_prompt prompt_template
                                    (h entry) topic)] (2 # 10) w)
        as Hb. lia. }
    assert (Hpace : always_responds network -> paced (posts w) ->
                    stamped w ->
                    paced (posts (snd (entry_step entry topic h w)))
                    /\ stamped (snd (entry_step entry topic h w))).
    { intros Hr Hp Hs. rewrite Hw.
      destruct (should_use_openrouter force (h entry)); [|now split].
      now apply call_openrouter_paced. }
    destruct (entry_step entry topic h w) as [[r h1] w1].
    cbn [fst snd] in *.
    destruct Hshape as [(x & Hx)|(t & s & k & Hok)].
    + injection Hx as -> ->. cbn [fst snd].
      split.
      { unfold policy_count in *. cbn [List.filter] in *.
        destruct (should_use_openrouter force (h entry));
          cbn [length] in *; lia. }
      split; [exact Hpace|]. split; [auto|discriminate].
    + injection Hok as -> Hh1.
      destruct (Hwr h1 ltac:(now rewrite Hh1)) as (e' & -> & Hsame & Hwell).
      specialize (IH topic (enriched ++ [entry]) (store h entry e') w1).
      cbv zeta in IH. rewrite <- app_assoc in IH. cbn [app] in IH.
      destruct IH as (Hb & Hp & Hkeep & Hnew).
      assert (Hcount : policy_count force (store h entry e') rest
                       = policy_count force h rest).
      { unfold policy_count. f_equal. apply filter_ext. intros l.
        apply should_use_same_source. unfold store.
        destruct (Nat.eqb_spec l entry) as [->|_];
          [|apply same_source_fields_refl].
        unfold same_source_fields in *. intuition congruence. }
      split.
      { rewrite Hcount in Hb.
        unfold policy_count in *. cbn [List.filter] in *.
        destruct (should_use_openrouter force (h entry));
          cbn [length] in *; lia. }
      split.
      { intros Hr Hp0 Hs0. destruct (Hpace Hr Hp0 Hs0) as [Hp1 Hs1].
        now apply Hp. }
      split.
      { intros l Hl. apply Hkeep, well_enriched_store; auto. }
      intros Hok l [<-|Hl].
      * apply Hkeep, well_enriched_store; auto.
      * now apply Hnew.
Qed.

(** Without a key the loop leaves clock, time stamp and trace alone. *)
Lemma enrich_loop_offline entries : forall topic enriched h w,
  opt_truthy key = false ->
  posts (snd (loop entries topic enriched h w)) = posts w
  /\ clock (snd (loop entries topic enriched h w)) = clock w
  /\ last_openrouter_call (snd (loop entries topic enriched h w))
     = last_openrouter_call w
  /\ draws (snd (loop entries topic enriched h w)) = draws w.
Proof.
  induction entries as [|entry rest IH]; intros topic enriched h w Hkey;
    cbn [enrich_loop]; [now cbn|].
  pose proof (entry_step_world entry topic h w) as Hw.
  assert (Hsame : posts (snd (entry_step entry topic h w)) = posts w
                  /\ clock (snd (entry_step entry topic h w)) = clock w
                  /\ last_openrouter_call (snd (entry_step entry topic h w))
                     = last_openrouter_call w
                  /\ draws (snd (entry_step entry topic h w)) = draws w).
  { rewrite Hw. destruct (should_use_openrouter force (h entry)); [|auto].
    unfold call_openrouter. rewrite Hkey. cbn. auto. }
  destruct (entry_step entry topic h w) as [[[l|x] h1] w1];
    cbn [fst snd] in *; [|exact Hsame].
  destruct (IH topic (enriched ++ [l]) h1 w1 Hkey) as (H1 & H2 & H3 & H4).
  destruct Hsame as (G1 & G2 & G3 & G4).
  rewrite H1, H2, H3, H4. auto.
Qed.

(** With the client unavailable every entry of the list ends with
    [kept_original] set. *)
Lemma enrich_loop_keeps_original entries : forall topic enriched h w,
  client_unavailable network key ->
  forall l, kept_original (h l) = true \/ In l entries ->
            kept_original (snd (fst (loop entries topic enriched h w)) l)
            = true.
Proof.
  induction entries as [|entry rest IH]; intros topic enriched h w Hun l Hl;
    cbn [enrich_loop].
  - cbn [fst snd]. destruct Hl as [Hl|[]]. exact Hl.
  - assert (Hstep : fst (entry_step entry topic h w)
                    = (Ok entry,
                       store h entry
                         (if should_use_openrouter force (h entry)
                          then kept_original_enrichment (h entry)
                          else local_enrichment (h entry)))).
    { unfold enrich_entry.
      destruct (should_use_openrouter force (h entry)); [|reflexivity].
      now apply translate_and_summarize_unavailable. }
    destruct (entry_step entry topic h w) as [[r h1] w1].
    cbn [fst] in Hstep. injection Hstep as -> ->.
    apply IH; [exact Hun|].
    unfold store. destruct (Nat.eqb_spec l entry) as [->|Hne].
    + left. now destruct (should_use_openrouter force (h entry)).
    + destruct Hl as [Hl|[Hl|Hl]]; [now left | congruence | now right].
Qed.

End Loop.

(** X4: as long as no call of [REQUEST_SESSION.post] of the run raises
    (whatever the status of the response), [enrich_news] keeps the calls of
    [post] paced across entries: in the trace after the call any two
    consecutive calls of [post], also those made for different entries,
    are at least the minimum interval apart (from the return of one to the
    entry of the next), and the time stamp is the return of the last one.
    The trace holds calls of [post]: the spacing of the HTTP requests that
    the session's adapter sends again inside one call is not covered. *)
Theorem enrich_news_posts_paced (network : nat -> post_reply)
    (uniform01 : nat -> Q) (key : option str) (force : bool)
    (max_prompt : Z) (json_loads : str -> option json)
    (bs_get_text unescape : str -> str)
    (prompt_template : str -> str -> str) (entries : list loc)
    (topic : str) (h : Heap) (w : World) :
  always_responds network -> paced (posts w) -> stamped w ->
  paced (posts (snd (enrich_news network uniform01 key force max_prompt
                       json_loads bs_get_text unescape prompt_template
                       entries topic h w)))
  /\ stamped (snd (enrich_news network uniform01 key force max_prompt
                     json_loads bs_get_text unescape prompt_template
                     entries topic h w)).
Proof.
  unfold enrich_news.
  destruct (enrich_loop_run network uniform01 key force max_prompt
              json_loads bs_get_text unescape prompt_template entries topic
              [] h w) as (_ & Hp & _).
  exact Hp.
Qed.

Lemma enrich_news_posts_paced_witness :
  paced (posts (snd (enrich_news good_reply half some_key false 6000
                       loads_good identity identity no_template
                       [0%nat; 1%nat] (lit "AI") a_heap
                       (initial_world 1000))))
  /\ stamped (snd (enrich_news good_reply half some_key false 6000
                     loads_good identity identity no_template
                     [0%nat; 1%nat] (lit "AI") a_heap
                     (initial_world 1000))).
Proof.
  apply (enrich_news_posts_paced good_reply half some_key false 6000
           loads_good identity identity no_template [0%nat; 1%nat]
           (lit "AI") a_heap (initial_world 1000)).
  - intros n. discriminate.
  - exact I.
  - exact I.
Defined.

(** X5: [enrich_news] calls [REQUEST_SESSION.post] at most five times for
    each entry of its list that the decision rule sends to the client, and
    never for the others. The bound is on calls of [post], not on the HTTP
    requests that the session's adapter may send again inside a call. *)
Theorem enrich_news_post_budget (network : nat -> post_reply)
    (uniform01 : nat -> Q) (key : option str) (force : bool)
    (max_prompt : Z) (json_loads : str -> option json)
    (bs_get_text unescape : str -> str)
    (prompt_template : str -> str -> str) (entries : list loc)
    (topic : str) (h : Heap) (w : World) :
  (length (posts (snd (enrich_news network uniform01 key force max_prompt
                         json_loads bs_get_text unescape prompt_template
                         entries topic h w)))
   <= length (posts w) + 5 * policy_count force h entries)%nat.
Proof.
  unfold enrich_news.
  destruct (enrich_loop_run network uniform01 key force max_prompt
              json_loads bs_get_text unescape prompt_template entries topic
              [] h w) as (Hb & _).
  exact Hb.
Qed.

(** X6: without [OPENROUTER_KEY] (unset or empty) [enrich_news] returns its
    list, sends no request, does not sleep and does not touch the time
    stamp; every entry of the list ends with [kept_original] set and its
    own description (its title when that is empty) as translation. *)
Theorem enrich_news_without_key (network : nat -> post_reply)
    (uniform01 : nat -> Q) (key : option str) (force : bool)
    (max_prompt : Z) (json_loads : str -> option json)
    (bs_get_text unescape : str -> str)
    (prompt_template : str -> str -> str) (entries : list loc)
    (topic : str) (h : Heap) (w : World) :
  opt_truthy key = false ->
  let res := enrich_news network uniform01 key force max_prompt json_loads
               bs_get_text unescape prompt_template entries topic h w in
  fst (fst res) = Ok entries
  /\ posts (snd res) = posts w
  /\ clock (snd res) = clock w
  /\ last_openrouter_call (snd res) = last_openrouter_call w
  /\ (forall l, In l entries ->
        kept_original (snd (fst res) l) = true
        /\ translation (snd (fst res) l)
           = Some (or_else (description (h l)) (title (h l)))).
Proof.
  intros Hkey. cbv zeta. unfold enrich_news.
  assert (Hun : client_unavailable network key) by now left.
  pose proof (enrich_loop_unavailable network uniform01 key force max_prompt
                json_loads bs_get_text unescape prompt_template entries
                topic [] h w Hun) as Hok.
  cbn [app] in Hok.
  destruct (enrich_loop_offline network uniform01 key force max_prompt
              json_loads bs_get_text unescape prompt_template entries topic
              [] h w Hkey) as (Hp & Hc & Hl & _).
  split; [exact Hok|]. split; [exact Hp|]. split; [exact Hc|].
  split; [exact Hl|].
  intros l Hin.
  pose proof (enrich_loop_keeps_original network uniform01 key force
                max_prompt json_loads bs_get_text unescape prompt_template
                entries topic [] h w Hun l (or_intror Hin)) as Hkept.
  split; [exact Hkept|].
  destruct (enrich_loop_run network uniform01 key force max_prompt
              json_loads bs_get_text unescape prompt_template entries topic
              [] h w) as (_ & _ & _ & Hnew).
  destruct (Hnew Hok l Hin) as (t & s & Ht & _ & _ & _ & Hown & _).
  destruct (enrich_loop_frame network uniform01 key force max_prompt
              json_loads bs_get_text unescape prompt_template entries topic
              [] h w) as (_ & Hsame & _).
  destruct (Hsame l) as (Htitle & _ & _ & _ & Hdesc).
  rewrite Ht, (Hown Hkept), Htitle, Hdesc. reflexivity.
Qed.

Lemma enrich_news_without_key_witness :
  fst (fst (enrich_news good_reply half None false 6000 loads_good identity
              identity no_template [0%nat] (lit "AI") a_heap
              (initial_world 1000)))
  = Ok [0%nat]
  /\ posts (snd (enrich_news good_reply half None false 6000 loads_good
                   identity identity no_template [0%nat] (lit "AI") a_heap
                   (initial_world 1000)))
     = posts (initial_world 1000).
Proof.
  destruct (enrich_news_without_key good_reply half None false 6000
              loads_good identity identity no_template [0%nat] (lit "AI")
              a_heap (initial_world 1000) eq_refl) as (Hok & Hp & _).
  split; [exact Hok | exact Hp].
Defined.



(** The reply of the example is used: the translation is the trimmed text
    of the reply and [kept_original] is cleared. *)
Example good_reply_is_used :
  let e := snd (fst (enrich_news good_reply half some_key false 6000
                       loads_good identity identity no_template [0%nat]
                       (lit "AI") a_heap (initial_world 1000))) 0%nat in
  translation e = Some (lit "Ein Arm") /\ summary e = Some (lit "Kurz.")
  /\ kept_original e = false.
Proof. vm_compute. auto. Qed.

End EnrichExtras.

(** ** Text: the JSON fallback and the local summary *)

Module TextExtras.
Import SummarySpec SummaryFacts.

Lemma find_first (c : N) (pre rest : str) :
  ~ In c pre -> find c (pre ++ c :: rest) = Some (length pre).
Proof.
  induction pre as [|d r IH]; cbn [app find length In]; intros Hnot.
  - now rewrite N.eqb_refl.
  - destruct (N.eqb_spec d c) as [->|_]; [exfalso; apply Hnot; now left|].
    rewrite IH by tauto. reflexivity.
Qed.

Lemma rfind_none (c : N) (s : str) : ~ In c s -> rfind c s = None.
Proof.
  induction s as [|d r IH]; cbn [rfind In]; intros Hnot; [reflexivity|].
  rewrite IH by tauto.
  destruct (N.eqb_spec d c) as [->|_]; [exfalso; apply Hnot; now left|].
  reflexivity.
Qed.

Lemma rfind_last (c : N) (pre post : str) :
  ~ In c post -> rfind c (pre ++ c :: post) = Some (length pre).
Proof.
  intros Hnot. induction pre as [|d r IH]; cbn [app rfind length].
  - rewrite rfind_none by exact Hnot. now rewrite N.eqb_refl.
  - now rewrite IH.
Qed.

(** X8: for a reply text that [json.loads] rejects as a whole, the
    fallback of [extract_json_from_text] parses exactly the part from the
    first opening brace to the last closing brace, both included, and
    returns its value, or [None] when that part is rejected too. *)
Theorem extract_json_between_braces (json_loads : str -> option json)
    (pre mid post : str) :
  ~ In 123%N pre -> ~ In 125%N post ->
  json_loads (pre ++ [123%N] ++ mid ++ [125%N] ++ post) = None ->
  extract_json_from_text json_loads
    (JStr (pre ++ [123%N] ++ mid ++ [125%N] ++ post))
  = Ok match json_loads ([123%N] ++ mid ++ [125%N]) with
       | Some v => v
       | None => JNull
       end.
Proof.
  intros Hpre Hpost Hwhole. unfold extract_json_from_text.
  assert (Htrue : Json.truthy
                    (JStr (pre ++ [123%N] ++ mid ++ [125%N] ++ post))
                  = true) by (destruct pre; reflexivity).
  rewrite Htrue, Hwhole. cbn [negb].
  assert (Hfind : find 123%N (pre ++ [123%N] ++ mid ++ [125%N] ++ post)
                  = Some (length pre)) by now apply find_first.
  assert (Hrfind : rfind 125%N (pre ++ [123%N] ++ mid ++ [125%N] ++ post)
                   = Some (length pre + 1 + length mid)%nat).
  { replace (pre ++ [123%N] ++ mid ++ [125%N] ++ post)
      with ((pre ++ [123%N] ++ mid) ++ 125%N :: post)
      by (now rewrite <- !app_assoc).
    rewrite rfind_last by exact Hpost.
    rewrite !length_app. cbn [length]. f_equal. lia. }
  rewrite Hfind, Hrfind.
  replace (length pre <? length pre + 1 + length mid)%nat with true
    by (symmetry; apply Nat.ltb_lt; lia).
  assert (Hsnip : snippet (pre ++ [123%N] ++ mid ++ [125%N] ++ post)
                    (length pre) (length pre + 1 + length mid)
                  = [123%N] ++ mid ++ [125%N]).
  { unfold snippet. rewrite skipn_app, skipn_all, Nat.sub_diag.
    cbn [skipn app].
    replace (S (length pre + 1 + length mid) - length pre)%nat
      with (length (123%N :: mid ++ [125%N]))
      by (cbn [length]; rewrite length_app; cbn [length]; lia).
    replace (123%N :: mid ++ 125%N :: post)
      with ((123%N :: mid ++ [125%N]) ++ post)
      by (cbn [app]; now rewrite <- app_assoc).
    rewrite firstn_app, Nat.sub_diag, firstn_all. cbn [firstn].
    now rewrite app_nil_r. }
  rewrite Hsnip.
  destruct (json_loads ([123%N] ++ mid ++ [125%N])); reflexivity.
Qed.

Lemma extract_json_between_braces_witness :
  extract_json_from_text EnrichBounds.loads_good
    (JStr (lit "Here: " ++ [123%N] ++ lit "ok" ++ [125%N] ++ lit " done"))
  = Ok match EnrichBounds.loads_good ([123%N] ++ lit "ok" ++ [125%N]) with
       | Some v => v
       | None => JNull
       end.
Proof.
  apply (extract_json_between_braces EnrichBounds.loads_good (lit "Here: ")
           (lit "ok") (lit " done")).
  - vm_compute. intuition discriminate.
  - vm_compute. intuition discriminate.
  - vm_compute. reflexivity.
Defined.

Lemma truncate_length max_chars candidate :
  1 <= max_chars ->
  (length (truncate max_chars candidate) <= Z.to_nat max_chars)%nat.
Proof.
  intros Hpos. unfold truncate.
  destruct (max_chars <? Z.of_nat (length candidate)) eqn:E.
  - rewrite length_app. cbn [ELLIPSIS length].
    pose proof (rstrip_by_length isspace
                  (slice_to candidate (max_chars - 1))) as H1.
    pose proof (slice_to_length candidate (max_chars - 1) ltac:(lia)) as H2.
    unfold rstrip. lia.
  - apply Z.ltb_ge in E. lia.
Qed.

(** X9: for [max_chars >= 1] the local summary is never empty and never
    longer than the label, the stripped title, the dash and [max_chars]
    characters together; without a title it has at most [3 + max_chars]
    characters for a body that is not blank. *)
Theorem local_summary_length (text : str) (title : option str)
    (max_chars : Z) :
  1 <= max_chars ->
  local_summary text title max_chars <> []
  /\ (length (local_summary text title max_chars)
      <= 5 + length (strip (opt_str title)) + Z.to_nat max_chars)%nat
  /\ (strip text <> [] -> opt_truthy title = false ->
      (length (local_summary text title max_chars)
       <= 3 + Z.to_nat max_chars)%nat).
Proof.
  intros Hpos. split; [apply EnrichExtras.local_summary_not_empty|].
  unfold local_summary.
  fold (first_sentence (strip text)).
  fold (truncate max_chars (first_sentence (strip text))).
  pose proof (truncate_length max_chars (first_sentence (strip text)) Hpos)
    as Ht.
  destruct (PyStr.truthy (strip text)) eqn:Eclean; cbn [negb].
  - split.
    + destruct (_ && _); rewrite !length_app; cbn [LABEL DASH length]; lia.
    + intros _ Hno. rewrite Hno. cbn [andb].
      rewrite length_app. cbn [LABEL length]. lia.
  - split.
    + destruct (opt_truthy title); [|cbn [NO_SUMMARY length]; lia].
      rewrite length_app. cbn [LABEL length]. lia.
    + intros Hne. destruct (strip text); [contradiction | discriminate].
Qed.

Lemma local_summary_length_witness :
  local_summary (lit "no terminator here") None 5 <> []
  /\ (length (local_summary (lit "no terminator here") None 5)
      <= 5 + length (strip (opt_str None)) + Z.to_nat 5)%nat
  /\ (length (local_summary (lit "no terminator here") None 5)
      <= 3 + Z.to_nat 5)%nat.
Proof.
  destruct (local_summary_length (lit "no terminator here") None 5
              ltac:(lia)) as (Hne & Hlen & Hshort).
  split; [exact Hne|]. split; [exact Hlen|].
  apply Hshort; [vm_compute; discriminate | reflexivity].
Defined.

(** X21: the prompt holds the title and a body between the two labels;
    for [MAX_PROMPT_CHARS > 0] the body has at most [MAX_PROMPT_CHARS + 2]
    characters and starts with the first [MAX_PROMPT_CHARS] characters of
    the description (of the place holder when the description is empty);
    a description that fits, and every description when
    [MAX_PROMPT_CHARS <= 0], is sent whole. *)
Theorem prompt_body_is_bounded (max_prompt : Z)
    (prompt_template : str -> str -> str) (e : NewsEntry) (topic : str) :
  exists body,
    prompt_of max_prompt prompt_template e topic
    = strip (prompt_template topic
               (TITLE_LABEL ++ title e ++ CONTENT_LABEL ++ body))
    /\ (0 < max_prompt ->
        Z.of_nat (length body) <= max_prompt + 2
        /\ firstn (Z.to_nat max_prompt) body
           = firstn (Z.to_nat max_prompt)
               (or_else (description e) NO_DESCRIPTION))
    /\ (max_prompt <= 0
        \/ Z.of_nat (length (or_else (description e) NO_DESCRIPTION))
           <= max_prompt ->
        body = or_else (description e) NO_DESCRIPTION).
Proof.
  unfold prompt_of.
  set (b0 := or_else (description e) NO_DESCRIPTION).
  destruct ((0 <? max_prompt) && (max_prompt <? Z.of_nat (length b0)))
    eqn:E.
  - apply andb_true_iff in E as [E1 E2].
    apply Z.ltb_lt in E1, E2.
    exists (slice_to b0 max_prompt ++ PROMPT_ELLIPSIS).
    split; [reflexivity|].
    assert (Hslice : slice_to b0 max_prompt = firstn (Z.to_nat max_prompt) b0).
    { unfold slice_to.
      now replace (0 <=? max_prompt) with true
        by (symmetry; apply Z.leb_le; lia). }
    assert (Hlen : length (firstn (Z.to_nat max_prompt) b0)
                   = Z.to_nat max_prompt)
      by (rewrite length_firstn; lia).
    split.
    + intros _. rewrite Hslice. split.
      * rewrite length_app, Hlen. cbn [PROMPT_ELLIPSIS length]. lia.
      * rewrite firstn_app, Hlen, Nat.sub_diag. cbn [firstn].
        rewrite app_nil_r. rewrite firstn_firstn. f_equal. lia.
    + intros [H|H]; lia.
  - exists b0. split; [reflexivity|]. split; [|reflexivity].
    intros Hpos. split; [|reflexivity].
    apply andb_false_iff in E as [E|E].
    + apply Z.ltb_ge in E. lia.
    + apply Z.ltb_ge in E. lia.
Qed.

Lemma prompt_body_is_bounded_witness :
  exists body,
    prompt_of 5 EnrichSamples.no_template EnrichSamples.an_entry (lit "AI")
    = strip (EnrichSamples.no_template (lit "AI")
               (TITLE_LABEL ++ title EnrichSamples.an_entry
                ++ CONTENT_LABEL ++ body))
    /\ Z.of_nat (length body) <= 5 + 2
    /\ firstn (Z.to_nat 5) body
       = firstn (Z.to_nat 5)
           (or_else (description EnrichSamples.an_entry) NO_DESCRIPTION).
Proof.
  destruct (prompt_body_is_bounded 5 EnrichSamples.no_template
              EnrichSamples.an_entry (lit "AI"))
    as (body & Heq & Hbound & _).
  exists body. split; [exact Heq|]. apply Hbound. lia.
Defined.

End TextExtras.

(** ** More on [fetch_feed_entries] *)

Module FeedExtras.
Import Feed FeedSpec FeedFacts Samples FeedSamples.

Lemma collect_entries_app read_feed now feeds1 feeds2 lookback_hours :
  collect_entries read_feed now (feeds1 ++ feeds2) lookback_hours
  = collect_entries read_feed now feeds1 lookback_hours
    ++ collect_entries read_feed now feeds2 lookback_hours.
Proof.
  induction feeds1 as [|u r IH]; cbn [app collect_entries]; [reflexivity|].
  destruct (read_feed u); [|exact IH].
  now rewrite IH, app_assoc.
Qed.

(** X10: a feed that cannot be read (request, status check or parser
    raised) is skipped: the result is the one obtained without that URL,
    whatever the other feeds hold. *)
Theorem unreadable_feed_is_skipped
    (read_feed : str -> option (list FeedItem)) (now : Z)
    (before after : list str) (url : str) (lookback_hours max_items : Z) :
  read_feed url = None ->
  fetch_feed_entries read_feed now (before ++ url :: after) lookback_hours
    max_items
  = fetch_feed_entries read_feed now (before ++ after) lookback_hours
      max_items.
Proof.
  intros Hdown. unfold fetch_feed_entries. f_equal.
  rewrite !collect_entries_app. cbn [collect_entries].
  now rewrite Hdown.
Qed.

Lemma unreadable_feed_is_skipped_witness :
  fetch_feed_entries one_down 0 ([] ++ lit "https://down" :: one_url)
    NEWS_LOOKBACK_HOURS MAX_NEWS_ITEMS
  = fetch_feed_entries one_down 0 ([] ++ one_url) NEWS_LOOKBACK_HOURS
      MAX_NEWS_ITEMS.
Proof.
  apply (unreadable_feed_is_skipped one_down 0 [] one_url
           (lit "https://down") NEWS_LOOKBACK_HOURS MAX_NEWS_ITEMS).
  reflexivity.
Defined.

Lemma collect_entries_origin read_feed now feeds lookback_hours e :
  In e (collect_entries read_feed now feeds lookback_hours) ->
  exists url items it,
    In url feeds /\ read_feed url = Some items /\ In it items
    /\ too_old now lookback_hours it = false /\ e = entry_of_item it.
Proof.
  induction feeds as [|u r IH]; cbn [collect_entries]; [intros []|].
  destruct (read_feed u) as [items|] eqn:E.
  - rewrite in_app_iff, in_map_iff. intros [(it & <- & Hit)|Hrest].
    + apply filter_In in Hit as [Hin Hold].
      apply negb_true_iff in Hold.
      exists u, items, it. cbn [In]. auto.
    + destruct (IH Hrest) as (url & its & it & H1 & H2).
      exists url, its, it. cbn [In]. tauto.
  - intros Hrest. destruct (IH Hrest) as (url & its & it & H1 & H2).
    exists url, its, it. cbn [In]. tauto.
Qed.

Lemma dedup_entries_incl entries max_items e :
  In e (dedup_entries entries max_items) -> In e entries.
Proof.
  rewrite dedup_entries_keep_new. intros H.
  apply firstn_incl, keep_new_incl in H.
  now apply (Permutation_in _ (sort_by_recency_perm entries)).
Qed.

(** X11: every entry returned is built from an item of a feed that was
    read, with no translation yet, and is inside the look-back window:
    it has no time stamp, or its time stamp is not before
    [now - lookback_hours]. *)
Theorem returned_entries_are_recent
    (read_feed : str -> option (list FeedItem)) (now : Z)
    (feeds : list str) (lookback_hours max_items : Z) (e : NewsEntry) :
  In e (fetch_feed_entries read_feed now feeds lookback_hours max_items) ->
  (exists url items it,
     In url feeds /\ read_feed url = Some items /\ In it items
     /\ e = entry_of_item it)
  /\ match published_at e with
     | Some t => now - lookback_hours * 3600 * 1000000 <= Z.of_N t
     | None => True
     end
  /\ translation e = None /\ summary e = None /\ kept_original e = true.
Proof.
  unfold fetch_feed_entries. intros H.
  apply dedup_entries_incl, collect_entries_origin in H.
  destruct H as (url & items & it & Hurl & Hread & Hit & Hold & ->).
  split; [exists url, items, it; auto|].
  split; [|cbn; auto].
  unfold too_old, cutoff in Hold. cbn [entry_of_item published_at].
  destruct (fi_published it); [|exact I].
  now apply Z.ltb_ge in Hold.
Qed.

Lemma returned_entries_are_recent_witness :
  (exists url items it,
     In url one_url /\ serve [stale; recent; undated] url = Some items
     /\ In it items /\ entry_of_item recent = entry_of_item it)
  /\ match published_at (entry_of_item recent) with
     | Some t => a_now - NEWS_LOOKBACK_HOURS * 3600 * 1000000 <= Z.of_N t
     | None => True
     end
  /\ translation (entry_of_item recent) = None
  /\ summary (entry_of_item recent) = None
  /\ kept_original (entry_of_item recent) = true.
Proof.
  apply (returned_entries_are_recent (serve [stale; recent; undated]) a_now
           one_url NEWS_LOOKBACK_HOURS MAX_NEWS_ITEMS).
  vm_compute. left. reflexivity.
Defined.

(** The stale item of the example is dropped, the undated one is kept,
    last. *)
Example lookback_sample :
  fetch_feed_entries (serve [stale; undated; recent]) a_now one_url
    NEWS_LOOKBACK_HOURS MAX_NEWS_ITEMS
  = [entry_of_item recent; entry_of_item undated].
Proof. vm_compute. reflexivity. Qed.

Lemma sort_by_recency_sorted_id l :
  recency_sorted l -> sort_by_recency l = l.
Proof.
  unfold recency_sorted. induction 1 as [|x r Hr IH Hall];
    cbn [sort_by_recency]; [reflexivity|].
  rewrite IH. destruct r as [|y r']; [reflexivity|].
  cbn [insert_by_recency]. inversion Hall as [|? ? Hy _]; subst.
  now replace (sort_key x <? sort_key y)%N with false
    by (symmetry; apply N.ltb_ge; exact Hy).
Qed.

Lemma keep_new_nodup_id l : forall seen,
  NoDup (map dedup_key l) ->
  (forall e, In e l -> dedup_key e ∉ seen) ->
  keep_new seen l = l.
Proof.
  induction l as [|x r IH]; intros seen Hnd Hfresh; cbn [keep_new];
    [reflexivity|].
  cbn [map] in Hnd.
  apply NoDup_cons_1_1 in Hnd as Hx. apply NoDup_cons_1_2 in Hnd as Hr.
  destruct (decide (dedup_key x ∈ seen)) as [Hin|_].
  - exfalso. apply (Hfresh x); [now left | exact Hin].
  - f_equal. apply IH; [exact Hr|].
    intros e He Hs. apply elem_of_union in Hs as [Hs|Hs].
    + apply (Hfresh e); [now right | exact Hs].
    + apply elem_of_singleton in Hs. apply Hx. rewrite <- Hs.
      apply list_elem_of_In, in_map_iff. now exists e.
Qed.

(** X12: de-duplicating the result again changes nothing:
    [dedup_entries (dedup_entries l m) m = dedup_entries l m], for every
    list and every cap. *)
Theorem dedup_entries_idempotent (entries : list NewsEntry)
    (max_items : Z) :
  dedup_entries (dedup_entries entries max_items) max_items
  = dedup_entries entries max_items.
Proof.
  destruct (dedup_entries_invariants entries max_items)
    as (Hs & Hnd & Hlen & _).
  rewrite (dedup_entries_keep_new (dedup_entries entries max_items)).
  rewrite (sort_by_recency_sorted_id _ Hs).
  rewrite keep_new_nodup_id; [|exact Hnd|].
  - now apply firstn_all2.
  - intros e _. apply not_elem_of_empty.
Qed.

(** X13: a smaller cap cuts the tail and changes nothing else: for
    [1 <= m <= m'] the result for [m] is the first [m] entries of the
    result for [m']. *)
Theorem smaller_cap_is_prefix (entries : list NewsEntry) (m m' : Z) :
  1 <= m -> m <= m' ->
  dedup_entries entries m
  = firstn (Z.to_nat m) (dedup_entries entries m').
Proof.
  intros H1 H2. rewrite !dedup_entries_keep_new.
  replace (cap m) with (Z.to_nat m) by (unfold cap; lia).
  replace (cap m') with (Z.to_nat m') by (unfold cap; lia).
  rewrite firstn_firstn. f_equal. lia.
Qed.

Lemma smaller_cap_is_prefix_witness :
  dedup_entries (map entry_of_item [older; mirror; newer]) 1
  = firstn (Z.to_nat 1)
      (dedup_entries (map entry_of_item [older; mirror; newer]) 20).
Proof.
  apply (smaller_cap_is_prefix (map entry_of_item [older; mirror; newer])
           1 20); lia.
Defined.

End FeedExtras.

(** ** Stripping *)

Module StripFacts.

Lemma lstrip_by_snoc_keep (p : N -> bool) (a : str) (c : N) :
  p c = false -> lstrip_by p (a ++ [c]) = lstrip_by p a ++ [c].
Proof.
  intros Hc. induction a as [|d r IH]; cbn [app lstrip_by].
  - now rewrite Hc.
  - destruct (p d); [exact IH | reflexivity].
Qed.

Lemma lstrip_by_snoc_drop (p : N -> bool) (a : str) (c : N) :
  p c = true ->
  lstrip_by p (a ++ [c])
  = match lstrip_by p a with
    | [] => []
    | x => x ++ [c]
    end.
Proof.
  intros Hc. induction a as [|d r IH]; cbn [app lstrip_by].
  - now rewrite Hc.
  - destruct (p d); [exact IH | reflexivity].
Qed.

(** [rstrip] by recursion on the string. *)
Lemma rstrip_by_cons (p : N -> bool) (c : N) (r : str) :
  rstrip_by p (c :: r)
  = match rstrip_by p r with
    | [] => if p c then [] else [c]
    | x => c :: x
    end.
Proof.
  unfold rstrip_by. cbn [rev].
  destruct (p c) eqn:Hc.
  - rewrite lstrip_by_snoc_drop by exact Hc.
    destruct (lstrip_by p (rev r)) as [|y t]; [reflexivity|].
    rewrite rev_app_distr. cbn [rev app].
    destruct (rev t ++ [y]) eqn:E; [|reflexivity].
    now apply app_eq_nil in E as [_ E].
  - rewrite lstrip_by_snoc_keep by exact Hc.
    rewrite rev_app_distr. cbn [rev app].
    now destruct (rev (lstrip_by p (rev r))).
Qed.

Lemma rstrip_by_nil (p : N -> bool) : rstrip_by p [] = [].
Proof. reflexivity. Qed.

(** What [lstrip] returns does not start with a stripped character. *)
Lemma lstrip_by_head (p : N -> bool) (s : str) :
  match lstrip_by p s with
  | c :: _ => p c = false
  | [] => True
  end.
Proof.
  induction s as [|d r IH]; cbn [lstrip_by]; [exact I|].
  destruct (p d) eqn:E; [exact IH | exact E].
Qed.

Lemma lstrip_by_fixed (p : N -> bool) (s : str) :
  match s with c :: _ => p c = false | [] => True end ->
  lstrip_by p s = s.
Proof. destruct s as [|c r]; cbn [lstrip_by]; [auto | now intros ->]. Qed.

Lemma rstrip_by_head (p : N -> bool) (s : str) :
  match s with c :: _ => p c = false | [] => True end ->
  match rstrip_by p s with c :: _ => p c = false | [] => True end.
Proof.
  destruct s as [|c r]; [auto|]. intros Hc. rewrite rstrip_by_cons, Hc.
  now destruct (rstrip_by p r).
Qed.

Lemma rstrip_by_idem (p : N -> bool) (s : str) :
  rstrip_by p (rstrip_by p s) = rstrip_by p s.
Proof.
  induction s as [|c r IH]; [reflexivity|].
  rewrite rstrip_by_cons.
  destruct (rstrip_by p r) as [|y t] eqn:E.
  - destruct (p c) eqn:Hc; [reflexivity|].
    now rewrite rstrip_by_cons, rstrip_by_nil, Hc.
  - rewrite rstrip_by_cons, IH. reflexivity.
Qed.

Lemma strip_by_idem (p : N -> bool) (s : str) :
  strip_by p (strip_by p s) = strip_by p s.
Proof.
  unfold strip_by.
  rewrite (lstrip_by_fixed p (rstrip_by p (lstrip_by p s))).
  - apply rstrip_by_idem.
  - apply rstrip_by_head, lstrip_by_head.
Qed.

Lemma lstrip_by_incl (p : N -> bool) (s : str) c :
  In c (lstrip_by p s) -> In c s.
Proof.
  induction s as [|d r IH]; cbn [lstrip_by]; [auto|].
  destruct (p d); [right; auto | auto].
Qed.

Lemma strip_by_incl (p : N -> bool) (s : str) c :
  In c (strip_by p s) -> In c s.
Proof.
  unfold strip_by, rstrip_by. intros H.
  apply in_rev, lstrip_by_incl, in_rev in H. eapply lstrip_by_incl, H.
Qed.

End StripFacts.

(** ** More on [load_env_file] *)

Module EnvExtras.
Import EnvFacts EnvSamples StripFacts.

Lemma find_before (c : N) (s : str) i :
  find c s = Some i -> ~ In c (firstn i s).
Proof.
  revert i. induction s as [|d r IH]; intros i; cbn [find];
    [discriminate|].
  destruct (N.eqb_spec d c) as [->|Hne].
  - intros [= <-]. cbn. tauto.
  - destruct (find c r) as [j|]; cbn [option_map]; [|discriminate].
    intros [= <-]. cbn [firstn In]. intros [H|H]; [contradiction|].
    now apply (IH j).
Qed.

(** A line that ran without exception is skipped in any environment that
    knows the keys of the environment it produced. *)
Lemma load_env_line_known (raw_line : str)
    (environ environ1 environ' : gmap str str) :
  load_env_line raw_line environ = Ok environ1 ->
  (forall k, is_Some (environ1 !! k) -> is_Some (environ' !! k)) ->
  load_env_line raw_line environ' = Ok environ'.
Proof.
  unfold load_env_line.
  destruct (negb (PyStr.truthy (strip raw_line))
            || is_comment (strip raw_line)); [reflexivity|].
  destruct (split_eq (strip raw_line)) as [[key value]|]; [|reflexivity].
  destruct (negb (PyStr.truthy (strip key))); cbn [orb]; [reflexivity|].
  intros Hrun Hknown.
  destruct (bool_decide (strip key ∈ SENSITIVE_ENV_KEYS)) eqn:Esens.
  { now rewrite orb_true_r. }
  rewrite orb_false_r in Hrun |- *.
  assert (Hset : is_Some (environ' !! strip key)).
  { apply Hknown.
    destruct (bool_decide (is_Some (environ !! strip key))) eqn:E.
    - injection Hrun as <-. now apply bool_decide_eq_true in E.
    - unfold setenv in Hrun. destruct (_ || _); [discriminate|].
      injection Hrun as <-. rewrite lookup_insert_eq. now eexists. }
  now rewrite (bool_decide_eq_true_2 _ Hset).
Qed.

Lemma load_env_lines_known (lines : list str) :
  forall (environ environ' : gmap str str),
  (forall k, is_Some ((snd (load_env_lines lines environ)) !! k) ->
             is_Some (environ' !! k)) ->
  (forall x, fst (load_env_lines lines environ) = Raise x ->
             environ' = snd (load_env_lines lines environ)) ->
  load_env_lines lines environ'
  = (fst (load_env_lines lines environ), environ').
Proof.
  induction lines as [|raw_line rest IH]; intros environ environ' Hknown
    Hraise; cbn [load_env_lines] in *; [reflexivity|].
  destruct (load_env_line raw_line environ) as [environ1|x] eqn:E.
  - rewrite (load_env_line_known raw_line environ environ1 environ' E).
    + now apply IH.
    + intros k [v Hk]. apply Hknown.
      destruct (load_env_lines_effect rest environ1) as [Hkeep _].
      rewrite (Hkeep k v Hk). now eexists.
  - cbn [fst snd] in *. rewrite (Hraise x eq_refl), E. reflexivity.
Qed.

(** X14: loading the same file a second time changes nothing: the second
    run ends as the first did and leaves the environment of the first
    run. *)
Theorem load_env_file_idempotent (expanduser : str -> str)
    (read_lines : str -> option (list str)) (path : option str)
    (environ : gmap str str) :
  load_env_file expanduser read_lines path
    (snd (load_env_file expanduser read_lines path environ))
  = load_env_file expanduser read_lines path environ.
Proof.
  unfold load_env_file.
  destruct (negb (opt_truthy path)); [reflexivity|].
  destruct (read_lines (expanduser (opt_str path))) as [lines|];
    [|reflexivity].
  rewrite (load_env_lines_known lines environ
             (snd (load_env_lines lines environ))); auto.
  now destruct (load_env_lines lines environ).
Qed.

(** What a line adds to the environment. *)
Lemma load_env_line_new_key (raw_line : str)
    (environ environ' : gmap str str) k v :
  load_env_line raw_line environ = Ok environ' ->
  environ' !! k = Some v -> environ !! k = None ->
  k <> [] /\ strip k = k /\ ~ In 61%N k /\ ~ In 0%N k /\ ~ In 0%N v
  /\ (k ∉ SENSITIVE_ENV_KEYS)
  /\ exists key value,
       split_eq (strip raw_line) = Some (key, value) /\ k = strip key
       /\ v = strip_char 39%N (strip_char 34%N (strip value)).
Proof.
  unfold load_env_line.
  destruct (negb (PyStr.truthy (strip raw_line))
            || is_comment (strip raw_line)).
  { intros [= <-] H1 H2. congruence. }
  destruct (split_eq (strip raw_line)) as [[key value]|] eqn:Esplit.
  2:{ intros [= <-] H1 H2. congruence. }
  destruct (negb (PyStr.truthy (strip key))) eqn:Ek; cbn [orb].
  { intros [= <-] H1 H2. congruence. }
  destruct (bool_decide (is_Some (environ !! strip key))); cbn [orb].
  { intros [= <-] H1 H2. congruence. }
  destruct (bool_decide (strip key ∈ SENSITIVE_ENV_KEYS)) eqn:Esens.
  { intros [= <-] H1 H2. congruence. }
  unfold setenv.
  destruct (existsb (N.eqb 0) (strip key)) eqn:Ez1; cbn [orb];
    [discriminate|].
  destruct (existsb (N.eqb 0)
              (strip_char 39%N (strip_char 34%N (strip value)))) eqn:Ez2;
    [discriminate|].
  intros Heq Hnew Hold. injection Heq as Heq. subst environ'.
  destruct (decide (strip key = k)) as [<-|Hne].
  2:{ rewrite lookup_insert_ne in Hnew by exact Hne. congruence. }
  rewrite lookup_insert_eq in Hnew. injection Hnew as <-.
  split. { intros H. rewrite H in Ek. discriminate. }
  split. { apply strip_by_idem. }
  split.
  { intros Hin. apply strip_by_incl in Hin.
    unfold split_eq in Esplit.
    destruct (find 61%N (strip raw_line)) as [i|] eqn:Ef; [|discriminate].
    injection Esplit as <- _. now apply find_before in Ef. }
  split.
  { intros Hin. apply not_true_iff_false in Ez1. apply Ez1.
    apply existsb_exists. exists 0%N. split; [exact Hin | reflexivity]. }
  split.
  { intros Hin. apply not_true_iff_false in Ez2. apply Ez2.
    apply existsb_exists. exists 0%N. split; [exact Hin | reflexivity]. }
  split. { now apply bool_decide_eq_false in Esens. }
  exists key, value. auto.
Qed.

(** X15: a variable that [load_env_file] adds comes from a line of the
    file with an equals sign: its name is the stripped text before the
    first equals sign (not empty, without equals sign, without NUL, not
    sensitive), its value the text after it, stripped of white space, then
    of double and then of single quotes. *)
Theorem load_env_file_new_keys (expanduser : str -> str)
    (read_lines : str -> option (list str)) (path : option str)
    (environ : gmap str str) (k v : str) :
  (snd (load_env_file expanduser read_lines path environ)) !! k = Some v ->
  environ !! k = None ->
  k <> [] /\ strip k = k /\ ~ In 61%N k /\ ~ In 0%N k /\ ~ In 0%N v
  /\ (k ∉ SENSITIVE_ENV_KEYS)
  /\ exists lines raw_line key value,
       read_lines (expanduser (opt_str path)) = Some lines
       /\ In raw_line lines
       /\ split_eq (strip raw_line) = Some (key, value) /\ k = strip key
       /\ v = strip_char 39%N (strip_char 34%N (strip value)).
Proof.
  unfold load_env_file.
  destruct (negb (opt_truthy path)); [cbn [snd]; congruence|].
  destruct (read_lines (expanduser (opt_str path))) as [lines|];
    [|cbn [snd]; congruence].
  intros Hnew Hold.
  assert (Hgen : forall (ls : list str) (env : gmap str str),
            (snd (load_env_lines ls env)) !! k = Some v -> env !! k = None ->
            k <> [] /\ strip k = k /\ ~ In 61%N k /\ ~ In 0%N k
            /\ ~ In 0%N v /\ (k ∉ SENSITIVE_ENV_KEYS)
            /\ exists raw_line key value,
                 In raw_line ls
                 /\ split_eq (strip raw_line) = Some (key, value)
                 /\ k = strip key
                 /\ v = strip_char 39%N (strip_char 34%N (strip value))).
  { induction ls as [|raw_line rest IH]; intros env; cbn [load_env_lines].
    - cbn [snd]. congruence.
    - destruct (load_env_line raw_line env) as [env1|x] eqn:E;
        [|cbn [snd]; congruence].
      intros H1 H2. destruct (env1 !! k) as [v1|] eqn:Ek.
      + destruct (load_env_lines_effect rest env1) as [Hkeep _].
        rewrite (Hkeep k v1 Ek) in H1. injection H1 as ->.
        destruct (load_env_line_new_key raw_line env env1 k v E Ek H2)
          as (G1 & G2 & G3 & G4 & G5 & G6 & key & value & G7).
        repeat (split; [assumption|]).
        exists raw_line, key, value. cbn [In]. tauto.
      + destruct (IH env1 H1 Ek)
          as (G1 & G2 & G3 & G4 & G5 & G6 & rl & key & value & G7 & G8).
        repeat (split; [assumption|]).
        exists rl, key, value. cbn [In]. tauto. }
  destruct (Hgen lines environ Hnew Hold)
    as (G1 & G2 & G3 & G4 & G5 & G6 & rl & key & value & G7 & G8).
  repeat (split; [assumption|]).
  exists lines, rl, key, value. tauto.
Qed.

Lemma load_env_file_new_keys_witness :
  lit "CITY" <> [] /\ strip (lit "CITY") = lit "CITY"
  /\ ~ In 61%N (lit "CITY") /\ ~ In 0%N (lit "CITY")
  /\ ~ In 0%N (lit "Xiamen")
  /\ (lit "CITY" ∉ SENSITIVE_ENV_KEYS)
  /\ exists lines raw_line key value,
       one_file (same_path (opt_str (Some (lit ".env")))) = Some lines
       /\ In raw_line lines
       /\ split_eq (strip raw_line) = Some (key, value)
       /\ lit "CITY" = strip key
       /\ lit "Xiamen" = strip_char 39%N (strip_char 34%N (strip value)).
Proof.
  apply (load_env_file_new_keys same_path one_file (Some (lit ".env"))
           an_environ (lit "CITY") (lit "Xiamen")).
  - vm_compute. reflexivity.
  - vm_compute. reflexivity.
Defined.

End EnvExtras.

(** ** [trim_whitespace] *)

Module TrimExtras.
Import TrimSpec StripFacts.

Lemma collapse_ws_head c r :
  isspace c = false -> collapse_ws (c :: r) = c :: collapse_ws r.
Proof. intros H. cbn [collapse_ws]. now rewrite H. Qed.

Lemma collapse_ws_collapsed s : collapsed (collapse_ws s) = true.
Proof.
  induction s as [|c r IH]; [reflexivity|].
  cbn [collapse_ws]. destruct (isspace c) eqn:Ec.
  - destruct r as [|d r']; [reflexivity|].
    destruct (isspace d) eqn:Ed; [exact IH|].
    rewrite (collapse_ws_head d r' Ed) in IH |- *.
    cbn [collapsed]. cbn [collapsed] in IH.
    change (isspace 32) with true. rewrite Ed in IH |- *.
    cbn [negb andb N.eqb Pos.eqb] in IH |- *.
    exact IH.
  - cbn [collapsed]. now rewrite Ec, IH.
Qed.

Lemma collapsed_tail c r : collapsed (c :: r) = true -> collapsed r = true.
Proof. cbn [collapsed]. intros H. now apply andb_true_iff in H as [_ H]. Qed.

(** What [lstrip] leaves of a collapsed string. *)
Lemma lstrip_collapsed s :
  collapsed s = true ->
  collapsed (lstrip_by isspace s) = true
  /\ match lstrip_by isspace s with
     | c :: _ => isspace c = false
     | [] => True
     end.
Proof.
  intros H. split; [|apply lstrip_by_head].
  destruct s as [|c r]; [reflexivity|].
  cbn [lstrip_by]. destruct (isspace c) eqn:Ec; [|exact H].
  cbn [collapsed] in H. rewrite Ec in H.
  apply andb_true_iff in H as [H Hr].
  apply andb_true_iff in H as [_ Hnext].
  destruct r as [|d r']; [reflexivity|].
  apply negb_true_iff in Hnext. cbn [lstrip_by]. now rewrite Hnext.
Qed.

Lemma rstrip_keeps_head c r :
  isspace c = false ->
  exists t, rstrip_by isspace (c :: r) = c :: t.
Proof.
  intros Hc. rewrite rstrip_by_cons, Hc.
  destruct (rstrip_by isspace r); eauto.
Qed.

Lemma rstrip_collapsed s :
  collapsed s = true -> single_spaced (rstrip_by isspace s) = true.
Proof.
  induction s as [|c r IH]; intros H; [reflexivity|].
  pose proof (collapsed_tail c r H) as Hr. specialize (IH Hr).
  rewrite rstrip_by_cons.
  destruct (rstrip_by isspace r) as [|y t] eqn:E.
  - destruct (isspace c) eqn:Ec; [reflexivity|].
    cbn [single_spaced]. now rewrite Ec.
  - cbn [single_spaced] in IH |- *. rewrite IH, andb_true_r.
    destruct (isspace c) eqn:Ec; [|reflexivity].
    cbn [collapsed] in H. rewrite Ec in H.
    apply andb_true_iff in H as [H _].
    apply andb_true_iff in H as [Hsp Hnext]. rewrite Hsp. cbn [andb].
    destruct r as [|d r']; [discriminate E|].
    apply negb_true_iff in Hnext.
    destruct (rstrip_keeps_head d r' Hnext) as (t' & Ht').
    rewrite Ht' in E. injection E as <- _. now rewrite Hnext.
Qed.

Lemma single_spaced_collapsed s :
  single_spaced s = true -> collapsed s = true.
Proof.
  induction s as [|c r IH]; [reflexivity|].
  cbn [single_spaced collapsed]. intros H.
  apply andb_true_iff in H as [H Hr]. rewrite (IH Hr), andb_true_r.
  destruct (isspace c); [|reflexivity].
  apply andb_true_iff in H as [-> H]. cbn [andb].
  now destruct r.
Qed.

Lemma collapse_ws_fixed s : collapsed s = true -> collapse_ws s = s.
Proof.
  induction s as [|c r IH]; intros H; [reflexivity|].
  pose proof (collapsed_tail c r H) as Hr. specialize (IH Hr).
  cbn [collapse_ws]. cbn [collapsed] in H.
  destruct (isspace c) eqn:Ec; [|now rewrite IH].
  apply andb_true_iff in H as [H _].
  apply andb_true_iff in H as [Hsp Hnext]. apply N.eqb_eq in Hsp. subst c.
  destruct r as [|d r']; [reflexivity|].
  apply negb_true_iff in Hnext. now rewrite Hnext, IH.
Qed.

Lemma rstrip_fixed s :
  single_spaced s = true -> rstrip_by isspace s = s.
Proof.
  induction s as [|c r IH]; intros H; [reflexivity|].
  cbn [single_spaced] in H. apply andb_true_iff in H as [H Hr].
  rewrite rstrip_by_cons, (IH Hr).
  destruct r as [|d r']; [|reflexivity].
  destruct (isspace c); [|reflexivity].
  now rewrite andb_false_r in H.
Qed.

(** X16: [trim_whitespace] normalises: its result has no white space at
    either end and only single spaces inside; a string of that form is
    returned as it is; so trimming twice is trimming once. *)
Theorem trim_whitespace_normalizes (text : str) :
  normalized (trim_whitespace text) = true
  /\ (normalized text = true -> trim_whitespace text = text)
  /\ trim_whitespace (trim_whitespace text) = trim_whitespace text.
Proof.
  assert (Hnorm : forall s, normalized (trim_whitespace s) = true).
  { intros s. unfold trim_whitespace, strip, strip_by, normalized.
    destruct (lstrip_collapsed _ (collapse_ws_collapsed s)) as [Hc Hh].
    rewrite (rstrip_collapsed _ Hc), andb_true_r.
    pose proof (rstrip_by_head isspace _ Hh) as Hh'.
    destruct (rstrip_by isspace _); [reflexivity|].
    now rewrite Hh'. }
  assert (Hfix : forall s, normalized s = true -> trim_whitespace s = s).
  { intros s H. unfold normalized in H.
    apply andb_true_iff in H as [Hh Hs].
    unfold trim_whitespace, strip, strip_by.
    rewrite (collapse_ws_fixed s (single_spaced_collapsed s Hs)).
    rewrite lstrip_by_fixed.
    - now apply rstrip_fixed.
    - destruct s; [exact I | now apply negb_true_iff in Hh]. }
  split; [apply Hnorm|]. split; [apply Hfix|].
  apply Hfix, Hnorm.
Qed.

Lemma trim_whitespace_normalizes_witness :
  normalized (trim_whitespace (lit "  a   b ")) = true
  /\ trim_whitespace (lit "a b") = lit "a b"
  /\ trim_whitespace (trim_whitespace (lit "  a   b "))
     = trim_whitespace (lit "  a   b ").
Proof.
  destruct (trim_whitespace_normalizes (lit "  a   b ")) as (H1 & _ & H3).
  destruct (trim_whitespace_normalizes (lit "a b")) as (_ & H2 & _).
  split; [exact H1|]. split; [apply H2; reflexivity | exact H3].
Defined.

End TrimExtras.

(** ** Sources, rendering, delivery and the news of a category *)

Module MoreExtras.
Import Sources Render Delivery Pipeline MoreSpec Feed FeedSpec FeedFacts
  EnrichSpec EnrichBounds.

Lemma add_source_lookup (grouped : gmap str (list NewsSource))
    (item : gmap str str) (c : str) :
  default [] (add_source grouped item !! c)
  = default [] (grouped !! c)
    ++ match source_of c item with Some s => [s] | None => [] end.
Proof.
  unfold add_source, source_of.
  destruct (item !! lit "category") as [c'|]; [|now rewrite app_nil_r].
  destruct (item !! lit "url") as [u|]; [|now rewrite app_nil_r].
  destruct (PyStr.truthy c' && PyStr.truthy u); cbn [andb];
    [|now rewrite app_nil_r].
  destruct (decide (c' = c)) as [->|Hne].
  - rewrite lookup_insert_eq, bool_decide_eq_true_2 by reflexivity.
    reflexivity.
  - rewrite lookup_insert_ne by exact Hne.
    rewrite bool_decide_eq_false_2 by exact Hne. now rewrite app_nil_r.
Qed.

Lemma add_source_none (grouped : gmap str (list NewsSource))
    (item : gmap str str) (c : str) :
  add_source grouped item !! c = None
  <-> grouped !! c = None /\ source_of c item = None.
Proof.
  unfold add_source, source_of.
  destruct (item !! lit "category") as [c'|]; [|tauto].
  destruct (item !! lit "url") as [u|]; [|tauto].
  destruct (PyStr.truthy c' && PyStr.truthy u); cbn [andb]; [|tauto].
  destruct (decide (c' = c)) as [->|Hne].
  - rewrite lookup_insert_eq, bool_decide_eq_true_2 by reflexivity.
    split; [discriminate | intros [_ H]; discriminate].
  - rewrite lookup_insert_ne by exact Hne.
    rewrite bool_decide_eq_false_2 by exact Hne. tauto.
Qed.

Lemma fold_add_source (raw : list (gmap str str)) (c : str) :
  forall grouped : gmap str (list NewsSource),
  default [] (fold_left add_source raw grouped !! c)
  = default [] (grouped !! c) ++ omap (source_of c) raw
  /\ (fold_left add_source raw grouped !! c = None
      <-> grouped !! c = None /\ omap (source_of c) raw = []).
Proof.
  induction raw as [|item rest IH]; intros grouped; cbn [fold_left omap].
  - rewrite app_nil_r. cbn. tauto.
  - destruct (IH (add_source grouped item)) as [IH1 IH2].
    rewrite IH1, IH2, add_source_lookup, add_source_none.
    cbn [omap list_omap].
    destruct (source_of c item) as [s|].
    + rewrite <- app_assoc. cbn [app].
      split; [reflexivity|]. split; [intros [[_ H] _]|intros [_ H]];
        discriminate.
    + rewrite app_nil_r. tauto.
Qed.

(** X17: [load_news_sources] groups by category and keeps the order of the
    file: the sources of a category are the items with that category that
    have a category and a URL that are not empty, in file order, the label
    being the URL where the item has none; a category has no key in the
    result exactly when no item qualifies; the built-in list stands in
    when the file is missing or is not JSON. The feeds of a category in
    [build_push_payloads] are the URLs of these sources. *)
Theorem load_news_sources_groups (DEFAULT_NEWS_SOURCES : list (gmap str str))
    (file : sources_file) (c : str) :
  let raw := match file with
             | Loaded raw_sources => raw_sources
             | FileNotFound | NotJson => DEFAULT_NEWS_SOURCES
             end in
  default [] (load_news_sources DEFAULT_NEWS_SOURCES file !! c)
  = omap (source_of c) raw
  /\ (load_news_sources DEFAULT_NEWS_SOURCES file !! c = None
      <-> omap (source_of c) raw = [])
  /\ feeds_of (load_news_sources DEFAULT_NEWS_SOURCES file) c
     = map url (omap (source_of c) raw).
Proof.
  cbv zeta. unfold load_news_sources, feeds_of.
  match goal with
  | |- context [fold_left add_source ?r ∅] =>
      destruct (fold_add_source r c ∅) as [H1 H2]
  end.
  rewrite lookup_empty in H1, H2. cbn [default app] in H1.
  rewrite H1. split; [reflexivity|]. split; [|reflexivity].
  rewrite H2. tauto.
Qed.

(** X18: the delivery loop of [main] calls [REQUEST_SESSION.post] once for
    every payload whose body is not blank, in order, whether or not earlier
    deliveries failed; without [SERVERCHAN_KEY] it never calls it. *)
Theorem deliver_posts_every_nonblank (key : option str)
    (accepts : nat -> bool) (payloads posted : list (str * str)) :
  deliver key accepts payloads posted
  = posted ++ (if opt_truthy key then List.filter nonblank payloads
               else []).
Proof.
  revert posted. induction payloads as [|[push_title body] rest IH];
    intros posted; cbn [deliver List.filter].
  - destruct (opt_truthy key); now rewrite app_nil_r.
  - unfold nonblank at 1. cbn [snd].
    destruct (PyStr.truthy (strip body)); cbn [negb]; [|apply IH].
    rewrite IH. unfold send_serverchan.
    destruct (opt_truthy key); cbn [negb snd]; [|reflexivity].
    destruct (accepts (length posted)); cbn [snd];
      now rewrite <- app_assoc.
Qed.

(** X19: an entry as [enrich_news] leaves it, with [kept_original] set
    and a description that is not empty, is rendered in three lines: the
    head line, the summary, and the description as the original; no
    translation line is shown. *)
Theorem kept_original_renders_once (strftime : N -> str) (idx : nat)
    (e : NewsEntry) :
  well_enriched e -> kept_original e = true -> description e <> [] ->
  exists head s,
    summary e = Some s
    /\ entry_lines strftime idx e
       = [head; SUMMARY_LINE ++ s; ORIGINAL_LINE ++ description e].
Proof.
  intros (t & s & Ht & Hs & Hne & _ & Hown & _) Hkept Hdesc.
  specialize (Hown Hkept).
  assert (Hd : or_else (description e) (title e) = description e)
    by (unfold or_else; now destruct (description e)).
  rewrite Hd in Hown. subst t.
  eexists. exists s. split; [exact Hs|].
  unfold entry_lines, shows_translation. rewrite Ht, Hs. cbn [opt_str].
  rewrite bool_decide_eq_true_2 by reflexivity.
  rewrite andb_false_r. cbn [app].
  assert (Hst : opt_truthy (Some s) = true) by (now destruct s).
  rewrite Hst. f_equal. f_equal. f_equal. f_equal.
  unfold or_else. now destruct (description e).
Qed.

Lemma kept_original_renders_once_witness :
  exists head s,
    summary kept_entry = Some s
    /\ entry_lines clock_text 1 kept_entry
       = [head; SUMMARY_LINE ++ s; ORIGINAL_LINE ++ description kept_entry].
Proof.
  apply (kept_original_renders_once clock_text 1 kept_entry).
  - exists (description EnrichSamples.an_entry), Text.SUMMARY_PLACEHOLDER.
    split; [reflexivity|]. split; [reflexivity|].
    split; [discriminate|]. split; [discriminate|].
    split; [reflexivity | discriminate].
  - reflexivity.
  - discriminate.
Defined.







End MoreExtras.
